(** * anchor-escrow: the escrow client and the custody protocol it drives

    A shallow embedding of the JavaScript escrow client (class [EscrowAPI] of
    [client/escrow-api.js], found in [client/README.md] in two revisions, and
    class [WalletAPI] of [wallet/wallet-api.js], found in
    [wallet/debug-transactions.js] behind the transaction analyzer that gives
    the file its name) together with a model of the on-chain ledger the client
    talks to.

    The on-chain program itself (the Rust handlers [initialize],
    [confirm_payment], [exchange], [cancel]) is not part of the sources; its
    handlers are modelled from the specification and are marked as such.

    Conventions:
    - an [async] method is a computation in the [Chain] monad: it threads the
      ledger and returns either a value or the error that was thrown;
    - [try { ... } catch (error) { console.error(...); throw error; }] is the
      identity on results (console output is not modelled);
    - integral JavaScript numbers are [N]; [new anchor.BN(n)] refuses a number
      of 2^53 or more, as bn.js does;
    - fractional JavaScript numbers are IEEE binary64 values ([spec_float]). *)

From Stdlib Require Import ZArith NArith Lia Ascii.
From Stdlib Require Import Floats.SpecFloat.
From stdpp Require Import gmap strings list fin_maps pretty.

Local Open Scope N_scope.

(** ** Public keys and deterministic address derivation *)

(** Modelled from the spec: the AddressDeriver ([findProgramAddressSync],
    [getAssociatedTokenAddressSync] of the Solana libraries) is deterministic
    and collision-free, so a derived address is represented by the inputs it
    was derived from.  A byte is an [N] below 256. *)
Inductive Pubkey : Type :=
| Key (base58 : string)
| ProgramAddress (seeds : list (list N)) (programId : Pubkey)
| AssociatedToken (mint owner : Pubkey).

Fixpoint Pubkey_encode (k : Pubkey) : gen_tree (string + list (list N)) :=
  match k with
  | Key s => GenLeaf (inl s)
  | ProgramAddress seeds p => GenNode 0 [GenLeaf (inr seeds); Pubkey_encode p]
  | AssociatedToken m o => GenNode 1 [Pubkey_encode m; Pubkey_encode o]
  end.

Fixpoint Pubkey_decode (t : gen_tree (string + list (list N))) : option Pubkey :=
  match t with
  | GenLeaf (inl s) => Some (Key s)
  | GenNode 0 [GenLeaf (inr seeds); p] => ProgramAddress seeds <$> Pubkey_decode p
  | GenNode 1 [m; o] =>
      match Pubkey_decode m, Pubkey_decode o with
      | Some m', Some o' => Some (AssociatedToken m' o')
      | _, _ => None
      end
  | _ => None
  end.

#[global] Instance Pubkey_eq_dec : EqDecision Pubkey.
Proof.
  refine (fix go (x y : Pubkey) {struct x} : Decision (x = y) :=
    match x, y with
    | Key s, Key s' => cast_if (decide (s = s'))
    | ProgramAddress sd p, ProgramAddress sd' p' =>
        cast_if_and (decide (sd = sd')) (go p p')
    | AssociatedToken m o, AssociatedToken m' o' =>
        cast_if_and (go m m') (go o o')
    | _, _ => right _
    end); abstract congruence.
Defined.

#[global] Instance Pubkey_countable : Countable Pubkey.
Proof.
  refine (inj_countable Pubkey_encode Pubkey_decode _).
  intros k. induction k as [s | seeds p IH | m IHm o IHo]; simpl.
  - reflexivity.
  - rewrite IH. reflexivity.
  - rewrite IHm, IHo. reflexivity.
Defined.

(** [PublicKey.findProgramAddressSync(seeds, programId)]: the address and
    the bump (the spec's disambiguation nonce).  The search over bumps is
    internal to the deriver; the canonical bump is reported as 255. *)
Definition findProgramAddressSync (seeds : list (list N)) (programId : Pubkey)
  : Pubkey * N :=
  (ProgramAddress seeds programId, 255).

(** The associated token address of [owner] for [mint]: the address that
    [getAssociatedTokenAddressSync] computes when it accepts the owner, and
    that the program derives for itself.  The library's refusal of an owner
    off the curve is [splToken.getAssociatedTokenAddressSync] below. *)
Definition getAssociatedTokenAddressSync (mint owner : Pubkey) : Pubkey :=
  AssociatedToken mint owner.

(** [PublicKey.isOnCurve(address)].  An address found by
    [findProgramAddressSync], and so an associated token address, is off the
    curve by construction; a key given by its text stands for the key of a
    wallet, a mint or a program, which is a point of the curve. *)
Definition isOnCurve (address : Pubkey) : bool :=
  match address with
  | Key _ => true
  | _ => false
  end.

(** ** JavaScript helpers used by the client *)

Module JS.

(** [Buffer.from(str)] for an ASCII string: its bytes. *)
Fixpoint Buffer_from (s : string) : list N :=
  match s with
  | EmptyString => []
  | String c s' => N_of_ascii c :: Buffer_from s'
  end.

(** The decimal text of a non-negative integer: [BN.prototype.toString()],
    the amounts the RPC node reports, and [Number.prototype.toString()] of an
    integer below 2^53 (from 2^53 on the text of a JavaScript number is no
    longer its exact decimal expansion, and from 1e21 on it has an exponent). *)
Definition toString (n : N) : string := pretty n.

Fixpoint repeat_char (c : ascii) (n : nat) : string :=
  match n with
  | O => EmptyString
  | S n' => String c (repeat_char c n')
  end.

(** [str.padStart(targetLength, padChar)]. *)
Definition padStart (targetLength : nat) (c : ascii) (s : string) : string :=
  repeat_char c (targetLength - String.length s) +:+ s.

Fixpoint drop_chars (n : nat) (s : string) : string :=
  match n, s with
  | O, _ => s
  | S n', String _ s' => drop_chars n' s'
  | S _, EmptyString => EmptyString
  end.

(** [str.slice(-k)]: the last [k] characters (the whole string when it is
    shorter). *)
Definition slice_last (k : nat) (s : string) : string :=
  drop_chars (String.length s - k) s.

Definition hex_digit (c : ascii) : option N :=
  let n := N_of_ascii c in
  if (48 <=? n) && (n <=? 57) then Some (n - 48)
  else if (97 <=? n) && (n <=? 102) then Some (n - 87)
  else if (65 <=? n) && (n <=? 70) then Some (n - 55)
  else None.

(** [Buffer.from(str, 'hex')]: two hexadecimal digits per byte; decoding
    stops at the first pair that is not hexadecimal, and a trailing single
    digit is dropped. *)
Fixpoint Buffer_from_hex (s : string) : list N :=
  match s with
  | String a (String b s') =>
      match hex_digit a, hex_digit b with
      | Some h, Some l => (16 * h + l) :: Buffer_from_hex s'
      | _, _ => []
      end
  | _ => []
  end.

(** Little-endian bytes of [n], exactly [len] of them (the low ones). *)
Fixpoint le_bytes (len : nat) (n : N) : list N :=
  match len with
  | O => []
  | S len' => (n mod 256) :: le_bytes len' (n / 256)
  end.

End JS.

(** Errors a call can end with. *)
Inductive EscrowError : Type :=
| InsufficientFunds
| InvalidAmount
| DuplicateSeed
| Unauthorized
| AlreadyConfirmed
| EscrowNotFound
| PaymentNotConfirmed
| AccountMismatch
| DestinationAccountMissing
| PaymentAlreadyConfirmed
| VaultNotEmpty.

Inductive Error : Type :=
| ProgramError (code : EscrowError)     (* the transaction was rejected on chain *)
| JsError (message : string)            (* [throw new Error(message)] in the client *)
| AccountDoesNotExist (address : Pubkey)(* a read of an account that is not there *)
| AssertionFailed (message : string)    (* an assertion of a library (bn.js) *)
| TokenOwnerOffCurveError.              (* spl-token refuses an owner off the curve *)

Inductive Result (A : Type) : Type :=
| Ok (value : A)
| Err (error : Error).
Arguments Ok {A} value.
Arguments Err {A} error.

(** [new anchor.BN(number)]: bn.js asserts [number < 0x20000000000000]. *)
Definition BN (number : N) : Result N :=
  if number <? 2 ^ 53 then Ok number
  else Err (AssertionFailed "Assertion failed").

(** [bn.toArrayLike(Buffer, "le", 8)]: bn.js asserts that the number fits the
    requested length. *)
Definition toArrayLike_le (length : nat) (bn : N) : Result (list N) :=
  if bn <? 256 ^ N.of_nat length then Ok (JS.le_bytes length bn)
  else Err (AssertionFailed "byte array longer than desired length").

#[global] Instance Result_ret : MRet Result := fun A x => Ok x.
#[global] Instance Result_bind : MBind Result := fun A B f m =>
  match m with
  | Ok x => f x
  | Err e => Err e
  end.

Module splToken.
(** [splToken.getAssociatedTokenAddressSync(mint, owner, allowOwnerOffCurve =
    false)]: throws [TokenOwnerOffCurveError] for an owner off the curve
    unless [allowOwnerOffCurve] is set. *)
Definition getAssociatedTokenAddressSync (mint owner : Pubkey)
    (allowOwnerOffCurve : bool) : Result Pubkey :=
  if negb allowOwnerOffCurve && negb (isOnCurve owner)
  then Err TokenOwnerOffCurveError
  else Ok (getAssociatedTokenAddressSync mint owner).
End splToken.

(** ** The ledger *)

(** The escrow account.  Fields and names are those of the program's
    [Escrow] struct as documented in [cursor/README-escrow.md]; [taker] is
    the spec's [counterparty], which the spec's data model adds to the record
    (spec names: [bump] = disambiguation_nonce, [mint_a] = asset_primary,
    [mint_b] = asset_secondary, [initializer_amount] = amount_deposited,
    [taker_amount] = amount_requested). *)
Record Escrow : Type := {
  seed : N;
  bump : N;
  initializer : Pubkey;
  taker : Pubkey;
  mint_a : Pubkey;
  mint_b : Pubkey;
  initializer_amount : N;
  taker_amount : N;
  payment_confirmed : bool
}.

Definition set_payment_confirmed (b : bool) (e : Escrow) : Escrow :=
  {| seed := seed e; bump := bump e; initializer := initializer e;
     taker := taker e; mint_a := mint_a e; mint_b := mint_b e;
     initializer_amount := initializer_amount e;
     taker_amount := taker_amount e; payment_confirmed := b |}.

(** A token account: the asset it holds and how much of it. *)
Record TokenAccount : Type := {
  mint : Pubkey;
  amount : N
}.

Definition set_amount (n : N) (t : TokenAccount) : TokenAccount :=
  {| mint := mint t; amount := n |}.

Record Ledger : Type := {
  escrows : gmap Pubkey Escrow;
  tokens : gmap Pubkey TokenAccount
}.

Definition set_escrows (f : gmap Pubkey Escrow -> gmap Pubkey Escrow) (L : Ledger) : Ledger :=
  {| escrows := f (escrows L); tokens := tokens L |}.

(** Process-wide configuration of the program (spec, section 9). *)
Definition PROGRAM_ID : Pubkey := Key "Bua4jWEfUYb3QcaWnfJEbG4KKv6C1SqJSGFr5KCntZDW".
Definition PLATFORM_WALLET : Pubkey := Key "CkjSZdXopqgh7jkPFn8MxdU7QKwfYdjQNNwbYABFpCx2".
Definition FEE_PERCENT : N := 6.

Definition ASSOCIATED_TOKEN_PROGRAM_ID : Pubkey := Key "ATokenGPvbdGVxr1b2hvZbsiqW5xWH25efTNsLJA8knL".
Definition TOKEN_PROGRAM_ID : Pubkey := Key "TokenkegQfeZyiNwAJbNbGKPFXCWuBvf9Ss623VQ5DA".
Definition SYSTEM_PROGRAM_ID : Pubkey := Key "11111111111111111111111111111111".

(** ** FeeSplitter *)

(** Modelled from the spec: section 4.6, [split(gross, fee_percent)]; the
    program's fee computation is not in the sources.  The fee is the
    percentage truncated toward zero, the net amount is the remainder. *)
Definition split (gross fee_percent : N) : N * N :=
  let fee := gross * fee_percent / 100 in
  (fee, gross - fee).

(** ** Instructions *)

(** The accounts object handed to [initialize] and [exchange]. *)
Module FullAccounts.
Record t : Type := {
  initializer : Pubkey;
  taker : Pubkey;
  mintA : Pubkey;
  mintB : Pubkey;
  initializerAtaA : Pubkey;
  initializerAtaB : Pubkey;
  takerAtaA : Pubkey;
  takerAtaB : Pubkey;
  platformAtaA : Pubkey;
  escrow : Pubkey;
  vault : Pubkey;
  platformWallet : Pubkey;
  associatedTokenprogram : Pubkey;
  tokenProgram : Pubkey;
  systemProgram : Pubkey
}.
End FullAccounts.

(** The accounts object handed to [confirmPayment]. *)
Module ConfirmAccounts.
Record t : Type := {
  taker : Pubkey;
  escrow : Pubkey;
  mintA : Pubkey
}.
End ConfirmAccounts.

(** The accounts object handed to [cancel]. *)
Module CancelAccounts.
Record t : Type := {
  initializer : Pubkey;
  mintA : Pubkey;
  initializerAtaA : Pubkey;
  platformAtaA : Pubkey;
  escrow : Pubkey;
  vault : Pubkey;
  platformWallet : Pubkey;
  associatedTokenprogram : Pubkey;
  tokenProgram : Pubkey;
  systemProgram : Pubkey
}.
End CancelAccounts.

Inductive Instruction : Type :=
| Initialize (seed amount_deposited amount_requested : N) (accounts : FullAccounts.t)
| ConfirmPayment (accounts : ConfirmAccounts.t)
| Exchange (accounts : FullAccounts.t)
| Cancel (accounts : CancelAccounts.t).

(** A transaction: one instruction and the keys that signed it. *)
Record Transaction : Type := {
  signers : list Pubkey;
  instruction : Instruction
}.

(** ** The program's handlers *)

Definition require (cond : bool) (code : EscrowError) : Result unit :=
  if cond then Ok tt else Err (ProgramError code).

(** Modelled from the spec: section 4.1, [derive(namespace_tag, seed)].  The
    seed enters as its 8 little-endian bytes, the layout the test suite
    ([tests/real-escrow-test.ts]) and [escrowCreate] derive the address with. *)
Definition derive (namespace_tag : string) (seed : N) : Pubkey * N :=
  findProgramAddressSync [JS.Buffer_from namespace_tag; JS.le_bytes 8 seed] PROGRAM_ID.

(** Modelled from the spec: a balance movement between two token accounts
    of the same asset; nothing moves unless both accounts exist and the source
    holds the amount. *)
Definition transfer (src dst : Pubkey) (n : N) (T : gmap Pubkey TokenAccount)
  : Result (gmap Pubkey TokenAccount) :=
  match T !! src with
  | None => Err (ProgramError AccountMismatch)
  | Some s =>
      match T !! dst with
      | None => Err (ProgramError DestinationAccountMissing)
      | Some d =>
          _ ← require (bool_decide (mint s = mint d)) AccountMismatch;
          _ ← require (n <=? amount s) InsufficientFunds;
          let T1 := <[src := set_amount (amount s - n) s]> T in
          match T1 !! dst with
          | None => Err (ProgramError DestinationAccountMissing)
          | Some d1 => Ok (<[dst := set_amount (amount d1 + n) d1]> T1)
          end
      end
  end.

(** Modelled from the spec: closing the Vault; its balance must be exactly
    0, else the operation aborts. *)
Definition close_vault (vault : Pubkey) (T : gmap Pubkey TokenAccount)
  : Result (gmap Pubkey TokenAccount) :=
  match T !! vault with
  | None => Err (ProgramError AccountMismatch)
  | Some v =>
      _ ← require (amount v =? 0) VaultNotEmpty;
      Ok (delete vault T)
  end.

Definition in_use {V : Type} (address : Pubkey) (m : gmap Pubkey V) : bool :=
  match m !! address with
  | Some _ => true
  | None => false
  end.

(** Modelled from the spec: section 4.2, Initialize.  The handler of the
    on-chain program is not in the sources.  The signer check stands at the
    entry of the handler, as in the other three (section 9); then come the
    validation of the amount, the re-derivation of the supplied addresses
    (section 6), the check that the address is free, and the debit. *)
Definition initialize (signers : list Pubkey)
    (seed amount_deposited amount_requested : N)
    (a : FullAccounts.t) (L : Ledger) : Result Ledger :=
  _ ← require (bool_decide (FullAccounts.initializer a ∈ signers)) Unauthorized;
  _ ← require (0 <? amount_deposited) InvalidAmount;
  let (address, nonce) := derive "state" seed in
  let vault := getAssociatedTokenAddressSync (FullAccounts.mintA a) address in
  _ ← require (bool_decide (FullAccounts.escrow a = address
                            ∧ FullAccounts.vault a = vault
                            ∧ FullAccounts.initializerAtaA a =
                                getAssociatedTokenAddressSync
                                  (FullAccounts.mintA a) (FullAccounts.initializer a)))
        AccountMismatch;
  _ ← require (negb (in_use address (escrows L)) && negb (in_use vault (tokens L)))
        DuplicateSeed;
  match tokens L !! FullAccounts.initializerAtaA a with
  | None => Err (ProgramError InsufficientFunds)
  | Some s =>
      _ ← require (bool_decide (mint s = FullAccounts.mintA a)) AccountMismatch;
      _ ← require (amount_deposited <=? amount s) InsufficientFunds;
      Ok {| escrows :=
              <[address := {| seed := seed; bump := nonce;
                              initializer := FullAccounts.initializer a;
                              taker := FullAccounts.taker a;
                              mint_a := FullAccounts.mintA a;
                              mint_b := FullAccounts.mintB a;
                              initializer_amount := amount_deposited;
                              taker_amount := amount_requested;
                              payment_confirmed := false |}]> (escrows L);
            tokens :=
              <[vault := {| mint := FullAccounts.mintA a; amount := amount_deposited |}]>
                (<[FullAccounts.initializerAtaA a := set_amount (amount s - amount_deposited) s]>
                   (tokens L)) |}
  end.

(** Modelled from the spec: section 4.3, ConfirmPayment.  Only the
    counterparty may confirm, and only once. *)
Definition confirm_payment (signers : list Pubkey)
    (a : ConfirmAccounts.t) (L : Ledger) : Result Ledger :=
  match escrows L !! ConfirmAccounts.escrow a with
  | None => Err (ProgramError EscrowNotFound)
  | Some e =>
      _ ← require (bool_decide (ConfirmAccounts.taker a ∈ signers
                                ∧ ConfirmAccounts.taker a = taker e)) Unauthorized;
      _ ← require (negb (payment_confirmed e)) AlreadyConfirmed;
      Ok (set_escrows (insert (ConfirmAccounts.escrow a) (set_payment_confirmed true e)) L)
  end.

(** Modelled from the spec: section 4.4, Exchange (Release).  Signer, then
    the confirmation flag, then the binding of every supplied account to the
    record; the fee and the payout leave the Vault, which is then closed
    together with the record.  Any failure rejects the whole instruction. *)
Definition exchange (signers : list Pubkey)
    (a : FullAccounts.t) (L : Ledger) : Result Ledger :=
  match escrows L !! FullAccounts.escrow a with
  | None => Err (ProgramError EscrowNotFound)
  | Some e =>
      _ ← require (bool_decide (FullAccounts.initializer a ∈ signers
                                ∧ FullAccounts.initializer a = initializer e)) Unauthorized;
      _ ← require (payment_confirmed e) PaymentNotConfirmed;
      _ ← require (bool_decide
                     (FullAccounts.taker a = taker e
                      ∧ FullAccounts.mintA a = mint_a e
                      ∧ FullAccounts.mintB a = mint_b e
                      ∧ FullAccounts.escrow a = fst (derive "state" (seed e))
                      ∧ FullAccounts.vault a =
                          getAssociatedTokenAddressSync (mint_a e) (FullAccounts.escrow a)
                      ∧ FullAccounts.takerAtaA a =
                          getAssociatedTokenAddressSync (mint_a e) (taker e)
                      ∧ FullAccounts.platformWallet a = PLATFORM_WALLET
                      ∧ FullAccounts.platformAtaA a =
                          getAssociatedTokenAddressSync (mint_a e) PLATFORM_WALLET))
            AccountMismatch;
      let (fee, net) := split (initializer_amount e) FEE_PERCENT in
      T1 ← transfer (FullAccounts.vault a) (FullAccounts.platformAtaA a) fee (tokens L);
      T2 ← transfer (FullAccounts.vault a) (FullAccounts.takerAtaA a) net T1;
      T3 ← close_vault (FullAccounts.vault a) T2;
      Ok {| escrows := delete (FullAccounts.escrow a) (escrows L); tokens := T3 |}
  end.

(** Modelled from the spec: section 4.5, Cancel.  Signer, then the
    confirmation flag (cancel is disallowed once confirmed), then the account
    binding; the whole deposit returns to the initializer without a fee. *)
Definition cancel (signers : list Pubkey)
    (a : CancelAccounts.t) (L : Ledger) : Result Ledger :=
  match escrows L !! CancelAccounts.escrow a with
  | None => Err (ProgramError EscrowNotFound)
  | Some e =>
      _ ← require (bool_decide (CancelAccounts.initializer a ∈ signers
                                ∧ CancelAccounts.initializer a = initializer e)) Unauthorized;
      _ ← require (negb (payment_confirmed e)) PaymentAlreadyConfirmed;
      _ ← require (bool_decide
                     (CancelAccounts.mintA a = mint_a e
                      ∧ CancelAccounts.vault a =
                          getAssociatedTokenAddressSync (mint_a e) (CancelAccounts.escrow a)
                      ∧ CancelAccounts.initializerAtaA a =
                          getAssociatedTokenAddressSync (mint_a e) (initializer e)))
            AccountMismatch;
      T1 ← transfer (CancelAccounts.vault a) (CancelAccounts.initializerAtaA a)
             (initializer_amount e) (tokens L);
      T2 ← close_vault (CancelAccounts.vault a) T1;
      Ok {| escrows := delete (CancelAccounts.escrow a) (escrows L); tokens := T2 |}
  end.

(** One transaction against the ledger: applied as a whole or rejected. *)
Definition process (tx : Transaction) (L : Ledger) : Result Ledger :=
  match instruction tx with
  | Initialize seed amount_deposited amount_requested a =>
      initialize (signers tx) seed amount_deposited amount_requested a L
  | ConfirmPayment a => confirm_payment (signers tx) a L
  | Exchange a => exchange (signers tx) a L
  | Cancel a => cancel (signers tx) a L
  end.

(** The ledger after a transaction: unchanged when it was rejected. *)
Definition apply_tx (tx : Transaction) (L : Ledger) : Ledger :=
  match process tx L with
  | Ok L' => L'
  | Err _ => L
  end.


(** The ledger after a sequence of transactions, submitted in order. *)
Definition run (txs : list Transaction) (L : Ledger) : Ledger :=
  fold_left (fun L tx => apply_tx tx L) txs L.

(** The ledger before anything was escrowed: token balances only. *)
Definition genesis (T : gmap Pubkey TokenAccount) : Ledger :=
  {| escrows := ∅; tokens := T |}.

(** ** JavaScript numbers that are not integers *)

Module Number.

(** An IEEE binary64 value. *)
Definition t : Type := spec_float.

Definition prec : Z := 53.
Definition emax : Z := 1024.

Definition zero : t := S754_zero false.

Definition isNaN (x : t) : bool :=
  match x with
  | S754_nan => true
  | _ => false
  end.

(** [x <= y]; false when either side is NaN. *)
Definition leb (x y : t) : bool := SFleb x y.

Definition of_Z (z : Z) : t := binary_normalize prec emax z 0 false.
Definition of_N (n : N) : t := of_Z (Z.of_N n).

Definition mul (x y : t) : t := SFmul prec emax x y.
Definition div (x y : t) : t := SFdiv prec emax x y.

(** [Math.pow(10, decimals)] for a count of decimals. *)
Definition pow10 (decimals : N) : t := of_N (10 ^ decimals).

(** [Math.floor]. *)
Definition floor (x : t) : t :=
  match x with
  | S754_finite s m e =>
      if (0 <=? e)%Z then x
      else of_Z (Z.div (cond_Zopp s (Zpos m)) (2 ^ (- e)))
  | _ => x
  end.

Fixpoint digits_value (acc : N) (s : string) : N :=
  match s with
  | String c s' =>
      let n := N_of_ascii c in
      if (48 <=? n) && (n <=? 57) then digits_value (10 * acc + (n - 48)) s'
      else acc
  | EmptyString => acc
  end.

(** [parseInt(str)] for a string without sign, blanks or radix prefix (the
    raw amounts the RPC node reports are such strings): the value of the
    leading decimal digits, NaN when there is none. *)
Definition parseInt (s : string) : t :=
  match s with
  | String c _ =>
      let n := N_of_ascii c in
      if (48 <=? n) && (n <=? 57) then of_N (digits_value 0 s) else S754_nan
  | EmptyString => S754_nan
  end.

End Number.

(** ** The client's view of the chain *)

(** An asynchronous call: it may change the ledger and ends with a value or
    with the error it threw. *)
Definition Chain (A : Type) : Type := Ledger -> Result A * Ledger.

#[global] Instance Chain_ret : MRet Chain := fun A x L => (Ok x, L).
#[global] Instance Chain_bind : MBind Chain := fun A B f m L =>
  match m L with
  | (Ok x, L') => f x L'
  | (Err e, L') => (Err e, L')
  end.

Definition throw {A : Type} (e : Error) : Chain A := fun L => (Err e, L).

Definition lift {A : Type} (r : Result A) : Chain A := fun L => (r, L).

(** [try { body } catch (error) { handler }]. *)
Definition try_catch {A : Type} (body : Chain A) (handler : Error -> Chain A) : Chain A :=
  fun L =>
    match body L with
    | (Ok x, L') => (Ok x, L')
    | (Err e, L') => handler e L'
    end.

Record Keypair : Type := { publicKey : Pubkey }.

Module Anchor.
(** [anchor.Program]: the program the IDL names. *)
Record Program : Type := { programId : Pubkey }.
(** [anchor.AnchorProvider]: the wallet that signs and pays. *)
Record Provider : Type := { wallet : Pubkey }.

(** [program.account.escrow.fetch(address)]: the decoded escrow account;
    throws when there is no such account. *)
Definition fetch (address : Pubkey) : Chain Escrow := fun L =>
  match escrows L !! address with
  | Some e => (Ok e, L)
  | None => (Err (AccountDoesNotExist address), L)
  end.
End Anchor.

Module Connection.
Record AccountInfo : Type := { owner : Pubkey }.

(** [connection.getAccountInfo(address)]: [null] when no account is
    there.  Escrow accounts belong to the escrow program, token accounts to
    the token program. *)
Definition getAccountInfo (address : Pubkey) : Chain (option AccountInfo) := fun L =>
  (Ok (if in_use address (escrows L) then Some {| owner := PROGRAM_ID |}
       else if in_use address (tokens L) then Some {| owner := TOKEN_PROGRAM_ID |}
       else None), L).

(** [connection.getTokenAccountBalance(address)]: the raw amount as a
    decimal string ([value.amount]); throws when the account is missing. *)
Definition getTokenAccountBalance (address : Pubkey) : Chain string := fun L =>
  match tokens L !! address with
  | Some t => (Ok (JS.toString (amount t)), L)
  | None => (Err (AccountDoesNotExist address), L)
  end.

(** [connection.confirmTransaction(signature)]. *)
Definition confirmTransaction (signature : string) : Chain unit := mret tt.
End Connection.

(** The state of an [EscrowAPI] object once [initializeProgram] has run. *)
Record EscrowAPI : Type := {
  programId : Pubkey;
  network : string;
  program : Anchor.Program;
  provider : Anchor.Provider
}.

(** [this.platformWallet], a constant set by the constructor. *)
Definition platformWallet (this : EscrowAPI) : Pubkey :=
  Key "CkjSZdXopqgh7jkPFn8MxdU7QKwfYdjQNNwbYABFpCx2".

(** What [getEscrowData] returns. *)
Module EscrowData.
Record t : Type := {
  seed : string;
  bump : N;
  initializer : string;
  mintA : string;
  mintB : string;
  initializerAmount : string;
  takerAmount : string;
  paymentConfirmed : bool
}.
End EscrowData.

(** What [escrowCreate] returns. *)
Module CreateResult.
Record t : Type := {
  success : bool;
  signature : string;
  escrow : string;
  vault : string;
  seed : N;
  amount : N;
  explorerUrl : string
}.
End CreateResult.

(** What [escrowConfirmPayment], [escrowRelease] and [escrowCancel] return. *)
Module TxResult.
Record t : Type := {
  success : bool;
  signature : string;
  explorerUrl : string
}.
End TxResult.

(** What [canReleaseEscrow] returns. *)
Module ReleaseStatus.
Record t : Type := {
  canRelease : bool;
  escrowData : option EscrowData.t;
  message : string
}.
End ReleaseStatus.

(** ** Class [EscrowAPI] ([client/README.md], the revision that starts at line 397) *)

Module Client.
Section Methods.

(** [PublicKey.prototype.toString]: the base58 text of a key. *)
Variable base58 : Pubkey -> string.
(** The signature the cluster reports for a transaction. *)
Variable signature_of : Transaction -> string.

(** [this.program.methods.<instruction>(...).accounts(...).rpc()]: the
    provider's wallet signs; the transaction is applied as a whole or
    rejected, and a rejection is thrown. *)
Definition rpc (this : EscrowAPI) (ix : Instruction) : Chain string := fun L =>
  let tx := {| signers := [Anchor.wallet (provider this)]; instruction := ix |} in
  if bool_decide (Anchor.programId (program this) = PROGRAM_ID) then
    match process tx L with
    | Ok L' => (Ok (signature_of tx), L')
    | Err e => (Err e, L)
    end
  else (Err (AccountDoesNotExist (Anchor.programId (program this))), L).

Definition explorerUrl (this : EscrowAPI) (signature : string) : string :=
  "https://explorer.solana.com/transaction/" +:+ signature +:+ "?cluster=" +:+ network this.

(** The accounts object [escrowRelease] prepares, and [escrowCreate] too,
    when the library accepts the owners they name. *)
Definition prepareAccounts (this : EscrowAPI) (sellerWallet : Keypair)
    (buyerWallet tokenMint escrow : Pubkey) : FullAccounts.t :=
  let sellerAta := getAssociatedTokenAddressSync tokenMint (publicKey sellerWallet) in
  let buyerAta := getAssociatedTokenAddressSync tokenMint buyerWallet in
  let platformAta := getAssociatedTokenAddressSync tokenMint (platformWallet this) in
  let vault := getAssociatedTokenAddressSync tokenMint escrow in
  {| FullAccounts.initializer := publicKey sellerWallet;
     FullAccounts.taker := buyerWallet;
     FullAccounts.mintA := tokenMint;
     FullAccounts.mintB := tokenMint;
     FullAccounts.initializerAtaA := sellerAta;
     FullAccounts.initializerAtaB := sellerAta;
     FullAccounts.takerAtaA := buyerAta;
     FullAccounts.takerAtaB := buyerAta;
     FullAccounts.platformAtaA := platformAta;
     FullAccounts.escrow := escrow;
     FullAccounts.vault := vault;
     FullAccounts.platformWallet := platformWallet this;
     FullAccounts.associatedTokenprogram := ASSOCIATED_TOKEN_PROGRAM_ID;
     FullAccounts.tokenProgram := TOKEN_PROGRAM_ID;
     FullAccounts.systemProgram := SYSTEM_PROGRAM_ID |}.

(** [escrowCreate(sellerWallet, buyerWallet, tokenMint, amount, seed = null)].
    [random] is the value of [Math.floor(Math.random() * 0xFFFFFFFF)] drawn
    when no seed is given; a [null] seed is [None].  The token addresses of
    the seller, the buyer and the platform are derived first, and the library
    refuses an owner off the curve. *)
Definition escrowCreate (this : EscrowAPI) (sellerWallet : Keypair)
    (buyerWallet tokenMint : Pubkey) (amount : N) (seed : option N) (random : N)
  : Chain CreateResult.t :=
  let seed :=
    match seed with
    | Some s => if s =? 0 then random else s
    | None => random
    end in
  sellerAta ← lift (splToken.getAssociatedTokenAddressSync tokenMint
                      (publicKey sellerWallet) false);
  buyerAta ← lift (splToken.getAssociatedTokenAddressSync tokenMint buyerWallet false);
  platformAta ← lift (splToken.getAssociatedTokenAddressSync tokenMint
                        (platformWallet this) false);
  seedBN ← lift (BN seed);
  seedBytes ← lift (toArrayLike_le 8 seedBN);
  let escrow :=
    fst (findProgramAddressSync [JS.Buffer_from "state"; seedBytes] (programId this)) in
  vault ← lift (splToken.getAssociatedTokenAddressSync tokenMint escrow true);
  let accounts :=
    {| FullAccounts.initializer := publicKey sellerWallet;
       FullAccounts.taker := buyerWallet;
       FullAccounts.mintA := tokenMint;
       FullAccounts.mintB := tokenMint;
       FullAccounts.initializerAtaA := sellerAta;
       FullAccounts.initializerAtaB := sellerAta;
       FullAccounts.takerAtaA := buyerAta;
       FullAccounts.takerAtaB := buyerAta;
       FullAccounts.platformAtaA := platformAta;
       FullAccounts.escrow := escrow;
       FullAccounts.vault := vault;
       FullAccounts.platformWallet := platformWallet this;
       FullAccounts.associatedTokenprogram := ASSOCIATED_TOKEN_PROGRAM_ID;
       FullAccounts.tokenProgram := TOKEN_PROGRAM_ID;
       FullAccounts.systemProgram := SYSTEM_PROGRAM_ID |} in
  argSeed ← lift (BN seed);
  argAmount ← lift (BN amount);
  argTakerAmount ← lift (BN 0);
  signature ← rpc this (Initialize argSeed argAmount argTakerAmount accounts);
  _ ← Connection.confirmTransaction signature;
  mret {| CreateResult.success := true;
          CreateResult.signature := signature;
          CreateResult.escrow := base58 escrow;
          CreateResult.vault := base58 vault;
          CreateResult.seed := seed;
          CreateResult.amount := amount;
          CreateResult.explorerUrl := explorerUrl this signature |}.

Definition txResult (this : EscrowAPI) (signature : string) : TxResult.t :=
  {| TxResult.success := true;
     TxResult.signature := signature;
     TxResult.explorerUrl := explorerUrl this signature |}.

(** The accounts object [escrowConfirmPayment] prepares. *)
Definition prepareConfirmAccounts (buyerWallet : Keypair) (escrow tokenMint : Pubkey)
  : ConfirmAccounts.t :=
  {| ConfirmAccounts.taker := publicKey buyerWallet;
     ConfirmAccounts.escrow := escrow;
     ConfirmAccounts.mintA := tokenMint |}.

(** [escrowConfirmPayment(buyerWallet, escrow, tokenMint)]. *)
Definition escrowConfirmPayment (this : EscrowAPI) (buyerWallet : Keypair)
    (escrow tokenMint : Pubkey) : Chain TxResult.t :=
  let accounts := prepareConfirmAccounts buyerWallet escrow tokenMint in
  escrowAccountInfo ← Connection.getAccountInfo escrow;
  match escrowAccountInfo with
  | None => throw (JsError "Escrow account not found. Please check the escrow address.")
  | Some info =>
      if negb (String.eqb (base58 (Connection.owner info))
                          (base58 (Anchor.programId (program this))))
      then throw (JsError ("Escrow account is owned by wrong program. Expected: "
                           +:+ base58 (Anchor.programId (program this))
                           +:+ ", Got: " +:+ base58 (Connection.owner info)))
      else
        signature ← rpc this (ConfirmPayment accounts);
        _ ← Connection.confirmTransaction signature;
        mret (txResult this signature)
  end.

(** [getEscrowData(escrow)]. *)
Definition getEscrowData (this : EscrowAPI) (escrow : Pubkey) : Chain EscrowData.t :=
  accountData ← Anchor.fetch escrow;
  mret {| EscrowData.seed := JS.toString (seed accountData);
          EscrowData.bump := bump accountData;
          EscrowData.initializer := base58 (initializer accountData);
          EscrowData.mintA := base58 (mint_a accountData);
          EscrowData.mintB := base58 (mint_b accountData);
          EscrowData.initializerAmount := JS.toString (initializer_amount accountData);
          EscrowData.takerAmount := JS.toString (taker_amount accountData);
          EscrowData.paymentConfirmed := payment_confirmed accountData |}.

(** The part of [escrowRelease] after the state check: the accounts are
    prepared and the exchange instruction is sent.  The owners named are
    taken to be on the curve, as the keys of wallets are; for another owner
    the library refuses to derive the token address
    ([splToken.getAssociatedTokenAddressSync]) and nothing is sent. *)
Definition escrowRelease_submit (this : EscrowAPI) (sellerWallet : Keypair)
    (buyerWallet tokenMint escrow : Pubkey) : Chain TxResult.t :=
  signature ← rpc this (Exchange (prepareAccounts this sellerWallet buyerWallet tokenMint escrow));
  _ ← Connection.confirmTransaction signature;
  mret (txResult this signature).

(** The state check [escrowRelease] starts with. *)
Definition escrowRelease_check (this : EscrowAPI) (escrow : Pubkey) : Chain unit :=
  escrowData ← getEscrowData this escrow;
  if negb (EscrowData.paymentConfirmed escrowData)
  then throw (JsError "Payment not confirmed yet. Buyer must confirm payment before releasing tokens.")
  else mret tt.

(** [escrowRelease(sellerWallet, buyerWallet, tokenMint, escrow)]. *)
Definition escrowRelease (this : EscrowAPI) (sellerWallet : Keypair)
    (buyerWallet tokenMint escrow : Pubkey) : Chain TxResult.t :=
  _ ← escrowRelease_check this escrow;
  escrowRelease_submit this sellerWallet buyerWallet tokenMint escrow.

(** The accounts object [escrowCancel] prepares, for a seller whose key is
    on the curve. *)
Definition prepareCancelAccounts (this : EscrowAPI) (sellerWallet : Keypair)
    (tokenMint escrow : Pubkey) : CancelAccounts.t :=
  let sellerAta := getAssociatedTokenAddressSync tokenMint (publicKey sellerWallet) in
  let platformAta := getAssociatedTokenAddressSync tokenMint (platformWallet this) in
  let vault := getAssociatedTokenAddressSync tokenMint escrow in
  {| CancelAccounts.initializer := publicKey sellerWallet;
     CancelAccounts.mintA := tokenMint;
     CancelAccounts.initializerAtaA := sellerAta;
     CancelAccounts.platformAtaA := platformAta;
     CancelAccounts.escrow := escrow;
     CancelAccounts.vault := vault;
     CancelAccounts.platformWallet := platformWallet this;
     CancelAccounts.associatedTokenprogram := ASSOCIATED_TOKEN_PROGRAM_ID;
     CancelAccounts.tokenProgram := TOKEN_PROGRAM_ID;
     CancelAccounts.systemProgram := SYSTEM_PROGRAM_ID |}.

(** [escrowCancel(sellerWallet, tokenMint, escrow)]. *)
Definition escrowCancel (this : EscrowAPI) (sellerWallet : Keypair)
    (tokenMint escrow : Pubkey) : Chain TxResult.t :=
  signature ← rpc this (Cancel (prepareCancelAccounts this sellerWallet tokenMint escrow));
  _ ← Connection.confirmTransaction signature;
  mret (txResult this signature).

(** [deriveEscrowAddress(seed)], for a seed below 2^53, whose text
    [seed.toString()] is its decimal expansion. *)
Definition deriveEscrowAddress (this : EscrowAPI) (seed : N) : Pubkey :=
  fst (findProgramAddressSync
         [JS.Buffer_from "state";
          JS.Buffer_from_hex (JS.slice_last 8 (JS.padStart 8 "0" (JS.toString seed)))]
         (Anchor.programId (program this))).

(** [canReleaseEscrow(escrow)]. *)
Definition canReleaseEscrow (this : EscrowAPI) (escrow : Pubkey) : Chain ReleaseStatus.t :=
  try_catch
    (escrowData ← getEscrowData this escrow;
     mret {| ReleaseStatus.canRelease := EscrowData.paymentConfirmed escrowData;
             ReleaseStatus.escrowData := Some escrowData;
             ReleaseStatus.message :=
               if EscrowData.paymentConfirmed escrowData
               then "Ready to release - payment confirmed"
               else "Cannot release - payment not confirmed yet" |})
    (fun error =>
       mret {| ReleaseStatus.canRelease := false;
               ReleaseStatus.escrowData := None;
               ReleaseStatus.message := "Failed to load escrow data" |}).

(** [getTokenBalance(wallet, tokenMint)]. *)
Definition getTokenBalance (this : EscrowAPI) (wallet tokenMint : Pubkey) : Chain Number.t :=
  try_catch
    (ata ← lift (splToken.getAssociatedTokenAddressSync tokenMint wallet false);
     balance ← Connection.getTokenAccountBalance ata;
     mret (Number.parseInt balance))
    (fun error => mret Number.zero).

(** [parseFloat], a builtin. *)
Variable parseFloat : string -> Number.t.

(** [parseTokenAmount(input, decimals = 6)]. *)
Definition parseTokenAmount (input : string) (decimals : N) : Result Number.t :=
  let amount := parseFloat input in
  if Number.isNaN amount || Number.leb amount Number.zero
  then Err (JsError "Invalid amount")
  else Ok (Number.floor (Number.mul amount (Number.pow10 decimals))).

End Methods.
End Client.

(** ** The other revision of [EscrowAPI] ([client/README.md], from line 1010)

    It names the signing keypair on every call ([.signers([wallet])]) and
    sends the exchange instruction without reading the escrow first. *)

Module ClientSigners.
Section Methods.

Variable signature_of : Transaction -> string.

(** [....accounts(accounts).signers([keypair]).rpc()]. *)
Definition rpc (this : EscrowAPI) (keypair : Keypair) (ix : Instruction) : Chain string :=
  fun L =>
    let tx := {| signers := [Anchor.wallet (provider this); publicKey keypair];
                 instruction := ix |} in
    if bool_decide (Anchor.programId (program this) = PROGRAM_ID) then
      match process tx L with
      | Ok L' => (Ok (signature_of tx), L')
      | Err e => (Err e, L)
      end
    else (Err (AccountDoesNotExist (Anchor.programId (program this))), L).

(** [escrowConfirmPayment(buyerWallet, escrow, tokenMint)]. *)
Definition escrowConfirmPayment (this : EscrowAPI) (buyerWallet : Keypair)
    (escrow tokenMint : Pubkey) : Chain TxResult.t :=
  let accounts := Client.prepareConfirmAccounts buyerWallet escrow tokenMint in
  signature ← rpc this buyerWallet (ConfirmPayment accounts);
  _ ← Connection.confirmTransaction signature;
  mret (Client.txResult this signature).

(** [escrowRelease(sellerWallet, buyerWallet, tokenMint, escrow)]. *)
Definition escrowRelease (this : EscrowAPI) (sellerWallet : Keypair)
    (buyerWallet tokenMint escrow : Pubkey) : Chain TxResult.t :=
  signature ← rpc this sellerWallet
                (Exchange (Client.prepareAccounts this sellerWallet buyerWallet tokenMint escrow));
  _ ← Connection.confirmTransaction signature;
  mret (Client.txResult this signature).

End Methods.
End ClientSigners.

(** ** Class [WalletAPI] ([wallet/debug-transactions.js]) *)

Module Base58.

Definition alphabet : string :=
  "123456789ABCDEFGHJKLMNPQRSTUVWXYZabcdefghijkmnopqrstuvwxyz".

Fixpoint index_from (i : N) (c : ascii) (s : string) : option N :=
  match s with
  | EmptyString => None
  | String c' s' => if Ascii.eqb c c' then Some i else index_from (i + 1) c s'
  end.

Fixpoint value (acc : N) (s : string) : option N :=
  match s with
  | EmptyString => Some acc
  | String c s' =>
      match index_from 0 c alphabet with
      | Some d => value (58 * acc + d) s'
      | None => None
      end
  end.

Fixpoint leading_ones (s : string) : N :=
  match s with
  | String "1" s' => 1 + leading_ones s'
  | _ => 0
  end.

(** Length of the byte string [bs58.decode] produces; [None] when the text
    has a character outside the alphabet. *)
Definition decoded_length (s : string) : option N :=
  match value 0 s with
  | Some v => Some (leading_ones s + (N.log2 v + 8) / 8 - (if v =? 0 then 1 else 0))
  | None => None
  end.

End Base58.

(** [new solanaWeb3.PublicKey(text)]: the text must decode to 32 bytes. *)
Definition PublicKey_new (text : string) : Result Pubkey :=
  match Base58.decoded_length text with
  | Some 32 => Ok (Key text)
  | Some _ => Err (JsError "Invalid public key input")
  | None => Err (JsError "Non-base58 character")
  end.

Module Wallet.

(** An entry of [this.tokens]. *)
Record TokenConfig : Type := {
  mint : string;
  decimals : N;
  symbol : string;
  name : string;
  icon : string
}.

(** The fields of a [WalletAPI] object that [getTokenBalance] reads. *)
Record WalletAPI : Type := {
  wallet : option Keypair;
  tokens : gmap string TokenConfig
}.

(** What [getTokenBalance] returns. *)
Module TokenBalance.
Record t : Type := {
  symbol : string;
  balance : Number.t;
  decimals : N;
  formattedBalance : string;
  mint : string;
  name : string;
  icon : string
}.
End TokenBalance.

(** [value || fallback] on strings and on numbers. *)
Definition or_string (value : option string) (fallback : string) : string :=
  match value with
  | Some (String c s) => String c s
  | _ => fallback
  end.

Definition or_number (value : option N) (fallback : N) : N :=
  match value with
  | Some n => if n =? 0 then fallback else n
  | None => fallback
  end.

Section Methods.

(** [Number.prototype.toFixed], a builtin. *)
Variable toFixed : Number.t -> N -> string.

(** [formatTokenAmount(amount, decimals)]: [toFixed] throws a RangeError
    when it is asked for more than 100 digits. *)
Definition formatTokenAmount (amount : Number.t) (decimals : N) : Result string :=
  if decimals <=? 100
  then Ok (toFixed (Number.div amount (Number.pow10 decimals)) decimals)
  else Err (JsError "toFixed() digits argument must be between 0 and 100").

(** [getTokenBalance(tokenSymbol)]. *)
Definition getTokenBalance (this : WalletAPI) (tokenSymbol : string)
  : Chain TokenBalance.t :=
  try_catch
    (wallet ← match wallet this with
              | None => throw (JsError "Wallet not connected")
              | Some w => mret w
              end;
     token ← match tokens this !! tokenSymbol with
             | None => throw (JsError ("Token " +:+ tokenSymbol +:+ " not supported"))
             | Some t => mret t
             end;
     mintKey ← lift (PublicKey_new (mint token));
     ata ← lift (splToken.getAssociatedTokenAddressSync mintKey (publicKey wallet) false);
     balance ← Connection.getTokenAccountBalance ata;
     formattedBalance ← lift (formatTokenAmount (Number.parseInt balance) (decimals token));
     mret {| TokenBalance.symbol := tokenSymbol;
             TokenBalance.balance := Number.parseInt balance;
             TokenBalance.decimals := decimals token;
             TokenBalance.formattedBalance := formattedBalance;
             TokenBalance.mint := mint token;
             TokenBalance.name := name token;
             TokenBalance.icon := icon token |})
    (fun error =>
       mret {| TokenBalance.symbol := tokenSymbol;
               TokenBalance.balance := Number.zero;
               TokenBalance.decimals := or_number (decimals <$> tokens this !! tokenSymbol) 6;
               TokenBalance.formattedBalance := "0.000000";
               TokenBalance.mint := or_string (mint <$> tokens this !! tokenSymbol) "";
               TokenBalance.name := or_string (name <$> tokens this !! tokenSymbol) "";
               TokenBalance.icon := or_string (icon <$> tokens this !! tokenSymbol) "💰" |}).

End Methods.
End Wallet.

(** ** Vocabulary of the properties *)

(** What a token account holds of an asset. *)
Definition held (asset : Pubkey) (t : TokenAccount) : N :=
  if bool_decide (mint t = asset) then amount t else 0.

(** Total amount of an asset over all token accounts. *)
Definition supply (asset : Pubkey) (T : gmap Pubkey TokenAccount) : N :=
  map_fold (fun _ t acc => held asset t + acc) 0 T.






(** Every escrow record sits at the address derived from its own seed. *)
Definition escrows_derived (L : Ledger) : Prop :=
  forall address r, escrows L !! address = Some r -> address = fst (derive "state" (seed r)).


Module Race.


Section Schedules.

(** The steps of the two calls: [escrowRelease] reads the escrow and then
    sends its transaction, [escrowCancel] sends its transaction.  The
    ledger applies one step at a time. *)
Variable check : Chain unit.
Variable submit : Chain TxResult.t.
Variable cancelCall : Chain TxResult.t.





End Schedules.



(** An active escrow [e] against which the seller's client can submit both
    calls: the client talks to the program as the initializer, names the
    escrow's own counterparty and asset, the vault holds the deposit, and
    the token accounts of the three parties exist. *)
Record ready (this : EscrowAPI) (seller : Keypair) (buyer tokenMint e : Pubkey)
    (L : Ledger) (r : Escrow) : Prop := {
  ready_escrow : escrows L !! e = Some r;
  ready_address : e = fst (derive "state" (seed r));
  ready_program : Anchor.programId (program this) = PROGRAM_ID;
  ready_wallet : Anchor.wallet (provider this) = publicKey seller;
  ready_initializer : publicKey seller = initializer r;
  ready_taker : buyer = taker r;
  ready_mint_a : tokenMint = mint_a r;
  ready_mint_b : tokenMint = mint_b r;
  ready_buyer_key : buyer <> e;
  ready_seller_key : publicKey seller <> e;
  ready_vault : exists v,
    tokens L !! getAssociatedTokenAddressSync tokenMint e = Some v
    /\ mint v = tokenMint /\ amount v = initializer_amount r;
  ready_buyer : exists t,
    tokens L !! getAssociatedTokenAddressSync tokenMint buyer = Some t
    /\ mint t = tokenMint;
  ready_platform : exists t,
    tokens L !! getAssociatedTokenAddressSync tokenMint PLATFORM_WALLET = Some t
    /\ mint t = tokenMint;
  ready_seller : exists t,
    tokens L !! getAssociatedTokenAddressSync tokenMint (publicKey seller) = Some t
    /\ mint t = tokenMint
}.

End Race.



(** ** A concrete run, used to exercise the statements *)

Module Demo.
Definition seller : Keypair := {| publicKey := Key "8EiCwjqc561w1JXe1wdhkHQXkH8tW3SxMeHwh8KT2gjj" |}.
Definition buyer : Keypair := {| publicKey := Key "DZYRaySJEXFsCRMrBRFTigX6VHVMxHLiP7BBtWUAoBCD" |}.
Definition tokenMint : Pubkey := Key "J1UjsVLRwGcpoCjexjDaHWVoj9F3TbdCpwVYNUYkww6y".
Definition base58 (k : Pubkey) : string :=
  match k with
  | Key s => s
  | _ => ""
  end.
Definition signature_of (tx : Transaction) : string := "signature".
Definition api (wallet : Keypair) : EscrowAPI :=
  {| programId := PROGRAM_ID; network := "devnet";
     program := {| Anchor.programId := PROGRAM_ID |};
     provider := {| Anchor.wallet := publicKey wallet |} |}.
Definition balances : gmap Pubkey TokenAccount :=
  <[getAssociatedTokenAddressSync tokenMint (publicKey seller) := {| mint := tokenMint; amount := 700000 |}]>
  (<[getAssociatedTokenAddressSync tokenMint (publicKey buyer) := {| mint := tokenMint; amount := 300000 |}]>
  (<[getAssociatedTokenAddressSync tokenMint PLATFORM_WALLET := {| mint := tokenMint; amount := 0 |}]> ∅)).
Definition escrow : Pubkey := fst (derive "state" 42).
Definition accounts : FullAccounts.t :=
  Client.prepareAccounts (api seller) seller (publicKey buyer) tokenMint escrow.
Definition created : Ledger :=
  snd (Client.escrowCreate base58 signature_of (api seller) seller (publicKey buyer)
         tokenMint 100000 (Some 42) 7 (genesis balances)).
Definition confirmed : Ledger :=
  snd (Client.escrowConfirmPayment base58 signature_of (api buyer) buyer escrow tokenMint
         created).
Definition create_result : CreateResult.t :=
  {| CreateResult.success := true;
     CreateResult.signature := "signature";
     CreateResult.escrow := "";
     CreateResult.vault := "";
     CreateResult.seed := 42;
     CreateResult.amount := 100000;
     CreateResult.explorerUrl :=
       "https://explorer.solana.com/transaction/signature?cluster=devnet" |}.
Definition tx_exchange : Transaction :=
  {| signers := [publicKey seller]; instruction := Exchange accounts |}.
Definition confirmed_record : Escrow :=
  {| seed := 42; bump := 255; initializer := publicKey seller; taker := publicKey buyer;
     mint_a := tokenMint; mint_b := tokenMint; initializer_amount := 100000;
     taker_amount := 0; payment_confirmed := true |}.
End Demo.

(** ** [WalletAPI]: the base58 helpers ([wallet/debug-transactions.js]) *)

Module WalletKeys.

Definition alphabet : string :=
  "123456789ABCDEFGHJKLMNPQRSTUVWXYZabcdefghijkmnopqrstuvwxyz".

(** [alphabet.indexOf(char)]; -1 is [None]. *)
Definition indexOf (char : ascii) : option N := Base58.index_from 0 char alphabet.

(** The [for] loop of [base58ToUint8Array], given the characters from the
    last one to the first. *)
Fixpoint decode_loop (chars : list ascii) (decoded multi : N) : Result N :=
  match chars with
  | [] => Ok decoded
  | char :: chars' =>
      match indexOf char with
      | None => Err (JsError "Invalid base58 character")
      | Some index => decode_loop chars' (decoded + index * multi) (multi * 58)
      end
  end.

(** [while (decoded > 0n) { bytes.unshift(Number(decoded & 255n)); decoded >>= 8n; }].
    Every turn removes eight bits of [decoded], so its bit length bounds the
    number of turns and is given as fuel. *)
Fixpoint unshift_loop (fuel : nat) (decoded : N) (bytes : list N) : list N :=
  match fuel with
  | O => bytes
  | S fuel' =>
      if 0 <? decoded
      then unshift_loop fuel' (N.shiftr decoded 8) (N.land decoded 255 :: bytes)
      else bytes
  end.

(** [base58ToUint8Array(base58)].  The text is read character by character;
    a character that is not ASCII is outside the alphabet, as each of its
    bytes is here. *)
Definition base58ToUint8Array (base58 : string) : Result (list N) :=
  decoded ← decode_loop (rev (String.list_ascii_of_string base58)) 0 1;
  mret (unshift_loop (N.size_nat decoded) decoded []).

(** The [for] loop of [uint8ArrayToBase58], given the bytes from the last
    one to the first. *)
Fixpoint num_loop (bytes : list N) (num multi : N) : N :=
  match bytes with
  | [] => num
  | byte :: bytes' => num_loop bytes' (num + byte * multi) (multi * 256)
  end.

(** [alphabet[k] + result]. *)
Definition prepend (k : N) (result : string) : string :=
  match String.get (N.to_nat k) alphabet with
  | Some c => String c result
  | None => "undefined" +:+ result
  end.

(** [while (num > 0n) { result = alphabet[Number(num % 58n)] + result; num /= 58n; }],
    with the bit length of [num] as fuel. *)
Fixpoint prepend_loop (fuel : nat) (num : N) (result : string) : string :=
  match fuel with
  | O => result
  | S fuel' =>
      if 0 <? num
      then prepend_loop fuel' (num / 58) (prepend (num mod 58) result)
      else result
  end.

(** [uint8ArrayToBase58(uint8Array)]. *)
Definition uint8ArrayToBase58 (uint8Array : list N) : string :=
  let num := num_loop (rev uint8Array) 0 1 in
  prepend_loop (N.size_nat num) num "".

(** [this.keypair], as far as [getPrivateKey] reads it. *)
Record Keypair : Type := { secretKey : list N }.

(** [getPrivateKey()]; [keypair] is [this.keypair], [None] for [null]. *)
Definition getPrivateKey (keypair : option Keypair) : Result string :=
  match keypair with
  | None => Err (JsError "No wallet loaded")
  | Some k => Ok (uint8ArrayToBase58 (secretKey k))
  end.

End WalletKeys.

(** ** [WalletAPI]: registering tokens ([wallet/debug-transactions.js]) *)

Module WalletTokens.

(** [addToken(symbol, mint, decimals, name, icon = '💰')]; a missing [icon]
    is [None]. *)
Definition addToken (this : Wallet.WalletAPI) (symbol mint : string) (decimals : N)
    (name : string) (icon : option string) : Wallet.WalletAPI :=
  {| Wallet.wallet := Wallet.wallet this;
     Wallet.tokens :=
       <[symbol := {| Wallet.mint := mint;
                      Wallet.decimals := decimals;
                      Wallet.symbol := symbol;
                      Wallet.name := name;
                      Wallet.icon := default "💰" icon |}]> (Wallet.tokens this) |}.

(** [getSupportedTokens()]. *)
Definition getSupportedTokens (this : Wallet.WalletAPI) : gmap string Wallet.TokenConfig :=
  Wallet.tokens this.

End WalletTokens.

(** ** The transaction analyzer ([wallet/debug-transactions.js], lines 1 to 183) *)

Module Analyzer.

(** An entry of [meta.preTokenBalances] or [meta.postTokenBalances].
    [owner] is [None] when the entry has no owner field, [uiAmount] is
    [uiTokenAmount?.uiAmount], [None] when it is missing or [null]. *)
Record TokenBalance : Type := {
  accountIndex : N;
  mint : string;
  owner : option string;
  uiAmount : option Number.t
}.

(** [getOtherAccountAddress(transaction, walletPubkey, ataOwner)];
    [accountKeys] lists [account.toString()] for the entries of
    [transaction.message.accountKeys]. *)
Fixpoint getOtherAccountAddress (accountKeys : list string)
    (walletPubkey ataOwner : string) : string :=
  match accountKeys with
  | [] => ataOwner
  | accountStr :: accountKeys' =>
      if negb (String.eqb accountStr walletPubkey) && negb (String.eqb accountStr ataOwner)
      then accountStr
      else getOtherAccountAddress accountKeys' walletPubkey ataOwner
  end.

(** [value || 0] on a number that may be missing: 0, NaN and a missing value
    give 0. *)
Definition or_zero (value : option Number.t) : Number.t :=
  match value with
  | Some (S754_finite s m e) => S754_finite s m e
  | Some (S754_infinity s) => S754_infinity s
  | _ => Number.zero
  end.

(** The literal [0.000001]. *)
Definition threshold : Number.t := Number.div (Number.of_N 1) (Number.of_N 1000000).

Definition sub (x y : Number.t) : Number.t := SFsub Number.prec Number.emax x y.

(** [owner === walletPubkey]. *)
Definition owner_is (owner : option string) (walletPubkey : string) : bool :=
  match owner with
  | Some o => String.eqb o walletPubkey
  | None => false
  end.

Section Helpers.

(** [parseFloat] applied to a number, a builtin. *)
Variable parseFloat : Number.t -> Number.t.

(** [meta.postTokenBalances.find(post => post.accountIndex ===
    preBalance.accountIndex && post.mint === preBalance.mint)]. *)
Definition find_post (postTokenBalances : list TokenBalance) (preBalance : TokenBalance)
  : option TokenBalance :=
  List.find (fun post => (accountIndex post =? accountIndex preBalance)
                         && String.eqb (mint post) (mint preBalance))
            postTokenBalances.

(** [postAmount - preAmount]. *)
Definition change (preBalance postBalance : TokenBalance) : Number.t :=
  let preAmount := parseFloat (or_zero (uiAmount preBalance)) in
  let postAmount := parseFloat (or_zero (uiAmount postBalance)) in
  sub postAmount preAmount.

(** The loop of [getDestinationATAOwner] over [meta.preTokenBalances]:
    [Some owner] when it returns from inside the loop, [None] when it runs to
    the end. *)
Fixpoint destination_loop (preTokenBalances postTokenBalances : list TokenBalance)
    (mintAddress walletPubkey : string) : option (option string) :=
  match preTokenBalances with
  | [] => None
  | preBalance :: preTokenBalances' =>
      if owner_is (owner preBalance) walletPubkey
      then destination_loop preTokenBalances' postTokenBalances mintAddress walletPubkey
      else if negb (String.eqb (mint preBalance) mintAddress)
      then destination_loop preTokenBalances' postTokenBalances mintAddress walletPubkey
      else
        match find_post postTokenBalances preBalance with
        | Some postBalance =>
            if SFltb threshold (change preBalance postBalance)
            then Some (owner preBalance)
            else destination_loop preTokenBalances' postTokenBalances mintAddress walletPubkey
        | None => destination_loop preTokenBalances' postTokenBalances mintAddress walletPubkey
        end
  end.

(** [getDestinationATAOwner(transaction, meta, mintAddress, walletPubkey)];
    the result is [None] when the function returns [undefined]. *)
Definition getDestinationATAOwner (accountKeys : list string)
    (preTokenBalances postTokenBalances : option (list TokenBalance))
    (mintAddress walletPubkey : string) : option string :=
  let fallback := Some (getOtherAccountAddress accountKeys walletPubkey walletPubkey) in
  match preTokenBalances, postTokenBalances with
  | Some pre, Some post =>
      match destination_loop pre post mintAddress walletPubkey with
      | Some owner => owner
      | None => fallback
      end
  | _, _ => fallback
  end.

End Helpers.
End Analyzer.

(** A list of bytes without its leading zero bytes. *)
Fixpoint strip_zeros (l : list N) : list N :=
  match l with
  | 0 :: l' => strip_zeros l'
  | _ => l
  end.

(** A string without its leading characters ["1"]. *)
Fixpoint strip_ones (s : string) : string :=
  match s with
  | String "1" s' => strip_ones s'
  | _ => s
  end.

(** The number a list of digits writes in base [b], most significant digit
    first, continuing from [acc]. *)
Definition be_value (b : N) (acc : N) (digits : list N) : N :=
  fold_left (fun a d => a * b + d) digits acc.

(** The digits a [while (n > 0)] loop pushes in front of [acc], in base [b]. *)
Fixpoint digits_loop (b : N) (fuel : nat) (n : N) (acc : list N) : list N :=
  match fuel with
  | O => acc
  | S fuel' => if 0 <? n then digits_loop b fuel' (n / b) (n mod b :: acc) else acc
  end.

(** The text whose characters are the alphabet's at the given digits. *)
Definition of_digits (digits : list N) : string :=
  fold_right WalletKeys.prepend "" digits.

Definition in_alphabet (c : ascii) : Prop :=
  In c (String.list_ascii_of_string WalletKeys.alphabet).

(** The [k] low decimal digits of [n] as text, the highest first. *)
Fixpoint dec_digits (k : nat) (n : N) : string :=
  match k with
  | O => ""
  | S k' => dec_digits k' (n / 10) +:+ String (pretty_N_char (n mod 10)) ""
  end.

(** * Properties *)

Lemma pair_fst_snd {A B : Type} (p : A * B) (a : A) : fst p = a -> p = (a, snd p).
Proof. intros <-. destruct p; reflexivity. Qed.

(** ** FeeSplitter *)

Lemma split_fee_le (gross fee_percent : N) :
  fee_percent <= 100 -> fst (split gross fee_percent) <= gross.
Proof.
  intros Hp. unfold split; simpl.
  apply N.Div0.div_le_upper_bound. nia.
Qed.

Lemma split_sum (gross fee_percent : N) :
  fee_percent <= 100 ->
  fst (split gross fee_percent) + snd (split gross fee_percent) = gross.
Proof.
  intros Hp. pose proof (split_fee_le gross fee_percent Hp) as Hle.
  unfold split in *; simpl in *. lia.
Qed.

(** ** Token supply *)

Lemma supply_insert_fresh asset k t (T : gmap Pubkey TokenAccount) :
  T !! k = None -> supply asset (<[k := t]> T) = held asset t + supply asset T.
Proof.
  intros Hk. unfold supply.
  rewrite map_fold_insert_L; [reflexivity | intros; lia | exact Hk].
Qed.

Lemma supply_delete asset k t (T : gmap Pubkey TokenAccount) :
  T !! k = Some t -> supply asset T = held asset t + supply asset (delete k T).
Proof.
  intros Hk. unfold supply.
  rewrite (map_fold_delete_L _ _ k t T); [reflexivity | intros; lia | exact Hk].
Qed.

Lemma supply_insert asset k t t' (T : gmap Pubkey TokenAccount) :
  T !! k = Some t ->
  supply asset (<[k := t']> T) + held asset t = supply asset T + held asset t'.
Proof.
  intros Hk.
  rewrite (supply_delete asset k t T Hk).
  rewrite <- (insert_delete_eq T k t').
  rewrite supply_insert_fresh by apply lookup_delete_eq.
  lia.
Qed.

Lemma held_set_amount asset n t :
  held asset (set_amount n t) = if bool_decide (mint t = asset) then n else 0.
Proof. reflexivity. Qed.

(** ** Inversion of the Result monad *)

Lemma bind_Ok {A B : Type} (m : Result A) (f : A -> Result B) (y : B) :
  m ≫= f = Ok y -> exists x, m = Ok x /\ f x = Ok y.
Proof. destruct m as [x | e]; simpl; [eauto | discriminate]. Qed.

Lemma require_Ok (cond : bool) (code : EscrowError) (u : unit) :
  require cond code = Ok u -> cond = true.
Proof. destruct cond; simpl; [reflexivity | discriminate]. Qed.

Ltac inv_bind H :=
  let x := fresh "x" in
  let Hx := fresh "Hreq" in
  apply bind_Ok in H; destruct H as (x & Hx & H);
  try (apply require_Ok in Hx).

(** A transfer keeps the supply of every asset. *)
Lemma transfer_supply asset src dst n (T T' : gmap Pubkey TokenAccount) :
  transfer src dst n T = Ok T' -> supply asset T' = supply asset T.
Proof.
  unfold transfer. intros H.
  destruct (T !! src) as [s|] eqn:Hs; [|discriminate].
  destruct (T !! dst) as [d|] eqn:Hd; [|discriminate].
  inv_bind H. inv_bind H.
  apply bool_decide_eq_true in Hreq. apply N.leb_le in Hreq0.
  destruct (<[src:=_]> T !! dst) as [d1|] eqn:Hd1; [|discriminate].
  injection H as <-.
  pose proof (supply_insert asset src s (set_amount (amount s - n) s) T Hs) as E1.
  pose proof (supply_insert asset dst d1 (set_amount (amount d1 + n) d1) _ Hd1) as E2.
  rewrite !held_set_amount in *.
  assert (Hm : mint d1 = mint s).
  { destruct (decide (src = dst)) as [->|Hne].
    - rewrite lookup_insert_eq in Hd1. injection Hd1 as <-. reflexivity.
    - rewrite lookup_insert_ne in Hd1 by done. congruence. }
  unfold held in *. rewrite Hm in *.
  destruct (bool_decide (mint s = asset)); lia.
Qed.

Lemma close_vault_Ok vault (T T' : gmap Pubkey TokenAccount) :
  close_vault vault T = Ok T' ->
  exists v, T !! vault = Some v /\ amount v = 0 /\ T' = delete vault T.
Proof.
  unfold close_vault. intros H.
  destruct (T !! vault) as [v|] eqn:Hv; [|discriminate].
  inv_bind H. apply N.eqb_eq in Hreq. injection H as <-. eauto.
Qed.

Lemma close_vault_supply asset vault (T T' : gmap Pubkey TokenAccount) :
  close_vault vault T = Ok T' -> supply asset T' = supply asset T.
Proof.
  intros H. apply close_vault_Ok in H as (v & Hv & Hz & ->).
  rewrite (supply_delete asset vault v T Hv).
  unfold held. rewrite Hz. destruct (bool_decide _); lia.
Qed.

(** ** What a successful instruction did *)

Lemma in_use_false {V : Type} (address : Pubkey) (m : gmap Pubkey V) :
  in_use address m = false -> m !! address = None.
Proof. unfold in_use. destruct (m !! address); [discriminate | reflexivity]. Qed.

Lemma initialize_Ok sigs seed0 dep req a L L' :
  initialize sigs seed0 dep req a L = Ok L' ->
  let address := fst (derive "state" seed0) in
  0 < dep
  /\ FullAccounts.initializer a ∈ sigs
  /\ FullAccounts.escrow a = address
  /\ escrows L !! address = None
  /\ (exists r, escrows L' = <[address := r]> (escrows L)
                /\ seed r = seed0 /\ initializer r = FullAccounts.initializer a
                /\ taker r = FullAccounts.taker a
                /\ initializer_amount r = dep /\ payment_confirmed r = false)
  /\ (forall asset, supply asset (tokens L') = supply asset (tokens L)).
Proof.
  unfold initialize. intros H. simpl.
  inv_bind H. inv_bind H. inv_bind H. inv_bind H.
  apply bool_decide_eq_true in Hreq. apply N.ltb_lt in Hreq0.
  apply bool_decide_eq_true in Hreq1 as (Hesc & Hvault & Hata).
  apply andb_true_iff in Hreq2 as [Hfree Hvfree].
  apply negb_true_iff, in_use_false in Hfree.
  apply negb_true_iff, in_use_false in Hvfree.
  destruct (tokens L !! FullAccounts.initializerAtaA a) as [s|] eqn:Hs; [|discriminate].
  inv_bind H. inv_bind H.
  apply bool_decide_eq_true in Hreq1. apply N.leb_le in Hreq2.
  injection H as <-. simpl.
  repeat split; try assumption.
  - eexists. split; [reflexivity|]. simpl. auto.
  - intros asset.
    assert (Hne : FullAccounts.initializerAtaA a
                  ≠ AssociatedToken (FullAccounts.mintA a)
                      (ProgramAddress [JS.Buffer_from "state"; JS.le_bytes 8 seed0] PROGRAM_ID)).
    { intros Heq. rewrite Heq in Hs.
      unfold getAssociatedTokenAddressSync in Hvfree. congruence. }
    unfold getAssociatedTokenAddressSync.
    rewrite supply_insert_fresh by (rewrite lookup_insert_ne by done; exact Hvfree).
    pose proof (supply_insert asset _ s (set_amount (amount s - dep) s) _ Hs) as E.
    rewrite held_set_amount in E. unfold held in *. simpl.
    rewrite Hreq1 in *.
    destruct (bool_decide (FullAccounts.mintA a = asset)); lia.
Qed.

Lemma confirm_payment_Ok sigs a L L' :
  confirm_payment sigs a L = Ok L' ->
  exists r, escrows L !! ConfirmAccounts.escrow a = Some r
            /\ ConfirmAccounts.taker a ∈ sigs
            /\ ConfirmAccounts.taker a = taker r
            /\ payment_confirmed r = false
            /\ L' = set_escrows (insert (ConfirmAccounts.escrow a)
                                   (set_payment_confirmed true r)) L.
Proof.
  unfold confirm_payment. intros H.
  destruct (escrows L !! ConfirmAccounts.escrow a) as [r|] eqn:Hr; [|discriminate].
  inv_bind H. inv_bind H.
  apply bool_decide_eq_true in Hreq as [Hin Htk].
  apply negb_true_iff in Hreq0. injection H as <-.
  exists r. auto.
Qed.

Lemma exchange_Ok sigs a L L' :
  exchange sigs a L = Ok L' ->
  exists r, escrows L !! FullAccounts.escrow a = Some r
            /\ FullAccounts.initializer a ∈ sigs
            /\ FullAccounts.initializer a = initializer r
            /\ payment_confirmed r = true
            /\ escrows L' = delete (FullAccounts.escrow a) (escrows L)
            /\ tokens L' !! FullAccounts.vault a = None
            /\ (forall asset, supply asset (tokens L') = supply asset (tokens L)).
Proof.
  unfold exchange. intros H.
  destruct (escrows L !! FullAccounts.escrow a) as [r|] eqn:Hr; [|discriminate].
  inv_bind H. inv_bind H. inv_bind H.
  apply bool_decide_eq_true in Hreq as [Hin Hini].
  destruct (split (initializer_amount r) FEE_PERCENT) as [fee net].
  apply bind_Ok in H as (T1 & HT1 & H).
  apply bind_Ok in H as (T2 & HT2 & H).
  apply bind_Ok in H as (T3 & HT3 & H).
  injection H as <-. simpl.
  exists r. repeat split; try assumption.
  - apply close_vault_Ok in HT3 as (v & _ & _ & ->). apply lookup_delete_eq.
  - intros asset.
    rewrite (close_vault_supply asset _ _ _ HT3).
    rewrite (transfer_supply asset _ _ _ _ _ HT2).
    apply (transfer_supply asset _ _ _ _ _ HT1).
Qed.

Lemma cancel_Ok sigs a L L' :
  cancel sigs a L = Ok L' ->
  exists r, escrows L !! CancelAccounts.escrow a = Some r
            /\ CancelAccounts.initializer a ∈ sigs
            /\ CancelAccounts.initializer a = initializer r
            /\ payment_confirmed r = false
            /\ escrows L' = delete (CancelAccounts.escrow a) (escrows L)
            /\ tokens L' !! CancelAccounts.vault a = None
            /\ (forall asset, supply asset (tokens L') = supply asset (tokens L)).
Proof.
  unfold cancel. intros H.
  destruct (escrows L !! CancelAccounts.escrow a) as [r|] eqn:Hr; [|discriminate].
  inv_bind H. inv_bind H. inv_bind H.
  apply bool_decide_eq_true in Hreq as [Hin Hini].
  apply negb_true_iff in Hreq0.
  apply bind_Ok in H as (T1 & HT1 & H).
  apply bind_Ok in H as (T2 & HT2 & H).
  injection H as <-. simpl.
  exists r. repeat split; try assumption.
  - apply close_vault_Ok in HT2 as (v & _ & _ & ->). apply lookup_delete_eq.
  - intros asset.
    rewrite (close_vault_supply asset _ _ _ HT2).
    apply (transfer_supply asset _ _ _ _ _ HT1).
Qed.

(** Every transaction keeps the supply of every asset, applied or not. *)
Lemma apply_tx_supply asset tx L :
  supply asset (tokens (apply_tx tx L)) = supply asset (tokens L).
Proof.
  unfold apply_tx. destruct (process tx L) as [L'|err] eqn:H; [|reflexivity].
  unfold process in H. destruct (instruction tx) as [s d q a | a | a | a].
  - apply initialize_Ok in H. simpl in H. apply H.
  - apply confirm_payment_Ok in H as (r & _ & _ & _ & _ & ->). reflexivity.
  - apply exchange_Ok in H as (r & _ & _ & _ & _ & _ & _ & Hs). apply Hs.
  - apply cancel_Ok in H as (r & _ & _ & _ & _ & _ & _ & Hs). apply Hs.
Qed.


(** ** Runs *)





(** ** The client's calls, unfolded *)

Lemma Chain_bind_Ok {A B : Type} (m : Chain A) (f : A -> Chain B) L y L' :
  (m ≫= f) L = (Ok y, L') ->
  exists x L1, m L = (Ok x, L1) /\ f x L1 = (Ok y, L').
Proof.
  unfold mbind, Chain_bind. destruct (m L) as [[x|e] L1]; [eauto | discriminate].
Qed.

Lemma Client_rpc_Ok sig this ix L s L' :
  Client.rpc sig this ix L = (Ok s, L') ->
  Anchor.programId (program this) = PROGRAM_ID
  /\ process {| signers := [Anchor.wallet (provider this)]; instruction := ix |} L = Ok L'.
Proof.
  unfold Client.rpc. intros H. case_bool_decide; [|discriminate].
  destruct (process _ L) as [L1|err]; [|discriminate].
  injection H as _ <-. auto.
Qed.


Lemma getEscrowData_Some b58 this e L r :
  escrows L !! e = Some r ->
  Client.getEscrowData b58 this e L =
    (Ok {| EscrowData.seed := JS.toString (seed r);
           EscrowData.bump := bump r;
           EscrowData.initializer := b58 (initializer r);
           EscrowData.mintA := b58 (mint_a r);
           EscrowData.mintB := b58 (mint_b r);
           EscrowData.initializerAmount := JS.toString (initializer_amount r);
           EscrowData.takerAmount := JS.toString (taker_amount r);
           EscrowData.paymentConfirmed := payment_confirmed r |}, L).
Proof.
  intros Hr. unfold Client.getEscrowData, mbind, Chain_bind, Anchor.fetch.
  rewrite Hr. reflexivity.
Qed.

Lemma getEscrowData_None b58 this e L :
  escrows L !! e = None ->
  Client.getEscrowData b58 this e L = (Err (AccountDoesNotExist e), L).
Proof.
  intros Hr. unfold Client.getEscrowData, mbind, Chain_bind, Anchor.fetch.
  rewrite Hr. reflexivity.
Qed.

Lemma Client_escrowRelease_Ok b58 sig this seller buyer tokenMint e L res L' :
  Client.escrowRelease b58 sig this seller buyer tokenMint e L = (Ok res, L') ->
  exchange [Anchor.wallet (provider this)]
           (Client.prepareAccounts this seller buyer tokenMint e) L = Ok L'.
Proof.
  unfold Client.escrowRelease. intros H.
  apply Chain_bind_Ok in H as ([] & L1 & Hcheck & H).
  assert (L1 = L) as ->.
  { unfold Client.escrowRelease_check in Hcheck.
    apply Chain_bind_Ok in Hcheck as (d & L2 & Hd & Hcheck).
    destruct (escrows L !! e) as [r|] eqn:Hr.
    - rewrite (getEscrowData_Some _ _ _ _ _ Hr) in Hd. injection Hd as _ <-.
      destruct (negb _); [discriminate|]. injection Hcheck as <-. reflexivity.
    - rewrite (getEscrowData_None _ _ _ _ Hr) in Hd. discriminate. }
  unfold Client.escrowRelease_submit in H.
  apply Chain_bind_Ok in H as (s & L2 & Hrpc & H).
  apply Client_rpc_Ok in Hrpc as [_ Hp].
  apply Chain_bind_Ok in H as ([] & L3 & Hconf & H).
  injection Hconf as <-. injection H as _ <-. exact Hp.
Qed.


(** ** Release needs a confirmation *)

Lemma exchange_not_confirmed sigs a L r :
  escrows L !! FullAccounts.escrow a = Some r -> payment_confirmed r = false ->
  exists code, exchange sigs a L = Err (ProgramError code)
               /\ (FullAccounts.initializer a ∈ sigs ->
                   FullAccounts.initializer a = initializer r ->
                   code = PaymentNotConfirmed).
Proof.
  intros Hr Hc. unfold exchange. rewrite Hr.
  destruct (bool_decide (FullAccounts.initializer a ∈ sigs
                         ∧ FullAccounts.initializer a = initializer r)) eqn:Hauth.
  - rewrite Hc. eexists. split; [reflexivity|]. reflexivity.
  - eexists. split; [reflexivity|]. intros Hin Hini.
    apply bool_decide_eq_false in Hauth. exfalso. apply Hauth. auto.
Qed.





(** ** Cancel and confirmation *)


Lemma Client_escrowCancel_Ok sig this seller tokenMint e L res L' :
  Client.escrowCancel sig this seller tokenMint e L = (Ok res, L') ->
  cancel [Anchor.wallet (provider this)] (Client.prepareCancelAccounts this seller tokenMint e) L = Ok L'.
Proof.
  unfold Client.escrowCancel. intros H.
  apply Chain_bind_Ok in H as (s & L2 & Hrpc & H).
  apply Client_rpc_Ok in Hrpc as [_ Hp].
  apply Chain_bind_Ok in H as ([] & L3 & Hconf & H).
  injection Hconf as <-. injection H as _ <-. exact Hp.
Qed.




Lemma Client_escrowConfirmPayment_Ok b58 sig this buyer e tokenMint L res L' :
  Client.escrowConfirmPayment b58 sig this buyer e tokenMint L = (Ok res, L') ->
  Anchor.programId (program this) = PROGRAM_ID
  /\ confirm_payment [Anchor.wallet (provider this)] (Client.prepareConfirmAccounts buyer e tokenMint) L = Ok L'.
Proof.
  unfold Client.escrowConfirmPayment. intros H.
  apply Chain_bind_Ok in H as (info & L1 & Hinfo & H).
  injection Hinfo as _ <-.
  destruct info as [info|]; [|discriminate].
  destruct (negb _); [discriminate|].
  apply Chain_bind_Ok in H as (s & L2 & Hrpc & H).
  apply Client_rpc_Ok in Hrpc as [Hid Hp].
  apply Chain_bind_Ok in H as ([] & L3 & Hconf & H).
  injection Hconf as <-. injection H as _ <-. auto.
Qed.




(** ** Address derivation in the client *)

Lemma le_bytes_length (len : nat) (n : N) : length (JS.le_bytes len n) = len.
Proof. revert n. induction len as [|len IH]; intros n; simpl; [reflexivity | by rewrite IH]. Qed.

Lemma Buffer_from_hex_length (s : string) :
  (2 * length (JS.Buffer_from_hex s) <= String.length s)%nat.
Proof.
  remember (String.length s) as n eqn:Hn. revert s Hn.
  induction n as [n IH] using lt_wf_ind. intros s ->.
  destruct s as [|a [|b s']]; simpl; try lia.
  destruct (JS.hex_digit a), (JS.hex_digit b); simpl; try lia.
  specialize (IH (String.length s') ltac:(simpl; lia) s' eq_refl). lia.
Qed.

Lemma drop_chars_length (n : nat) (s : string) :
  String.length (JS.drop_chars n s) = (String.length s - n)%nat.
Proof.
  revert s. induction n as [|n IH]; intros s; simpl; [lia|].
  destruct s as [|c s']; simpl; [reflexivity | apply IH].
Qed.

Lemma slice_last_length (k : nat) (s : string) :
  (String.length (JS.slice_last k s) <= k)%nat.
Proof. unfold JS.slice_last. rewrite drop_chars_length. lia. Qed.

(** The seed bytes [deriveEscrowAddress] feeds the deriver are at most four,
    never the eight little-endian bytes the escrow was created under. *)
Lemma deriveEscrowAddress_seed_bytes (s0 s1 : N) :
  JS.Buffer_from_hex (JS.slice_last 8 (JS.padStart 8 "0" (JS.toString s0)))
  <> JS.le_bytes 8 s1.
Proof.
  intros Heq. apply (f_equal length) in Heq. rewrite le_bytes_length in Heq.
  pose proof (Buffer_from_hex_length
                (JS.slice_last 8 (JS.padStart 8 "0" (JS.toString s0)))) as H1.
  pose proof (slice_last_length 8 (JS.padStart 8 "0" (JS.toString s0))) as H2.
  lia.
Qed.

Lemma deriveEscrowAddress_not_derived (this : EscrowAPI) (s0 s1 : N) (p : Pubkey) :
  Client.deriveEscrowAddress this s0
  <> ProgramAddress [JS.Buffer_from "state"; JS.le_bytes 8 s1] p.
Proof.
  unfold Client.deriveEscrowAddress, findProgramAddressSync, fst. intros Heq.
  injection Heq as Hbytes _. exact (deriveEscrowAddress_seed_bytes s0 s1 Hbytes).
Qed.

Lemma apply_tx_escrows_derived tx L :
  escrows_derived L -> escrows_derived (apply_tx tx L).
Proof.
  intros Hinv. unfold apply_tx.
  destruct (process tx L) as [L'|err] eqn:H; [|exact Hinv].
  unfold process in H. intros address r Hr.
  destruct (instruction tx) as [s d q a | a | a | a].
  - apply initialize_Ok in H. simpl in H.
    destruct H as (_ & _ & _ & _ & (r0 & HL' & Hseed & _) & _).
    rewrite HL' in Hr.
    destruct (decide (ProgramAddress [JS.Buffer_from "state"; JS.le_bytes 8 s] PROGRAM_ID
                      = address)) as [<-|Hne].
    + rewrite lookup_insert_eq in Hr. injection Hr as <-. rewrite Hseed. reflexivity.
    + rewrite lookup_insert_ne in Hr by done. apply Hinv, Hr.
  - apply confirm_payment_Ok in H as (r0 & Hr0 & _ & _ & _ & ->). simpl in Hr.
    destruct (decide (ConfirmAccounts.escrow a = address)) as [<-|Hne].
    + rewrite lookup_insert_eq in Hr. injection Hr as <-. apply (Hinv _ _ Hr0).
    + rewrite lookup_insert_ne in Hr by done. apply Hinv, Hr.
  - apply exchange_Ok in H as (r0 & _ & _ & _ & _ & HL' & _). rewrite HL' in Hr.
    apply lookup_delete_Some in Hr as [_ Hr]. apply Hinv, Hr.
  - apply cancel_Ok in H as (r0 & _ & _ & _ & _ & HL' & _). rewrite HL' in Hr.
    apply lookup_delete_Some in Hr as [_ Hr]. apply Hinv, Hr.
Qed.

Lemma run_escrows_derived txs L :
  escrows_derived L -> escrows_derived (run txs L).
Proof.
  revert L. induction txs as [|tx txs IH]; intros L Hinv; [exact Hinv|].
  simpl. apply IH, apply_tx_escrows_derived, Hinv.
Qed.

Lemma lift_Ok {A : Type} (r : Result A) L x L' :
  lift r L = (Ok x, L') -> r = Ok x /\ L' = L.
Proof. unfold lift. intros H. injection H as -> ->. auto. Qed.

Lemma splToken_Ok (mint owner : Pubkey) (allowOwnerOffCurve : bool) (address : Pubkey) :
  splToken.getAssociatedTokenAddressSync mint owner allowOwnerOffCurve = Ok address ->
  address = getAssociatedTokenAddressSync mint owner
  /\ (allowOwnerOffCurve = true \/ isOnCurve owner = true).
Proof.
  unfold splToken.getAssociatedTokenAddressSync.
  destruct allowOwnerOffCurve, (isOnCurve owner); simpl; intros H;
    first [discriminate H | injection H as <-; auto].
Qed.

Lemma splToken_on_curve (mint owner : Pubkey) :
  isOnCurve owner = true ->
  splToken.getAssociatedTokenAddressSync mint owner false
  = Ok (getAssociatedTokenAddressSync mint owner).
Proof. unfold splToken.getAssociatedTokenAddressSync. intros ->. reflexivity. Qed.

Lemma splToken_off_curve (mint owner : Pubkey) :
  isOnCurve owner = false ->
  splToken.getAssociatedTokenAddressSync mint owner false = Err TokenOwnerOffCurveError.
Proof. unfold splToken.getAssociatedTokenAddressSync. intros ->. reflexivity. Qed.

Lemma BN_Ok (n x : N) : BN n = Ok x -> x = n /\ n < 2 ^ 53.
Proof.
  unfold BN. destruct (n <? 2 ^ 53) eqn:Hlt; [|discriminate].
  intros H. injection H as <-. apply N.ltb_lt in Hlt. auto.
Qed.

Lemma toArrayLike_le_Ok (len : nat) (n : N) (bytes : list N) :
  toArrayLike_le len n = Ok bytes -> bytes = JS.le_bytes len n.
Proof.
  unfold toArrayLike_le. destruct (n <? _); [|discriminate]. intros H. by injection H.
Qed.

Lemma Client_escrowCreate_Ok b58 sig this seller buyer tokenMint amt seed0 rnd L res L' :
  Client.escrowCreate b58 sig this seller buyer tokenMint amt seed0 rnd L = (Ok res, L') ->
  let s := CreateResult.seed res in
  let created := ProgramAddress [JS.Buffer_from "state"; JS.le_bytes 8 s] (programId this) in
  s = match seed0 with Some s0 => if s0 =? 0 then rnd else s0 | None => rnd end
  /\ CreateResult.escrow res = b58 created
  /\ initialize [Anchor.wallet (provider this)] s amt 0
       (Client.prepareAccounts this seller buyer tokenMint created) L = Ok L'.
Proof.
  unfold Client.escrowCreate. intros H.
  apply Chain_bind_Ok in H as (sAta & L1 & Hs & H).
  apply lift_Ok in Hs as [Hs ->]. apply splToken_Ok in Hs as [-> _].
  apply Chain_bind_Ok in H as (bAta & L1 & Hb & H).
  apply lift_Ok in Hb as [Hb ->]. apply splToken_Ok in Hb as [-> _].
  apply Chain_bind_Ok in H as (pAta & L1 & Hp & H).
  apply lift_Ok in Hp as [Hp ->]. apply splToken_Ok in Hp as [-> _].
  apply Chain_bind_Ok in H as (sBN & L1 & HBN & H).
  apply lift_Ok in HBN as [HBN ->]. apply BN_Ok in HBN as [-> _].
  apply Chain_bind_Ok in H as (bytes & L1 & Hbytes & H).
  apply lift_Ok in Hbytes as [Hbytes ->]. apply toArrayLike_le_Ok in Hbytes as ->.
  apply Chain_bind_Ok in H as (vault & L1 & Hv & H).
  apply lift_Ok in Hv as [Hv ->]. apply splToken_Ok in Hv as [-> _].
  apply Chain_bind_Ok in H as (a1 & L1 & H1 & H).
  apply lift_Ok in H1 as [H1 ->]. apply BN_Ok in H1 as [-> _].
  apply Chain_bind_Ok in H as (a2 & L1 & H2 & H).
  apply lift_Ok in H2 as [H2 ->]. apply BN_Ok in H2 as [-> _].
  apply Chain_bind_Ok in H as (a3 & L1 & H3 & H).
  apply lift_Ok in H3 as [H3 ->]. apply BN_Ok in H3 as [-> _].
  apply Chain_bind_Ok in H as (sg & L1 & Hrpc & H).
  apply Client_rpc_Ok in Hrpc as [_ Hp].
  apply Chain_bind_Ok in H as ([] & L2 & Hconf & H).
  injection Hconf as <-. injection H as <- <-.
  unfold CreateResult.seed, CreateResult.escrow. auto.
Qed.

(** C5.  [deriveEscrowAddress] does not recompute the address the escrow was
    created at.  After a successful [escrowCreate] on any ledger grown from
    one without escrows, the record sits at the address derived from the 8
    little-endian bytes of the seed, while [deriveEscrowAddress] of the seed
    [escrowCreate] reported yields another address, at which [getEscrowData]
    finds no account. *)
Theorem deriveEscrowAddress_misses_created_escrow
    (b58 : Pubkey -> string) (sig : Transaction -> string)
    (this : EscrowAPI) (seller : Keypair) (buyer tokenMint : Pubkey)
    (amt : N) (seed0 : option N) (rnd : N)
    (T : gmap Pubkey TokenAccount) (txs : list Transaction)
    (res : CreateResult.t) (L' : Ledger) :
  Client.escrowCreate b58 sig this seller buyer tokenMint amt seed0 rnd (run txs (genesis T))
    = (Ok res, L') ->
  let s := CreateResult.seed res in
  let created := ProgramAddress [JS.Buffer_from "state"; JS.le_bytes 8 s] (programId this) in
  CreateResult.escrow res = b58 created
  /\ is_Some (escrows L' !! created)
  /\ Client.deriveEscrowAddress this s <> created
  /\ Client.getEscrowData b58 this (Client.deriveEscrowAddress this s) L'
     = (Err (AccountDoesNotExist (Client.deriveEscrowAddress this s)), L').
Proof.
  intros H s created.
  assert (Hinv : escrows_derived (run txs (genesis T))).
  { apply run_escrows_derived. intros address r Hr. simpl in Hr.
    rewrite lookup_empty in Hr. discriminate. }
  apply Client_escrowCreate_Ok in H as (_ & Hres & Hinit).
  fold s in Hres, Hinit. fold created in Hres, Hinit.
  split; [exact Hres|].
  assert (Hinv' : escrows_derived L').
  { pose proof (apply_tx_escrows_derived
                  {| signers := [Anchor.wallet (provider this)];
                     instruction := Initialize s amt 0
                       (Client.prepareAccounts this seller buyer tokenMint created) |}
                  _ Hinv) as Hstep.
    unfold apply_tx, process, instruction, signers in Hstep.
    rewrite Hinit in Hstep. exact Hstep. }
  apply initialize_Ok in Hinit. simpl in Hinit.
  destruct Hinit as (_ & _ & Hesc & _ & (r & HL' & _) & _).
  unfold Client.prepareAccounts, FullAccounts.escrow in Hesc.
  split; [|split].
  - rewrite HL', Hesc, lookup_insert_eq. eauto.
  - apply deriveEscrowAddress_not_derived.
  - apply getEscrowData_None.
    destruct (escrows L' !! Client.deriveEscrowAddress this s) as [r'|] eqn:Hr'; [|reflexivity].
    apply Hinv' in Hr'. exfalso.
    exact (deriveEscrowAddress_not_derived this s (seed r') PROGRAM_ID Hr').
Qed.

Lemma deriveEscrowAddress_misses_created_escrow_witness :
  Client.deriveEscrowAddress (Demo.api Demo.seller) 42
  = ProgramAddress [JS.Buffer_from "state"; [0; 0; 0; 66]] PROGRAM_ID
  /\ is_Some (escrows Demo.created
               !! ProgramAddress [JS.Buffer_from "state"; [42; 0; 0; 0; 0; 0; 0; 0]] PROGRAM_ID)
  /\ Client.getEscrowData Demo.base58 (Demo.api Demo.seller)
       (Client.deriveEscrowAddress (Demo.api Demo.seller) 42) Demo.created
     = (Err (AccountDoesNotExist (Client.deriveEscrowAddress (Demo.api Demo.seller) 42)),
        Demo.created).
Proof.
  split; [reflexivity|].
  refine ((fun H => conj (proj1 (proj2 H)) (proj2 (proj2 (proj2 H))))
            (deriveEscrowAddress_misses_created_escrow Demo.base58 Demo.signature_of
               (Demo.api Demo.seller) Demo.seller (publicKey Demo.buyer) Demo.tokenMint
               100000 (Some 42) 7 Demo.balances [] Demo.create_result Demo.created _)).
  apply pair_fst_snd. vm_compute. reflexivity.
Defined.

(** ** The snapshot read *)

(** C6, as amended.  [getEscrowData] never changes the ledger, and for an
    active escrow it returns the seed, the bump, the initializer, both mints,
    both amounts and the confirmation flag of the record, and nothing else:
    the counterparty is not part of what it returns. *)
Theorem getEscrowData_snapshot
    (b58 : Pubkey -> string) (this : EscrowAPI) (e : Pubkey) (L : Ledger) :
  snd (Client.getEscrowData b58 this e L) = L
  /\ (forall r, escrows L !! e = Some r ->
        Client.getEscrowData b58 this e L =
          (Ok {| EscrowData.seed := JS.toString (seed r);
                 EscrowData.bump := bump r;
                 EscrowData.initializer := b58 (initializer r);
                 EscrowData.mintA := b58 (mint_a r);
                 EscrowData.mintB := b58 (mint_b r);
                 EscrowData.initializerAmount := JS.toString (initializer_amount r);
                 EscrowData.takerAmount := JS.toString (taker_amount r);
                 EscrowData.paymentConfirmed := payment_confirmed r |}, L))
  /\ (escrows L !! e = None ->
        Client.getEscrowData b58 this e L = (Err (AccountDoesNotExist e), L)).
Proof.
  split; [|split].
  - destruct (escrows L !! e) as [r|] eqn:Hr.
    + rewrite (getEscrowData_Some _ _ _ _ _ Hr). reflexivity.
    + rewrite (getEscrowData_None _ _ _ _ Hr). reflexivity.
  - intros r Hr. apply getEscrowData_Some, Hr.
  - apply getEscrowData_None.
Qed.

Lemma getEscrowData_snapshot_witness :
  fst (Client.getEscrowData Demo.base58 (Demo.api Demo.seller) Demo.escrow Demo.confirmed)
  = Ok {| EscrowData.seed := "42";
          EscrowData.bump := 255;
          EscrowData.initializer := "8EiCwjqc561w1JXe1wdhkHQXkH8tW3SxMeHwh8KT2gjj";
          EscrowData.mintA := "J1UjsVLRwGcpoCjexjDaHWVoj9F3TbdCpwVYNUYkww6y";
          EscrowData.mintB := "J1UjsVLRwGcpoCjexjDaHWVoj9F3TbdCpwVYNUYkww6y";
          EscrowData.initializerAmount := "100000";
          EscrowData.takerAmount := "0";
          EscrowData.paymentConfirmed := true |}.
Proof.
  rewrite (proj1 (proj2 (getEscrowData_snapshot Demo.base58 (Demo.api Demo.seller)
                           Demo.escrow Demo.confirmed)) Demo.confirmed_record).
  - reflexivity.
  - vm_compute. reflexivity.
Defined.

(** C6, as stated, fails: no function of the returned record yields the
    counterparty.  Two escrows that differ in their counterparty only are read
    as the same record. *)
Lemma getEscrowData_omits_counterparty :
  ~ exists counterparty_of : EscrowData.t -> Pubkey,
      forall (L : Ledger) (r : Escrow) (d : EscrowData.t),
        escrows L !! Demo.escrow = Some r ->
        fst (Client.getEscrowData Demo.base58 (Demo.api Demo.seller) Demo.escrow L) = Ok d ->
        counterparty_of d = taker r.
Proof.
  intros [f Hf].
  set (r1 := Demo.confirmed_record).
  set (r2 := {| seed := seed r1; bump := bump r1; initializer := initializer r1;
                taker := publicKey Demo.seller;
                mint_a := mint_a r1; mint_b := mint_b r1;
                initializer_amount := initializer_amount r1;
                taker_amount := taker_amount r1;
                payment_confirmed := payment_confirmed r1 |}).
  set (L1 := {| escrows := {[ Demo.escrow := r1 ]}; tokens := ∅ |}).
  set (L2 := {| escrows := {[ Demo.escrow := r2 ]}; tokens := ∅ |}).
  assert (H1 : escrows L1 !! Demo.escrow = Some r1) by apply lookup_singleton_eq.
  assert (H2 : escrows L2 !! Demo.escrow = Some r2) by apply lookup_singleton_eq.
  pose proof (Hf L1 r1 _ H1
                (f_equal fst (getEscrowData_Some Demo.base58 (Demo.api Demo.seller) _ _ _ H1)))
    as E1.
  pose proof (Hf L2 r2 _ H2
                (f_equal fst (getEscrowData_Some Demo.base58 (Demo.api Demo.seller) _ _ _ H2)))
    as E2.
  simpl in E1, E2. rewrite E1 in E2. discriminate E2.
Qed.

(** ** Deciding whether a release is legal *)

(** C8.  [canReleaseEscrow] never throws and never changes the ledger; it
    reports [canRelease = true] exactly when the record read has
    [payment_confirmed = true], together with the data read, and when the
    record cannot be loaded it reports [canRelease = false] and no data. *)
Theorem canReleaseEscrow_decides
    (b58 : Pubkey -> string) (this : EscrowAPI) (e : Pubkey) (L : Ledger) :
  exists status,
    Client.canReleaseEscrow b58 this e L = (Ok status, L)
    /\ (ReleaseStatus.canRelease status = true <->
        exists r, escrows L !! e = Some r /\ payment_confirmed r = true)
    /\ (forall r, escrows L !! e = Some r ->
          ReleaseStatus.canRelease status = payment_confirmed r
          /\ exists d, Client.getEscrowData b58 this e L = (Ok d, L)
                       /\ ReleaseStatus.escrowData status = Some d)
    /\ (forall err L', Client.getEscrowData b58 this e L = (Err err, L') ->
          ReleaseStatus.canRelease status = false
          /\ ReleaseStatus.escrowData status = None
          /\ ReleaseStatus.message status = "Failed to load escrow data").
Proof.
  unfold Client.canReleaseEscrow, try_catch, mbind, Chain_bind.
  destruct (escrows L !! e) as [r|] eqn:Hr.
  - rewrite (getEscrowData_Some _ _ _ _ _ Hr).
    eexists. split; [reflexivity|]. simpl. split; [|split].
    + split; [intros Hc; eauto | intros (r' & Hr' & Hc); congruence].
    + intros r' Hr'. injection Hr' as <-. split; [reflexivity|]. eauto.
    + intros err L' H. discriminate.
  - rewrite (getEscrowData_None _ _ _ _ Hr).
    eexists. split; [reflexivity|]. simpl. split; [|split].
    + split; [discriminate | intros (r' & Hr' & _); discriminate].
    + intros r' Hr'. discriminate.
    + auto.
Qed.

Lemma canReleaseEscrow_decides_witness :
  ReleaseStatus.canRelease
    <$> (match fst (Client.canReleaseEscrow Demo.base58 (Demo.api Demo.seller)
                      Demo.escrow Demo.confirmed) with
         | Ok status => Some status
         | Err _ => None
         end) = Some true.
Proof.
  destruct (canReleaseEscrow_decides Demo.base58 (Demo.api Demo.seller) Demo.escrow
              Demo.confirmed) as (status & Hcall & Hiff & _).
  rewrite Hcall. simpl. f_equal. apply Hiff.
  exists Demo.confirmed_record. split; [vm_compute; reflexivity | reflexivity].
Defined.

(** ** Token balances read by the client *)

Ltac wallet_unfold :=
  unfold try_catch, mbind, Chain_bind, mret, Chain_ret, throw, lift,
    Connection.getTokenAccountBalance.

Lemma getTokenAccountBalance_Err address L err L' :
  Connection.getTokenAccountBalance address L = (Err err, L') ->
  tokens L !! address = None /\ L' = L.
Proof.
  unfold Connection.getTokenAccountBalance.
  destruct (tokens L !! address); intros H; [discriminate|]. injection H as _ <-. auto.
Qed.

(** C10.  [getTokenBalance] never throws: whenever reading the associated
    token account fails it returns 0, which is also what it returns for an
    account that exists and is empty.  The wallet's [getTokenBalance] reports
    a balance of 0 in the same way, whatever made the read fail. *)
Theorem getTokenBalance_swallows_errors
    (toFixed : Number.t -> N -> string)
    (this : EscrowAPI) (wallet tokenMint : Pubkey)
    (w : Wallet.WalletAPI) (tokenSymbol : string) (L : Ledger) :
  let ata := getAssociatedTokenAddressSync tokenMint wallet in
  (exists n, Client.getTokenBalance this wallet tokenMint L = (Ok n, L))
  /\ (forall err L', Connection.getTokenAccountBalance ata L = (Err err, L') ->
        Client.getTokenBalance this wallet tokenMint L = (Ok Number.zero, L))
  /\ (forall t, tokens L !! ata = Some t -> amount t = 0 ->
        Client.getTokenBalance this wallet tokenMint L = (Ok Number.zero, L))
  /\ (exists b, Wallet.getTokenBalance toFixed w tokenSymbol L = (Ok b, L))
  /\ (forall kp cfg mintKey err L',
        Wallet.wallet w = Some kp -> Wallet.tokens w !! tokenSymbol = Some cfg ->
        PublicKey_new (Wallet.mint cfg) = Ok mintKey ->
        Connection.getTokenAccountBalance
          (getAssociatedTokenAddressSync mintKey (publicKey kp)) L = (Err err, L') ->
        exists b, Wallet.getTokenBalance toFixed w tokenSymbol L = (Ok b, L)
                  /\ Wallet.TokenBalance.balance b = Number.zero)
  /\ (Wallet.wallet w = None \/ Wallet.tokens w !! tokenSymbol = None ->
        exists b, Wallet.getTokenBalance toFixed w tokenSymbol L = (Ok b, L)
                  /\ Wallet.TokenBalance.balance b = Number.zero).
Proof.
  intros ata.
  assert (Hmiss : tokens L !! ata = None ->
                  Client.getTokenBalance this wallet tokenMint L = (Ok Number.zero, L)).
  { intros Hnone.
    unfold Client.getTokenBalance, splToken.getAssociatedTokenAddressSync. wallet_unfold.
    destruct (isOnCurve wallet); cbn [negb andb]; [|reflexivity].
    fold ata. rewrite Hnone. reflexivity. }
  assert (Hhit : forall t, tokens L !! ata = Some t ->
                 Client.getTokenBalance this wallet tokenMint L
                 = (Ok (if isOnCurve wallet
                        then Number.parseInt (JS.toString (amount t))
                        else Number.zero), L)).
  { intros t Ht.
    unfold Client.getTokenBalance, splToken.getAssociatedTokenAddressSync. wallet_unfold.
    destruct (isOnCurve wallet); cbn [negb andb]; [|reflexivity].
    fold ata. rewrite Ht. reflexivity. }
  assert (Hw : exists b, Wallet.getTokenBalance toFixed w tokenSymbol L = (Ok b, L)).
  { unfold Wallet.getTokenBalance, splToken.getAssociatedTokenAddressSync,
      Wallet.formatTokenAmount; wallet_unfold.
    destruct (Wallet.wallet w) as [kp|]; [|eexists; reflexivity].
    destruct (Wallet.tokens w !! tokenSymbol) as [cfg|]; [|eexists; reflexivity].
    destruct (PublicKey_new (Wallet.mint cfg)) as [k|]; [|eexists; reflexivity].
    destruct (isOnCurve (publicKey kp)); cbn [negb andb]; [|eexists; reflexivity].
    destruct (tokens L !! getAssociatedTokenAddressSync k (publicKey kp));
      [|eexists; reflexivity].
    destruct (Wallet.decimals cfg <=? 100); eexists; reflexivity. }
  split; [|split; [|split; [|split; [|split]]]].
  - destruct (tokens L !! ata) as [t|] eqn:Ht;
      [rewrite (Hhit t eq_refl) | rewrite (Hmiss eq_refl)]; eauto.
  - intros err L' H. apply getTokenAccountBalance_Err in H as [H _]. apply Hmiss, H.
  - intros t Ht Hz. rewrite (Hhit t Ht), Hz. destruct (isOnCurve wallet); reflexivity.
  - exact Hw.
  - intros kp cfg mintKey err L' Hkp Hcfg Hkey H.
    apply getTokenAccountBalance_Err in H as [H _].
    unfold Wallet.getTokenBalance, splToken.getAssociatedTokenAddressSync; wallet_unfold.
    rewrite Hkp, Hcfg, Hkey.
    destruct (isOnCurve (publicKey kp)); cbn [negb andb];
      [rewrite H|]; eexists; split; reflexivity.
  - intros [Hnone | Hnone]; unfold Wallet.getTokenBalance; wallet_unfold; rewrite Hnone.
    + eexists. split; reflexivity.
    + destruct (Wallet.wallet w); eexists; split; reflexivity.
Qed.

Lemma getTokenBalance_swallows_errors_witness :
  Client.getTokenBalance (Demo.api Demo.seller) (Key "nobody") Demo.tokenMint
    (genesis Demo.balances) = (Ok Number.zero, genesis Demo.balances)
  /\ Client.getTokenBalance (Demo.api Demo.seller) PLATFORM_WALLET Demo.tokenMint
       (genesis Demo.balances) = (Ok Number.zero, genesis Demo.balances).
Proof.
  pose proof (fun wallet =>
                getTokenBalance_swallows_errors (fun _ _ => "") (Demo.api Demo.seller)
                  wallet Demo.tokenMint
                  {| Wallet.wallet := None; Wallet.tokens := ∅ |} "USDT"
                  (genesis Demo.balances)) as H.
  split.
  - refine (proj1 (proj2 (H (Key "nobody")))
              (AccountDoesNotExist (getAssociatedTokenAddressSync Demo.tokenMint (Key "nobody")))
              (genesis Demo.balances) _).
    apply pair_fst_snd. vm_compute. reflexivity.
  - refine (proj1 (proj2 (proj2 (H PLATFORM_WALLET)))
              {| mint := Demo.tokenMint; amount := 0 |} _ _).
    + vm_compute. reflexivity.
    + reflexivity.
Defined.

(** ** Zero deposits *)

Lemma not_positive_rejected (x : Number.t) :
  SFltb Number.zero x = false -> Number.isNaN x || Number.leb x Number.zero = true.
Proof.
  unfold Number.leb, Number.zero.
  destruct x as [[] | [] | | [] m e]; simpl; try reflexivity; try discriminate.
Qed.

Lemma initialize_zero sigs s req a L :
  exists code,
    initialize sigs s 0 req a L = Err (ProgramError code)
    /\ (FullAccounts.initializer a ∈ sigs -> code = InvalidAmount).
Proof.
  unfold initialize. case_bool_decide as Hsig.
  - exists InvalidAmount. split; reflexivity.
  - exists Unauthorized. split; [reflexivity | intros Hin; contradiction].
Qed.

(** C7.  A deposit of zero is refused: the initialize instruction is
    rejected whatever the other inputs are, with [InvalidAmount] when the
    initializer has signed, and [escrowCreate] with amount 0 throws and leaves
    the ledger as it was, so no escrow and no vault come into being; the error
    is [InvalidAmount] whenever the call reaches the program as the seller's.
    [parseTokenAmount] throws on every input that does not parse to a
    strictly positive number. *)
Theorem zero_deposit_rejected
    (b58 : Pubkey -> string) (sig : Transaction -> string) (parseFloat : string -> Number.t)
    (this : EscrowAPI) (seller : Keypair) (buyer tokenMint : Pubkey)
    (seed0 : option N) (rnd : N)
    (sigs : list Pubkey) (s req : N) (a : FullAccounts.t)
    (input : string) (decimals : N) (L : Ledger) :
  (exists code,
     initialize sigs s 0 req a L = Err (ProgramError code)
     /\ (FullAccounts.initializer a ∈ sigs -> code = InvalidAmount))
  /\ apply_tx {| signers := sigs; instruction := Initialize s 0 req a |} L = L
  /\ (exists err,
        Client.escrowCreate b58 sig this seller buyer tokenMint 0 seed0 rnd L = (Err err, L)
        /\ (isOnCurve (publicKey seller) = true -> isOnCurve buyer = true ->
            Anchor.programId (program this) = PROGRAM_ID ->
            Anchor.wallet (provider this) = publicKey seller ->
            (match seed0 with Some s0 => if s0 =? 0 then rnd else s0 | None => rnd end)
              < 2 ^ 53 ->
            err = ProgramError InvalidAmount))
  /\ (SFltb Number.zero (parseFloat input) = false ->
        Client.parseTokenAmount parseFloat input decimals = Err (JsError "Invalid amount")).
Proof.
  split; [apply initialize_zero|]. split.
  { unfold apply_tx, process, instruction, signers.
    destruct (initialize_zero sigs s req a L) as (code & -> & _). reflexivity. }
  split.
  - unfold Client.escrowCreate, splToken.getAssociatedTokenAddressSync.
    set (s1 := match seed0 with Some s0 => if s0 =? 0 then rnd else s0 | None => rnd end).
    unfold mbind, Chain_bind, lift, BN, toArrayLike_le.
    destruct (isOnCurve (publicKey seller)); cbn [negb andb];
      [|eexists; split; [reflexivity | intros; discriminate]].
    destruct (isOnCurve buyer); cbn [negb andb];
      [|eexists; split; [reflexivity | intros; discriminate]].
    cbn [platformWallet isOnCurve negb andb].
    destruct (s1 <? 2 ^ 53) eqn:H53.
    + assert (H64 : (s1 <? 256 ^ N.of_nat 8) = true).
      { apply N.ltb_lt. apply N.ltb_lt in H53.
        eapply N.lt_trans; [exact H53|]. reflexivity. }
      rewrite H64.
      replace (0 <? 2 ^ 53) with true by reflexivity.
      unfold Client.rpc. case_bool_decide as Hid.
      * unfold process, instruction, signers.
        match goal with
        | |- context [initialize ?sg ?sd 0 ?rq ?acc L] =>
            destruct (initialize_zero sg sd rq acc L) as (code & Hinit & Hcode);
            rewrite Hinit
        end.
        eexists. split; [reflexivity|]. intros _ _ _ Hw _. f_equal. apply Hcode.
        cbn [FullAccounts.initializer]. rewrite Hw. constructor.
      * eexists. split; [reflexivity|]. intros _ _ Hid'. contradiction.
    + eexists. split; [reflexivity|]. intros _ _ _ _ Hlt.
      apply N.ltb_lt in Hlt. rewrite Hlt in H53. discriminate.
  - intros Hnp. unfold Client.parseTokenAmount.
    rewrite (not_positive_rejected _ Hnp). reflexivity.
Qed.

Lemma zero_deposit_rejected_witness :
  Client.escrowCreate Demo.base58 Demo.signature_of (Demo.api Demo.seller) Demo.seller
    (publicKey Demo.buyer) Demo.tokenMint 0 (Some 42) 7 (genesis Demo.balances)
  = (Err (ProgramError InvalidAmount), genesis Demo.balances)
  /\ Client.parseTokenAmount (fun _ => Number.zero) "0" 6 = Err (JsError "Invalid amount").
Proof.
  pose proof (zero_deposit_rejected Demo.base58 Demo.signature_of (fun _ => Number.zero)
                (Demo.api Demo.seller) Demo.seller (publicKey Demo.buyer) Demo.tokenMint
                (Some 42) 7 [] 42 0 Demo.accounts "0" 6 (genesis Demo.balances))
    as (_ & _ & (err & Hcall & Herr) & Hparse).
  split.
  - rewrite Hcall. rewrite Herr; reflexivity.
  - apply Hparse. reflexivity.
Defined.

(** A deposit of zero refused with another error than [InvalidAmount]: the
    instruction when the initializer has not signed it, and [escrowCreate]
    when the buyer's key is a program address, for which the token library
    refuses to derive an account before anything is sent. *)
Lemma zero_deposit_other_error :
  initialize [publicKey Demo.buyer] 42 0 0 Demo.accounts (genesis Demo.balances)
  = Err (ProgramError Unauthorized)
  /\ fst (Client.escrowCreate Demo.base58 Demo.signature_of (Demo.api Demo.seller)
            Demo.seller Demo.escrow Demo.tokenMint 0 (Some 42) 7 (genesis Demo.balances))
     = Err TokenOwnerOffCurveError.
Proof. split; vm_compute; reflexivity. Qed.

(** A strictly positive input may still parse to an amount of zero: one
    ten-millionth of a token with six decimals is floored to 0. *)
Example parseTokenAmount_floors_to_zero (parseFloat : string -> Number.t) (input : string) :
  parseFloat input = Number.div (Number.of_N 1) (Number.of_N 10000000) ->
  Client.parseTokenAmount parseFloat input 6 = Ok Number.zero.
Proof. intros H. unfold Client.parseTokenAmount. rewrite H. reflexivity. Qed.

(** ** When a release and a cancel go through *)


Lemma derive_is_program_address s :
  fst (derive "state" s) = ProgramAddress [JS.Buffer_from "state"; JS.le_bytes 8 s] PROGRAM_ID.
Proof. reflexivity. Qed.



Lemma transfer_eq src dst n (T : gmap Pubkey TokenAccount) s d :
  T !! src = Some s -> T !! dst = Some d -> mint s = mint d -> src <> dst ->
  n <= amount s ->
  transfer src dst n T
  = Ok (<[dst := set_amount (amount d + n) d]> (<[src := set_amount (amount s - n) s]> T)).
Proof.
  intros Hs Hd Hm Hne Hle. unfold transfer. rewrite Hs, Hd.
  rewrite bool_decide_eq_true_2 by exact Hm.
  apply N.leb_le in Hle. rewrite Hle.
  unfold require, mbind, Result_bind.
  rewrite lookup_insert_ne by done. rewrite Hd. reflexivity.
Qed.

(** What a release pays out: the fee to the platform's account, the rest to
    the counterparty's. *)
Lemma exchange_payout this seller buyer tokenMint e L r tb tp :
  Race.ready this seller buyer tokenMint e L r -> payment_confirmed r = true ->
  buyer <> PLATFORM_WALLET ->
  tokens L !! getAssociatedTokenAddressSync tokenMint buyer = Some tb ->
  tokens L !! getAssociatedTokenAddressSync tokenMint PLATFORM_WALLET = Some tp ->
  exists L',
    exchange [Anchor.wallet (provider this)]
      (Client.prepareAccounts this seller buyer tokenMint e) L = Ok L'
    /\ tokens L' !! getAssociatedTokenAddressSync tokenMint PLATFORM_WALLET
       = Some (set_amount (amount tp + fst (split (initializer_amount r) FEE_PERCENT)) tp)
    /\ tokens L' !! getAssociatedTokenAddressSync tokenMint buyer
       = Some (set_amount (amount tb + snd (split (initializer_amount r) FEE_PERCENT)) tb).
Proof.
  intros [Hr Haddr Hprog Hwal Hini Htk Hma Hmb Hbk Hsk
            (v & Hv & Hvm & Hva) (tb' & Htb' & Htbm) (tp' & Htp' & Htpm) _] Hc Hbp Htb Htp.
  assert (tb' = tb) as -> by congruence. assert (tp' = tp) as -> by congruence.
  unfold exchange.
  unfold Client.prepareAccounts, FullAccounts.escrow, FullAccounts.initializer,
    FullAccounts.taker, FullAccounts.mintA, FullAccounts.mintB, FullAccounts.vault,
    FullAccounts.takerAtaA, FullAccounts.platformWallet, FullAccounts.platformAtaA.
  rewrite Hr, Hc.
  assert (Hauth : publicKey seller ∈ [Anchor.wallet (provider this)]
                  ∧ publicKey seller = initializer r)
    by (split; [rewrite Hwal; constructor | exact Hini]).
  rewrite (bool_decide_eq_true_2 _ Hauth).
  rewrite bool_decide_eq_true_2
    by (rewrite <- Hma, <- Hmb, <- Htk, <- Haddr; repeat split; reflexivity).
  unfold require, mbind at 1 2 3, Result_bind.
  pose proof (split_fee_le (initializer_amount r) FEE_PERCENT ltac:(unfold FEE_PERCENT; lia))
    as Hfee.
  unfold split in *. simpl fst in Hfee |- *. simpl snd.
  set (fee := initializer_amount r * FEE_PERCENT / 100) in *.
  set (vault := getAssociatedTokenAddressSync tokenMint e) in *.
  set (pAta := getAssociatedTokenAddressSync tokenMint PLATFORM_WALLET) in *.
  set (bAta := getAssociatedTokenAddressSync tokenMint buyer) in *.
  assert (Hvp : vault <> pAta).
  { unfold vault, pAta. rewrite Haddr, derive_is_program_address. discriminate. }
  assert (Hvb : vault <> bAta).
  { unfold vault, bAta. intros Heq. injection Heq as Heq. auto. }
  assert (Hpb : pAta <> bAta).
  { unfold pAta, bAta. intros Heq. injection Heq as Heq. auto. }
  unfold platformWallet. fold PLATFORM_WALLET. fold pAta.
  rewrite (transfer_eq vault pAta fee _ v tp Hv Htp ltac:(congruence) Hvp ltac:(lia)).
  unfold mbind at 1, Result_bind.
  rewrite (transfer_eq vault bAta (initializer_amount r - fee) _
             (set_amount (amount v - fee) v) tb);
    [ | rewrite lookup_insert_ne by done; apply lookup_insert_eq
      | rewrite !lookup_insert_ne by done; exact Htb
      | simpl; congruence | exact Hvb | simpl; lia ].
  unfold mbind at 1, Result_bind.
  unfold close_vault.
  rewrite (lookup_insert_ne _ bAta vault) by done. rewrite lookup_insert_eq.
  replace (amount (set_amount (amount (set_amount (amount v - fee) v)
                               - (initializer_amount r - fee))
                     (set_amount (amount v - fee) v)) =? 0) with true
    by (symmetry; apply N.eqb_eq; simpl; lia).
  eexists. split; [reflexivity|]. simpl tokens. split.
  - rewrite lookup_delete_ne by done.
    rewrite !lookup_insert_ne by done. apply lookup_insert_eq.
  - rewrite lookup_delete_ne by done. apply lookup_insert_eq.
Qed.

(** ** The fee split *)

Lemma Demo_ready :
  Race.ready (Demo.api Demo.seller) Demo.seller (publicKey Demo.buyer) Demo.tokenMint
    Demo.escrow Demo.confirmed Demo.confirmed_record.
Proof.
  constructor.
  - vm_compute. reflexivity.
  - reflexivity.
  - reflexivity.
  - reflexivity.
  - reflexivity.
  - reflexivity.
  - reflexivity.
  - reflexivity.
  - vm_compute. discriminate.
  - vm_compute. discriminate.
  - eexists. split; [vm_compute; reflexivity | split; reflexivity].
  - eexists. split; [vm_compute; reflexivity | reflexivity].
  - eexists. split; [vm_compute; reflexivity | reflexivity].
  - eexists. split; [vm_compute; reflexivity | reflexivity].
Qed.

(** C2.  The split is exact: the fee is 6% of the gross amount truncated
    toward zero, the net amount is the remainder, and the two add up to the
    gross amount; of 100000 the fee is 6000 and the net amount 94000.  A
    release of a deposit of [gross] credits exactly the fee to the platform's
    account and exactly the net amount to the counterparty's. *)
Theorem fee_split_exact (gross : N) :
  fst (split gross FEE_PERCENT) = gross * 6 / 100
  /\ snd (split gross FEE_PERCENT) = gross - fst (split gross FEE_PERCENT)
  /\ fst (split gross FEE_PERCENT) + snd (split gross FEE_PERCENT) = gross
  /\ split 100000 FEE_PERCENT = (6000, 94000)
  /\ (forall this seller buyer tokenMint e L r tb tp,
        Race.ready this seller buyer tokenMint e L r ->
        payment_confirmed r = true ->
        initializer_amount r = gross ->
        buyer <> PLATFORM_WALLET ->
        tokens L !! getAssociatedTokenAddressSync tokenMint buyer = Some tb ->
        tokens L !! getAssociatedTokenAddressSync tokenMint PLATFORM_WALLET = Some tp ->
        exists L',
          exchange [Anchor.wallet (provider this)]
            (Client.prepareAccounts this seller buyer tokenMint e) L = Ok L'
          /\ tokens L' !! getAssociatedTokenAddressSync tokenMint PLATFORM_WALLET
             = Some (set_amount (amount tp + gross * 6 / 100) tp)
          /\ tokens L' !! getAssociatedTokenAddressSync tokenMint buyer
             = Some (set_amount (amount tb + (gross - gross * 6 / 100)) tb)).
Proof.
  split; [reflexivity|]. split; [reflexivity|].
  split; [apply split_sum; unfold FEE_PERCENT; lia|].
  split; [reflexivity|].
  intros this seller buyer tokenMint e L r tb tp Hready Hc <- Hbp Htb Htp.
  exact (exchange_payout this seller buyer tokenMint e L r tb tp Hready Hc Hbp Htb Htp).
Qed.

Lemma fee_split_exact_witness :
  amount <$> tokens (apply_tx Demo.tx_exchange Demo.confirmed)
               !! getAssociatedTokenAddressSync Demo.tokenMint PLATFORM_WALLET
  = Some 6000
  /\ amount <$> tokens (apply_tx Demo.tx_exchange Demo.confirmed)
                  !! getAssociatedTokenAddressSync Demo.tokenMint (publicKey Demo.buyer)
     = Some 394000.
Proof.
  destruct (proj2 (proj2 (proj2 (proj2 (fee_split_exact 100000))))
              (Demo.api Demo.seller) Demo.seller (publicKey Demo.buyer) Demo.tokenMint
              Demo.escrow Demo.confirmed Demo.confirmed_record
              {| mint := Demo.tokenMint; amount := 300000 |}
              {| mint := Demo.tokenMint; amount := 0 |}
              Demo_ready eq_refl eq_refl)
    as (L' & Hex & Hplatform & Hbuyer).
  - discriminate.
  - vm_compute. reflexivity.
  - vm_compute. reflexivity.
  - unfold apply_tx.
    change (process Demo.tx_exchange Demo.confirmed)
      with (exchange [Anchor.wallet (provider (Demo.api Demo.seller))]
              (Client.prepareAccounts (Demo.api Demo.seller) Demo.seller
                 (publicKey Demo.buyer) Demo.tokenMint Demo.escrow) Demo.confirmed).
    rewrite Hex, Hplatform, Hbuyer. split; reflexivity.
Defined.

(** ** Release racing Cancel *)

Lemma Client_check_Some b58 this e L r :
  escrows L !! e = Some r ->
  Client.escrowRelease_check b58 this e L
  = (if payment_confirmed r then Ok tt
     else Err (JsError "Payment not confirmed yet. Buyer must confirm payment before releasing tokens."),
     L).
Proof.
  intros Hr. unfold Client.escrowRelease_check, mbind, Chain_bind.
  rewrite (getEscrowData_Some _ _ _ _ _ Hr). simpl.
  destruct (payment_confirmed r); reflexivity.
Qed.

Lemma Client_check_None b58 this e L :
  escrows L !! e = None ->
  Client.escrowRelease_check b58 this e L = (Err (AccountDoesNotExist e), L).
Proof.
  intros Hr. unfold Client.escrowRelease_check, mbind, Chain_bind.
  rewrite (getEscrowData_None _ _ _ _ Hr). reflexivity.
Qed.



Lemma cancel_not_found sigs a L :
  escrows L !! CancelAccounts.escrow a = None ->
  cancel sigs a L = Err (ProgramError EscrowNotFound).
Proof. intros H. unfold cancel. rewrite H. reflexivity. Qed.














(** * Further properties *)

(** ** Positional notation *)

Lemma size_nat_bound (n : N) (k : nat) :
  (N.size_nat n <= k)%nat <-> n < 2 ^ N.of_nat k.
Proof.
  revert n. induction k as [|k IH]; intros n.
  - destruct n as [|p]; simpl; [split; [lia | lia]|].
    split; [destruct p; simpl; lia | lia].
  - rewrite Nat2N.inj_succ, N.pow_succ_r'.
    destruct n as [|[q|q|]]; simpl.
    + split; [intros _; pose proof (N.pow_nonzero 2 (N.of_nat k)); lia | lia].
    + specialize (IH (Npos q)). simpl in IH. split; intros H.
      * assert (Npos q < 2 ^ N.of_nat k) by (apply IH; lia). lia.
      * assert (Pos.size_nat q <= k)%nat by (apply IH; lia). lia.
    + specialize (IH (Npos q)). simpl in IH. split; intros H.
      * assert (Npos q < 2 ^ N.of_nat k) by (apply IH; lia). lia.
      * assert (Pos.size_nat q <= k)%nat by (apply IH; lia). lia.
    + split; [intros _; pose proof (N.pow_nonzero 2 (N.of_nat k)); lia | lia].
Qed.

Lemma size_nat_div (b n : N) (fuel : nat) :
  2 <= b -> (N.size_nat n <= S fuel)%nat -> (N.size_nat (n / b) <= fuel)%nat.
Proof.
  intros Hb Hn. apply size_nat_bound. apply size_nat_bound in Hn.
  rewrite Nat2N.inj_succ, N.pow_succ_r' in Hn.
  apply N.Div0.div_lt_upper_bound. nia.
Qed.

(** With enough fuel the loop writes [n] in base [b] in front of [acc]. *)
Lemma digits_loop_value (b : N) (fuel : nat) (n : N) (acc : list N) :
  2 <= b -> (N.size_nat n <= fuel)%nat ->
  be_value b 0 (digits_loop b fuel n acc) = be_value b n acc.
Proof.
  intros Hb. revert n acc. induction fuel as [|fuel IH]; intros n acc Hn.
  - assert (n = 0) as -> by (destruct n; simpl in Hn; [reflexivity | destruct p; simpl in Hn; lia]).
    reflexivity.
  - simpl. destruct (0 <? n) eqn:Hpos.
    + rewrite IH by (apply size_nat_div; assumption).
      unfold be_value. simpl. f_equal.
      rewrite (N.div_mod n b) at 3 by lia. lia.
    + apply N.ltb_ge in Hpos. assert (n = 0) as -> by lia. reflexivity.
Qed.

Lemma digits_loop_digits (b : N) (fuel : nat) (n : N) (acc : list N) :
  2 <= b -> Forall (fun d => d < b) acc ->
  Forall (fun d => d < b) (digits_loop b fuel n acc).
Proof.
  intros Hb. revert n acc. induction fuel as [|fuel IH]; intros n acc Hacc; [exact Hacc|].
  simpl. destruct (0 <? n); [|exact Hacc].
  apply IH. constructor; [apply N.mod_lt; lia | exact Hacc].
Qed.

Lemma be_value_snoc (b acc : N) (digits : list N) (d : N) :
  be_value b acc (digits ++ [d]) = be_value b acc digits * b + d.
Proof. unfold be_value. rewrite fold_left_app. reflexivity. Qed.

Lemma div_mul_add (b v d : N) : d < b -> (v * b + d) / b = v.
Proof. intros H. symmetry. apply N.div_unique with d; [assumption | lia]. Qed.

Lemma mod_mul_add (b v d : N) : d < b -> (v * b + d) mod b = d.
Proof. intros H. symmetry. apply N.mod_unique with v; [assumption | lia]. Qed.

Lemma strip_zeros_nil (digits : list N) :
  strip_zeros digits = [] <-> Forall (fun d => d = 0) digits.
Proof.
  induction digits as [|d digits IH]; simpl.
  - split; [constructor | reflexivity].
  - destruct d as [|p].
    + rewrite IH. split; [constructor; [reflexivity | assumption] | inversion 1; assumption].
    + split; [discriminate | inversion 1; discriminate].
Qed.

Lemma be_value_zeros (b : N) (digits : list N) :
  Forall (fun d => d = 0) digits -> be_value b 0 digits = 0.
Proof.
  induction digits as [|d digits IH] using rev_ind; [reflexivity|].
  intros H. apply Forall_app in H as [H1 H2]. rewrite be_value_snoc, IH by assumption.
  inversion H2; subst. lia.
Qed.

Lemma strip_zeros_snoc (digits : list N) (d : N) :
  strip_zeros (digits ++ [d]) =
  match strip_zeros digits with
  | [] => strip_zeros [d]
  | l => l ++ [d]
  end.
Proof.
  induction digits as [|x digits IH]; [reflexivity|].
  simpl. destruct x; [exact IH | reflexivity].
Qed.

(** The loop inverts [be_value] up to the leading zero digits. *)
Lemma digits_loop_be_value (b : N) (digits : list N) :
  2 <= b -> Forall (fun d => d < b) digits ->
  forall (fuel : nat) (acc : list N),
    (N.size_nat (be_value b 0 digits) <= fuel)%nat ->
    digits_loop b fuel (be_value b 0 digits) acc = strip_zeros digits ++ acc.
Proof.
  intros Hb. induction digits as [|d digits IH] using rev_ind; intros Hlt fuel acc Hfuel.
  - destruct fuel; reflexivity.
  - apply Forall_app in Hlt as [Hds Hd]. inversion Hd as [|? ? Hdb _]; subst.
    rewrite be_value_snoc in *. rewrite strip_zeros_snoc.
    destruct (N.eq_dec (be_value b 0 digits * b + d) 0) as [Hz|Hnz].
    + rewrite Hz. assert (d = 0) as -> by lia.
      assert (be_value b 0 digits = 0) as Hv by nia.
      specialize (IH Hds O [] ltac:(rewrite Hv; simpl; lia)).
      rewrite Hv in IH. simpl in IH. rewrite app_nil_r in IH. rewrite <- IH.
      destruct fuel; reflexivity.
    + destruct fuel as [|fuel].
      { exfalso. apply Hnz. apply size_nat_bound in Hfuel. simpl in Hfuel. lia. }
      simpl. replace (0 <? be_value b 0 digits * b + d) with true
        by (symmetry; apply N.ltb_lt; lia).
      rewrite div_mul_add, mod_mul_add by assumption.
      rewrite IH; [|assumption|].
      * destruct (strip_zeros digits) as [|x l] eqn:Hs.
        -- apply strip_zeros_nil, (be_value_zeros b) in Hs.
           destruct d; [lia | reflexivity].
        -- simpl. rewrite <- app_assoc. reflexivity.
      * rewrite <- (div_mul_add b _ d Hdb). apply size_nat_div; assumption.
Qed.

Lemma digits_loop_app (b : N) (fuel : nat) (n : N) (acc : list N) :
  digits_loop b fuel n acc = digits_loop b fuel n [] ++ acc.
Proof.
  revert n acc. induction fuel as [|fuel IH]; intros n acc; [reflexivity|].
  simpl. destruct (0 <? n); [|reflexivity].
  rewrite IH, (IH _ [_]), <- app_assoc. reflexivity.
Qed.

Lemma digits_loop_no_leading_zero (b : N) (fuel : nat) (n : N) :
  2 <= b -> (N.size_nat n <= fuel)%nat -> head (digits_loop b fuel n []) <> Some 0.
Proof.
  intros Hb Hfuel.
  pose proof (digits_loop_value b fuel n [] Hb Hfuel) as Hv.
  pose proof (digits_loop_digits b fuel n [] Hb ltac:(constructor)) as Hd.
  pose proof (digits_loop_be_value b _ Hb Hd fuel []) as Hs.
  rewrite Hv in Hs. change (be_value b n []) with n in Hs.
  specialize (Hs Hfuel). rewrite app_nil_r in Hs.
  rewrite Hs at 1. clear. induction (digits_loop b fuel n []) as [|x l IH]; [discriminate|].
  simpl. destruct x; [exact IH | discriminate].
Qed.

(** ** The wallet's base58 helpers *)

Lemma unshift_loop_digits (fuel : nat) (decoded : N) (bytes : list N) :
  WalletKeys.unshift_loop fuel decoded bytes = digits_loop 256 fuel decoded bytes.
Proof.
  revert decoded bytes. induction fuel as [|fuel IH]; intros decoded bytes; [reflexivity|].
  simpl. destruct (0 <? decoded); [|reflexivity].
  rewrite IH. change 255 with (N.ones 8).
  rewrite N.land_ones, N.shiftr_div_pow2. reflexivity.
Qed.

Lemma prepend_loop_digits (fuel : nat) (num : N) (acc : list N) (result : string) :
  WalletKeys.prepend_loop fuel num (fold_right WalletKeys.prepend result acc) =
  fold_right WalletKeys.prepend result (digits_loop 58 fuel num acc).
Proof.
  revert num acc. induction fuel as [|fuel IH]; intros num acc; [reflexivity|].
  simpl. destruct (0 <? num); [|reflexivity].
  rewrite <- IH. reflexivity.
Qed.

Lemma num_loop_value (bytes : list N) (num multi : N) :
  WalletKeys.num_loop bytes num multi = num + multi * be_value 256 0 (rev bytes).
Proof.
  revert num multi. induction bytes as [|byte bytes IH]; intros num multi; simpl.
  - unfold be_value. simpl. lia.
  - rewrite IH, be_value_snoc. lia.
Qed.

Lemma uint8ArrayToBase58_digits (uint8Array : list N) :
  WalletKeys.uint8ArrayToBase58 uint8Array =
  of_digits (digits_loop 58 (N.size_nat (be_value 256 0 uint8Array))
                         (be_value 256 0 uint8Array) []).
Proof.
  unfold WalletKeys.uint8ArrayToBase58, of_digits.
  rewrite num_loop_value, rev_involutive, N.add_0_l, N.mul_1_l.
  exact (prepend_loop_digits _ _ [] "").
Qed.

Lemma decode_loop_Forall2 (chars : list ascii) (indices : list N) (decoded multi : N) :
  Forall2 (fun char index => WalletKeys.indexOf char = Some index) chars indices ->
  WalletKeys.decode_loop chars decoded multi =
  Ok (decoded + multi * be_value 58 0 (rev indices)).
Proof.
  intros H. revert decoded multi.
  induction H as [|char index chars indices Hi _ IH]; intros decoded multi; simpl.
  - unfold be_value. simpl. f_equal. lia.
  - rewrite Hi, IH, be_value_snoc. f_equal. lia.
Qed.

Lemma decode_loop_Ok (chars : list ascii) (decoded multi v : N) :
  WalletKeys.decode_loop chars decoded multi = Ok v ->
  exists indices,
    Forall2 (fun char index => WalletKeys.indexOf char = Some index) chars indices.
Proof.
  revert decoded multi. induction chars as [|char chars IH]; intros decoded multi H.
  - exists []. constructor.
  - simpl in H. destruct (WalletKeys.indexOf char) as [index|] eqn:Hi; [|discriminate].
    destruct (IH _ _ H) as [indices Hall]. exists (index :: indices).
    constructor; assumption.
Qed.

Lemma decode_loop_Err (chars : list ascii) (decoded multi : N) (e : Error) :
  WalletKeys.decode_loop chars decoded multi = Err e ->
  e = JsError "Invalid base58 character" /\
  Exists (fun char => WalletKeys.indexOf char = None) chars.
Proof.
  revert decoded multi. induction chars as [|char chars IH]; intros decoded multi H.
  - discriminate.
  - simpl in H. destruct (WalletKeys.indexOf char) as [index|] eqn:Hi.
    + destruct (IH _ _ H) as [He Hex]. split; [assumption | right; assumption].
    + split; [congruence | left; assumption].
Qed.

Lemma index_from_spec (i : N) (c : ascii) (s : string) (k : N) :
  Base58.index_from i c s = Some k ->
  i <= k /\ String.get (N.to_nat (k - i)) s = Some c.
Proof.
  revert i. induction s as [|c' s IH]; intros i H; simpl in H; [discriminate|].
  destruct (Ascii.eqb c c') eqn:Hc.
  - apply Ascii.eqb_eq in Hc. injection H as <-. subst c'.
    rewrite N.sub_diag. split; [lia | reflexivity].
  - destruct (IH _ H) as [Hle Hget]. split; [lia|].
    replace (N.to_nat (k - i)) with (S (N.to_nat (k - (i + 1)))) by lia.
    exact Hget.
Qed.

Lemma index_from_None (i : N) (c : ascii) (s : string) :
  Base58.index_from i c s = None <-> ~ In c (String.list_ascii_of_string s).
Proof.
  revert i. induction s as [|c' s IH]; intros i; simpl.
  - split; [intros _ [] | reflexivity].
  - destruct (Ascii.eqb c c') eqn:Hc.
    + apply Ascii.eqb_eq in Hc. split; [discriminate | intros H; exfalso; apply H; left; congruence].
    + apply Ascii.eqb_neq in Hc. rewrite IH. split.
      * intros H [Heq|Hin]; [congruence | exact (H Hin)].
      * intros H Hin. apply H. right. exact Hin.
Qed.

Lemma indexOf_None (char : ascii) :
  WalletKeys.indexOf char = None <-> ~ in_alphabet char.
Proof. apply index_from_None. Qed.

Lemma get_lt (s : string) (n : nat) (c : ascii) :
  String.get n s = Some c -> (n < String.length s)%nat.
Proof.
  revert n. induction s as [|c' s IH]; intros n H; [destruct n; discriminate|].
  destruct n as [|n]; simpl in *; [lia|]. apply IH in H. lia.
Qed.

Lemma indexOf_Some (char : ascii) (index : N) :
  WalletKeys.indexOf char = Some index ->
  index < 58 /\ WalletKeys.prepend index = String char.
Proof.
  intros H. apply index_from_spec in H as [_ H]. rewrite N.sub_0_r in H.
  split.
  - apply get_lt in H. change (String.length WalletKeys.alphabet) with 58%nat in H. lia.
  - unfold WalletKeys.prepend. rewrite H. reflexivity.
Qed.

Lemma alphabet_get (index : N) :
  index < 58 ->
  exists char, String.get (N.to_nat index) WalletKeys.alphabet = Some char /\
               WalletKeys.indexOf char = Some index.
Proof.
  intros Hlt.
  assert (forallb (fun k =>
            match String.get k WalletKeys.alphabet with
            | Some char =>
                match WalletKeys.indexOf char with
                | Some index' => N.of_nat k =? index'
                | None => false
                end
            | None => false
            end) (seq 0 58) = true) as Hall by (vm_compute; reflexivity).
  rewrite forallb_forall in Hall.
  specialize (Hall (N.to_nat index) ltac:(apply in_seq; lia)).
  destruct (String.get (N.to_nat index) WalletKeys.alphabet) as [char|]; [|discriminate].
  exists char. split; [reflexivity|].
  destruct (WalletKeys.indexOf char) as [index'|]; [|discriminate].
  apply N.eqb_eq in Hall. f_equal. lia.
Qed.

Lemma of_digits_chars (digits : list N) :
  Forall (fun d => d < 58) digits ->
  Forall2 (fun char index => WalletKeys.indexOf char = Some index)
          (String.list_ascii_of_string (of_digits digits)) digits.
Proof.
  induction 1 as [|d digits Hd _ IH]; [constructor|].
  destruct (alphabet_get d Hd) as (char & Hget & Hi).
  unfold of_digits. simpl. unfold WalletKeys.prepend at 1. rewrite Hget.
  simpl. constructor; assumption.
Qed.

Lemma of_digits_strip (s : string) (indices : list N) :
  Forall2 (fun char index => WalletKeys.indexOf char = Some index)
          (String.list_ascii_of_string s) indices ->
  of_digits (strip_zeros indices) = strip_ones s.
Proof.
  assert (forall s indices,
    Forall2 (fun char index => WalletKeys.indexOf char = Some index)
            (String.list_ascii_of_string s) indices -> of_digits indices = s) as Hid.
  { clear. induction s as [|c s IH]; intros indices H; simpl in H; inversion H; subst.
    - reflexivity.
    - unfold of_digits. simpl. fold (of_digits l').
      rewrite (IH _ H4). apply indexOf_Some in H2 as [_ ->]. reflexivity. }
  revert indices. induction s as [|c s IH]; intros indices H; simpl in H; inversion H as [|? index ? l' Hi Hrest]; subst.
  - reflexivity.
  - destruct (Ascii.eqb c "1") eqn:Hc.
    + apply Ascii.eqb_eq in Hc. subst c.
      assert (index = 0) as -> by (vm_compute in Hi; congruence).
      simpl. apply IH. exact Hrest.
    + assert (index <> 0) as Hnz.
      { intros ->. apply index_from_spec in Hi as [_ Hi]. simpl in Hi.
        injection Hi as <-. discriminate. }
      replace (strip_zeros (index :: l')) with (index :: l') by (destruct index; [lia | reflexivity]).
      replace (strip_ones (String c s)) with (String c s).
      * apply Hid. simpl. constructor; assumption.
      * apply Ascii.eqb_neq in Hc. simpl.
        destruct c as [[] [] [] [] [] [] [] []]; try reflexivity. congruence.
Qed.

Lemma Forall2_rev {A B} (P : A -> B -> Prop) (l : list A) (k : list B) :
  Forall2 P l k -> Forall2 P (rev l) (rev k).
Proof.
  induction 1 as [|x y l k Hxy _ IH]; [constructor|].
  simpl. apply Forall2_app; [exact IH | repeat constructor; exact Hxy].
Qed.

Lemma Forall2_rev_l {A B} (P : A -> B -> Prop) (l : list A) (k : list B) :
  Forall2 P (rev l) k -> Forall2 P l (rev k).
Proof.
  intros H. rewrite <- (rev_involutive l). apply Forall2_rev. exact H.
Qed.

Lemma base58ToUint8Array_Forall2 (base58 : string) (indices : list N) :
  Forall2 (fun char index => WalletKeys.indexOf char = Some index)
          (String.list_ascii_of_string base58) indices ->
  WalletKeys.base58ToUint8Array base58 =
  Ok (digits_loop 256 (N.size_nat (be_value 58 0 indices)) (be_value 58 0 indices) []).
Proof.
  intros H. unfold WalletKeys.base58ToUint8Array.
  rewrite (decode_loop_Forall2 _ (rev indices)) by (apply Forall2_rev; exact H).
  rewrite rev_involutive, N.add_0_l, N.mul_1_l. simpl.
  rewrite unshift_loop_digits. reflexivity.
Qed.

Lemma base58ToUint8Array_indices (base58 : string) (bytes : list N) :
  WalletKeys.base58ToUint8Array base58 = Ok bytes ->
  exists indices,
    Forall2 (fun char index => WalletKeys.indexOf char = Some index)
            (String.list_ascii_of_string base58) indices /\
    bytes = digits_loop 256 (N.size_nat (be_value 58 0 indices))
                        (be_value 58 0 indices) [].
Proof.
  intros H. pose proof H as H'. unfold WalletKeys.base58ToUint8Array in H'.
  destruct (WalletKeys.decode_loop _ 0 1) as [decoded|e] eqn:Hdec; [|discriminate].
  destruct (decode_loop_Ok _ _ _ _ Hdec) as [indices Hall].
  apply Forall2_rev_l in Hall. exists (rev indices). split; [exact Hall|].
  rewrite (base58ToUint8Array_Forall2 _ _ Hall) in H. congruence.
Qed.

Lemma value_be_value (base58 : string) (indices : list N) (acc : N) :
  Forall2 (fun char index => WalletKeys.indexOf char = Some index)
          (String.list_ascii_of_string base58) indices ->
  Base58.value acc base58 = Some (be_value 58 acc indices).
Proof.
  revert indices acc. induction base58 as [|c s IH]; intros indices acc H;
    simpl in H; inversion H as [|? k ? l' Hi Hrest]; subst.
  - reflexivity.
  - change (Base58.value acc (String c s))
      with (match WalletKeys.indexOf c with
            | Some d => Base58.value (58 * acc + d) s
            | None => None
            end).
    rewrite Hi, (IH l' _ Hrest). unfold be_value. simpl.
    replace (58 * acc + k) with (acc * 58 + k) by lia. reflexivity.
Qed.

Lemma decode_encode (uint8Array : list N) :
  Forall (fun byte => byte < 256) uint8Array ->
  WalletKeys.base58ToUint8Array (WalletKeys.uint8ArrayToBase58 uint8Array) =
  Ok (strip_zeros uint8Array).
Proof.
  intros Hbytes. rewrite uint8ArrayToBase58_digits.
  set (num := be_value 256 0 uint8Array).
  assert (Forall (fun d => d < 58) (digits_loop 58 (N.size_nat num) num [])) as Hd
    by (apply digits_loop_digits; [lia | constructor]).
  rewrite (base58ToUint8Array_Forall2 _ _ (of_digits_chars _ Hd)).
  rewrite digits_loop_value by lia.
  change (be_value 58 num []) with num. f_equal.
  rewrite (digits_loop_be_value 256 uint8Array) by first [assumption | reflexivity | lia].
  apply app_nil_r.
Qed.

(** X1. Encoding bytes with [uint8ArrayToBase58] and decoding the text with
    [base58ToUint8Array] gives the bytes back without their leading zero
    bytes: the pair keeps the number, not the length. *)
Theorem base58_bytes_round_trip (uint8Array : list N) :
  Forall (fun byte => byte < 256) uint8Array ->
  WalletKeys.base58ToUint8Array (WalletKeys.uint8ArrayToBase58 uint8Array) =
  Ok (strip_zeros uint8Array).
Proof. exact (decode_encode uint8Array). Qed.

Lemma base58_bytes_round_trip_witness :
  Forall (fun byte => byte < 256) [0; 0; 7; 0; 255] /\
  WalletKeys.base58ToUint8Array (WalletKeys.uint8ArrayToBase58 [0; 0; 7; 0; 255]) =
  Ok [7; 0; 255].
Proof.
  assert (Forall (fun byte => byte < 256) [0; 0; 7; 0; 255]) as H
    by (repeat constructor).
  split; [exact H | exact (base58_bytes_round_trip _ H)].
Defined.

(** X2. Decoding a text with [base58ToUint8Array] and encoding the bytes with
    [uint8ArrayToBase58] gives the text back without its leading '1'
    characters. *)
Theorem base58_text_round_trip (base58 : string) (bytes : list N) :
  WalletKeys.base58ToUint8Array base58 = Ok bytes ->
  WalletKeys.uint8ArrayToBase58 bytes = strip_ones base58.
Proof.
  intros H.
  destruct (base58ToUint8Array_indices base58 bytes H) as (indices & Hall & ->).
  rewrite uint8ArrayToBase58_digits, digits_loop_value by lia.
  change (be_value 256 (be_value 58 0 indices) []) with (be_value 58 0 indices).
  rewrite (digits_loop_be_value 58 indices); [| lia | | lia].
  - rewrite app_nil_r. apply of_digits_strip. exact Hall.
  - clear -Hall. induction Hall as [|c k ? ? Hi _ IH]; constructor; [|exact IH].
    apply indexOf_Some in Hi. tauto.
Qed.

Lemma base58_text_round_trip_witness :
  WalletKeys.base58ToUint8Array "11Ldp" = Ok [1; 2; 3] /\
  WalletKeys.uint8ArrayToBase58 [1; 2; 3] = "Ldp".
Proof.
  assert (WalletKeys.base58ToUint8Array "11Ldp" = Ok [1; 2; 3]) as H
    by (vm_compute; reflexivity).
  split; [exact H | exact (base58_text_round_trip _ _ H)].
Defined.

(** X3. [base58ToUint8Array] throws exactly when the text has a character
    outside the alphabet, and the error is always 'Invalid base58
    character'. *)
Theorem base58ToUint8Array_throws (base58 : string) :
  (Exists (fun char => ~ in_alphabet char) (String.list_ascii_of_string base58) <->
   WalletKeys.base58ToUint8Array base58 = Err (JsError "Invalid base58 character")) /\
  (forall e, WalletKeys.base58ToUint8Array base58 = Err e ->
             e = JsError "Invalid base58 character").
Proof.
  assert (forall e, WalletKeys.base58ToUint8Array base58 = Err e ->
            e = JsError "Invalid base58 character" /\
            Exists (fun char => ~ in_alphabet char) (String.list_ascii_of_string base58))
    as Herr.
  { intros e H. unfold WalletKeys.base58ToUint8Array in H.
    destruct (WalletKeys.decode_loop _ 0 1) as [decoded|e'] eqn:Hdec; [discriminate|].
    simpl in H. injection H as <-.
    apply decode_loop_Err in Hdec as [-> Hex]. split; [reflexivity|].
    apply Exists_exists in Hex as (c & Hin & Hc). apply Exists_exists.
    apply list_elem_of_In, in_rev in Hin.
    exists c. split; [apply list_elem_of_In; exact Hin | apply indexOf_None; exact Hc]. }
  split; [split|].
  - intros Hex. destruct (WalletKeys.base58ToUint8Array base58) as [bytes|e] eqn:H.
    + exfalso. destruct (base58ToUint8Array_indices base58 bytes H) as (indices & Hall & _).
      apply Exists_exists in Hex as (c & Hin & Hc). apply list_elem_of_In in Hin.
      clear -Hall Hin Hc. induction Hall as [|c' k ? ? Hi _ IH]; [destruct Hin|].
      destruct Hin as [->|Hin]; [|exact (IH Hin)].
      apply indexOf_None in Hc. congruence.
    + f_equal. apply Herr. reflexivity.
  - intros H. apply (Herr _ H).
  - intros e H. apply (Herr _ H).
Qed.

Lemma base58ToUint8Array_throws_witness :
  WalletKeys.base58ToUint8Array "1O" = Err (JsError "Invalid base58 character").
Proof.
  apply (proj1 (proj1 (base58ToUint8Array_throws "1O"))).
  right. left. apply indexOf_None. reflexivity.
Defined.

(** X4. The bytes [base58ToUint8Array] returns are the shortest big-endian
    form of the number the text denotes: each is below 256 and the first is
    not zero, whatever the number of leading '1' characters. *)
Theorem base58ToUint8Array_canonical (base58 : string) (bytes : list N) :
  WalletKeys.base58ToUint8Array base58 = Ok bytes ->
  Forall (fun byte => byte < 256) bytes /\ head bytes <> Some 0 /\
  Base58.value 0 base58 = Some (be_value 256 0 bytes).
Proof.
  intros H.
  destruct (base58ToUint8Array_indices base58 bytes H) as (indices & Hall & ->).
  split; [apply digits_loop_digits; [lia | constructor]|].
  split; [apply digits_loop_no_leading_zero; lia|].
  rewrite digits_loop_value by lia.
  change (be_value 256 (be_value 58 0 indices) []) with (be_value 58 0 indices).
  apply value_be_value. exact Hall.
Qed.

Lemma base58ToUint8Array_canonical_witness :
  WalletKeys.base58ToUint8Array "11Ldp" = Ok [1; 2; 3] /\
  Forall (fun byte => byte < 256) [1; 2; 3] /\ head [1; 2; 3] <> Some 0 /\
  Base58.value 0 "11Ldp" = Some (be_value 256 0 [1; 2; 3]).
Proof.
  assert (WalletKeys.base58ToUint8Array "11Ldp" = Ok [1; 2; 3]) as H
    by (vm_compute; reflexivity).
  split; [exact H | exact (base58ToUint8Array_canonical _ _ H)].
Defined.

Lemma strip_zeros_length (l : list N) :
  (length (strip_zeros l) <= length l)%nat /\
  (length (strip_zeros l) = length l <-> head l <> Some 0).
Proof.
  induction l as [|x l [IHle IH]]; simpl.
  - split; [lia | split; [discriminate | reflexivity]].
  - destruct x as [|p]; simpl.
    + split; [lia|]. split; [lia | intros H; exfalso; apply H; reflexivity].
    + split; [lia|]. split; [discriminate | reflexivity].
Qed.

(** X5. The text [getPrivateKey] exports decodes, with the decoder the
    import uses, to a byte string that is never longer than the secret key
    and has its length exactly when the key does not start with a zero
    byte; without a keypair [getPrivateKey] throws 'No wallet loaded'. *)
Theorem getPrivateKey_reimport (keypair : WalletKeys.Keypair) :
  Forall (fun byte => byte < 256) (WalletKeys.secretKey keypair) ->
  WalletKeys.getPrivateKey None = Err (JsError "No wallet loaded") /\
  exists text bytes,
    WalletKeys.getPrivateKey (Some keypair) = Ok text /\
    WalletKeys.base58ToUint8Array text = Ok bytes /\
    (length bytes <= length (WalletKeys.secretKey keypair))%nat /\
    (length bytes = length (WalletKeys.secretKey keypair) <->
     head (WalletKeys.secretKey keypair) <> Some 0).
Proof.
  intros Hbytes. split; [reflexivity|].
  exists (WalletKeys.uint8ArrayToBase58 (WalletKeys.secretKey keypair)),
         (strip_zeros (WalletKeys.secretKey keypair)).
  split; [reflexivity|]. split.
  - apply decode_encode. exact Hbytes.
  - apply strip_zeros_length.
Qed.

Lemma getPrivateKey_reimport_witness :
  Forall (fun byte => byte < 256) [0; 0; 7; 0; 255] /\
  exists text bytes,
    WalletKeys.getPrivateKey (Some {| WalletKeys.secretKey := [0; 0; 7; 0; 255] |}) = Ok text /\
    WalletKeys.base58ToUint8Array text = Ok bytes /\
    (length bytes <= 5)%nat /\
    (length bytes = 5%nat <-> head [0; 0; 7; 0; 255] <> Some 0).
Proof.
  assert (Forall (fun byte => byte < 256) [0; 0; 7; 0; 255]) as H
    by (repeat constructor).
  split; [exact H|].
  exact (proj2 (getPrivateKey_reimport {| WalletKeys.secretKey := [0; 0; 7; 0; 255] |} H)).
Defined.

(** ** The transaction analyzer *)

Lemma getOtherAccountAddress_cases (accountKeys : list string) (walletPubkey ataOwner : string) :
  let other := Analyzer.getOtherAccountAddress accountKeys walletPubkey ataOwner in
  (In other accountKeys /\ other <> walletPubkey /\ other <> ataOwner)
  \/ (other = ataOwner /\
      Forall (fun key => key = walletPubkey \/ key = ataOwner) accountKeys).
Proof.
  induction accountKeys as [|key keys IH]; simpl.
  - right. split; [reflexivity | constructor].
  - destruct (String.eqb key walletPubkey) eqn:Hw; simpl.
    + apply String.eqb_eq in Hw. destruct IH as [(Hin & H1 & H2)|[H1 H2]].
      * left. split; [right; exact Hin | split; assumption].
      * right. split; [exact H1 | constructor; [left; exact Hw | exact H2]].
    + destruct (String.eqb key ataOwner) eqn:Ho; simpl.
      * apply String.eqb_eq in Ho. destruct IH as [(Hin & H1 & H2)|[H1 H2]].
        -- left. split; [right; exact Hin | split; assumption].
        -- right. split; [exact H1 | constructor; [right; exact Ho | exact H2]].
      * apply String.eqb_neq in Hw, Ho. left.
        split; [left; reflexivity | split; assumption].
Qed.

(** X6. [getOtherAccountAddress] returns an account key different from the
    wallet and from the ATA owner whenever the transaction has one, and the
    ATA owner otherwise; so it names the wallet itself only when it was
    called with the wallet as ATA owner and every account key is the
    wallet. *)
Theorem getOtherAccountAddress_other (accountKeys : list string)
    (walletPubkey ataOwner : string) :
  let other := Analyzer.getOtherAccountAddress accountKeys walletPubkey ataOwner in
  (Exists (fun key => key <> walletPubkey /\ key <> ataOwner) accountKeys ->
   In other accountKeys /\ other <> walletPubkey /\ other <> ataOwner)
  /\ (Forall (fun key => key = walletPubkey \/ key = ataOwner) accountKeys ->
      other = ataOwner)
  /\ (other = walletPubkey ->
      ataOwner = walletPubkey /\ Forall (fun key => key = walletPubkey) accountKeys).
Proof.
  intros other.
  destruct (getOtherAccountAddress_cases accountKeys walletPubkey ataOwner)
    as [(Hin & H1 & H2)|[H1 H2]]; fold other in H1; try fold other in Hin, H2.
  - split; [intros _; repeat split; assumption|]. split.
    + intros Hall. rewrite Forall_forall in Hall.
      apply list_elem_of_In in Hin. destruct (Hall _ Hin); contradiction.
    + intros Heq. contradiction.
  - split; [|split].
    + intros Hex. apply Exists_exists in Hex as (key & Hin & Hk1 & Hk2).
      rewrite Forall_forall in H2. destruct (H2 _ Hin); contradiction.
    + intros _. exact H1.
    + intros Heq. assert (ataOwner = walletPubkey) as Ho by congruence.
      split; [exact Ho|]. eapply Forall_impl; [exact H2|].
      intros key [Hk|Hk]; congruence.
Qed.

Lemma getOtherAccountAddress_other_witness :
  In (Analyzer.getOtherAccountAddress ["W"; "A"; "B"] "W" "W") ["W"; "A"; "B"]
  /\ Analyzer.getOtherAccountAddress ["W"; "A"; "B"] "W" "W" <> "W"
  /\ Analyzer.getOtherAccountAddress ["W"; "A"; "B"] "W" "W" <> "W".
Proof.
  apply (proj1 (getOtherAccountAddress_other ["W"; "A"; "B"] "W" "W")).
  right. left. split; discriminate.
Defined.

Lemma destination_loop_owner (parseFloat : Number.t -> Number.t)
    (pre post : list Analyzer.TokenBalance) (mintAddress walletPubkey : string)
    (owner : option string) :
  Analyzer.destination_loop parseFloat pre post mintAddress walletPubkey = Some owner ->
  exists preBalance postBalance,
    In preBalance pre /\ Analyzer.owner preBalance = owner /\
    owner <> Some walletPubkey /\ Analyzer.mint preBalance = mintAddress /\
    Analyzer.find_post post preBalance = Some postBalance /\
    SFltb Analyzer.threshold (Analyzer.change parseFloat preBalance postBalance) = true.
Proof.
  induction pre as [|preBalance pre IH]; cbn [Analyzer.destination_loop]; [discriminate|].
  assert (Analyzer.destination_loop parseFloat pre post mintAddress walletPubkey = Some owner ->
    exists preBalance0 postBalance,
      (preBalance = preBalance0 \/ In preBalance0 pre) /\
      Analyzer.owner preBalance0 = owner /\ owner <> Some walletPubkey /\
      Analyzer.mint preBalance0 = mintAddress /\
      Analyzer.find_post post preBalance0 = Some postBalance /\
      SFltb Analyzer.threshold (Analyzer.change parseFloat preBalance0 postBalance) = true)
    as Hrest.
  { intros H. destruct (IH H) as (p & q & Hin & Hrest). exists p, q.
    split; [right; exact Hin | exact Hrest]. }
  destruct (Analyzer.owner_is (Analyzer.owner preBalance) walletPubkey) eqn:Hown;
    [exact Hrest|].
  destruct (String.eqb (Analyzer.mint preBalance) mintAddress) eqn:Hmint; cbn [negb];
    [|exact Hrest].
  destruct (Analyzer.find_post post preBalance) as [postBalance|] eqn:Hfind;
    [|exact Hrest].
  destruct (SFltb Analyzer.threshold (Analyzer.change parseFloat preBalance postBalance)) eqn:Hlt;
    [|exact Hrest].
  intros H. injection H as <-. exists preBalance, postBalance.
  split; [left; reflexivity|]. split; [reflexivity|]. split.
  - intros Heq. unfold Analyzer.owner_is in Hown. rewrite Heq in Hown.
    rewrite String.eqb_refl in Hown. discriminate Hown.
  - apply String.eqb_eq in Hmint.
    split; [exact Hmint | split; [exact Hfind | exact Hlt]].
Qed.

(** X7. [getDestinationATAOwner] reports the wallet itself as the
    destination only when every account key of the transaction is the
    wallet, and returns [undefined] only when a balance entry of the asked
    mint has no owner; any other destination is an account key of the
    transaction or the owner of an entry of that mint whose balance rose by
    more than 0.000001. *)
Theorem getDestinationATAOwner_not_self (parseFloat : Number.t -> Number.t)
    (accountKeys : list string)
    (preTokenBalances postTokenBalances : option (list Analyzer.TokenBalance))
    (mintAddress walletPubkey : string) :
  let destination :=
    Analyzer.getDestinationATAOwner parseFloat accountKeys preTokenBalances
      postTokenBalances mintAddress walletPubkey in
  (destination = Some walletPubkey ->
   Forall (fun key => key = walletPubkey) accountKeys)
  /\ (destination = None ->
      exists pre preBalance,
        preTokenBalances = Some pre /\ In preBalance pre /\
        Analyzer.owner preBalance = None /\ Analyzer.mint preBalance = mintAddress)
  /\ (forall owner, destination = Some owner ->
      In owner accountKeys \/ owner = walletPubkey \/
      exists pre post preBalance postBalance,
        preTokenBalances = Some pre /\ postTokenBalances = Some post /\
        In preBalance pre /\ Analyzer.owner preBalance = Some owner /\
        Analyzer.mint preBalance = mintAddress /\
        Analyzer.find_post post preBalance = Some postBalance /\
        SFltb Analyzer.threshold (Analyzer.change parseFloat preBalance postBalance) = true).
Proof.
  intros destination.
  pose proof (getOtherAccountAddress_cases accountKeys walletPubkey walletPubkey) as Hother.
  assert (forall owner,
            Some (Analyzer.getOtherAccountAddress accountKeys walletPubkey walletPubkey)
            = owner ->
            (owner = Some walletPubkey -> Forall (fun key => key = walletPubkey) accountKeys)
            /\ owner <> None
            /\ (forall o, owner = Some o -> In o accountKeys \/ o = walletPubkey))
    as Hfallback.
  { intros owner <-. simpl in Hother. destruct Hother as [(Hin & H1 & _)|[H1 H2]].
    - split; [intros [=]; contradiction|]. split; [discriminate|].
      intros o [= <-]. left. exact Hin.
    - split; [|split; [discriminate|]].
      + intros _. eapply Forall_impl; [exact H2|]. intros key [Hk|Hk]; exact Hk.
      + intros o [= <-]. right. exact H1. }
  unfold Analyzer.getDestinationATAOwner in destination.
  destruct preTokenBalances as [pre|], postTokenBalances as [post|];
    try (destruct (Hfallback destination eq_refl) as (Ha & Hb & Hc);
         split; [exact Ha | split; [intros Hd; contradiction |
                                    intros o Ho; destruct (Hc o Ho); tauto]]).
  destruct (Analyzer.destination_loop parseFloat pre post mintAddress walletPubkey)
    as [owner|] eqn:Hloop.
  - apply destination_loop_owner in Hloop
      as (preBalance & postBalance & Hin & Hown & Hne & Hmint & Hfind & Hlt).
    subst destination. split; [intros ->; contradiction|]. split.
    + intros ->. exists pre, preBalance.
      split; [reflexivity | split; [exact Hin | split; [exact Hown | exact Hmint]]].
    + intros o ->. right. right. exists pre, post, preBalance, postBalance.
      split; [reflexivity|]. split; [reflexivity|]. split; [exact Hin|].
      split; [exact Hown|]. split; [exact Hmint|]. split; [exact Hfind | exact Hlt].
  - destruct (Hfallback destination eq_refl) as (Ha & Hb & Hc).
    split; [exact Ha | split; [intros Hd; contradiction |
                               intros o Ho; destruct (Hc o Ho); tauto]].
Qed.

Lemma getDestinationATAOwner_not_self_witness :
  In "R" ["W"] \/ "R" = "W" \/
  exists pre post preBalance postBalance,
    Some [{| Analyzer.accountIndex := 1; Analyzer.mint := "M";
             Analyzer.owner := Some "R"; Analyzer.uiAmount := Some (Number.of_N 1) |}]
    = Some pre /\
    Some [{| Analyzer.accountIndex := 1; Analyzer.mint := "M";
             Analyzer.owner := Some "R"; Analyzer.uiAmount := Some (Number.of_N 3) |}]
    = Some post /\
    In preBalance pre /\ Analyzer.owner preBalance = Some "R" /\
    Analyzer.mint preBalance = "M" /\
    Analyzer.find_post post preBalance = Some postBalance /\
    SFltb Analyzer.threshold (Analyzer.change (fun x => x) preBalance postBalance) = true.
Proof.
  apply (proj2 (proj2 (getDestinationATAOwner_not_self (fun x => x) ["W"]
           (Some [{| Analyzer.accountIndex := 1; Analyzer.mint := "M";
                     Analyzer.owner := Some "R";
                     Analyzer.uiAmount := Some (Number.of_N 1) |}])
           (Some [{| Analyzer.accountIndex := 1; Analyzer.mint := "M";
                     Analyzer.owner := Some "R";
                     Analyzer.uiAmount := Some (Number.of_N 3) |}])
           "M" "W")) "R").
  vm_compute. reflexivity.
Defined.

(** ** The client and the signer of its transactions *)

Lemma elem_of_singleton_eq {A : Type} (x y : A) : x ∈ [y] -> x = y.
Proof. intros H. apply list_elem_of_In in H. destruct H as [H|[]]. congruence. Qed.

(** X8. The first revision of [EscrowAPI] signs with the provider's wallet
    only: a call of [escrowCreate], [escrowRelease] or [escrowCancel] that
    succeeds was made with the provider's wallet as seller, and a successful
    [escrowConfirmPayment] with the provider's wallet as buyer; the keypair
    handed to the call signs nothing. *)
Theorem client_calls_signed_by_provider
    (b58 : Pubkey -> string) (sig : Transaction -> string) (this : EscrowAPI)
    (sellerWallet buyerWallet : Keypair) (buyer tokenMint escrow : Pubkey)
    (amount : N) (seed : option N) (random : N) (L : Ledger) :
  (forall res L',
     Client.escrowCreate b58 sig this sellerWallet buyer tokenMint amount seed random L
       = (Ok res, L') ->
     Anchor.wallet (provider this) = publicKey sellerWallet)
  /\ (forall res L',
        Client.escrowRelease b58 sig this sellerWallet buyer tokenMint escrow L = (Ok res, L') ->
        Anchor.wallet (provider this) = publicKey sellerWallet)
  /\ (forall res L',
        Client.escrowCancel sig this sellerWallet tokenMint escrow L = (Ok res, L') ->
        Anchor.wallet (provider this) = publicKey sellerWallet)
  /\ (forall res L',
        Client.escrowConfirmPayment b58 sig this buyerWallet escrow tokenMint L = (Ok res, L') ->
        Anchor.wallet (provider this) = publicKey buyerWallet).
Proof.
  split; [|split; [|split]]; intros res L' H.
  - apply Client_escrowCreate_Ok in H as (_ & _ & H).
    apply initialize_Ok in H as (_ & Hsig & _).
    symmetry. exact (elem_of_singleton_eq _ _ Hsig).
  - apply Client_escrowRelease_Ok, exchange_Ok in H as (r & _ & Hsig & _).
    symmetry. exact (elem_of_singleton_eq _ _ Hsig).
  - apply Client_escrowCancel_Ok, cancel_Ok in H as (r & _ & Hsig & _).
    symmetry. exact (elem_of_singleton_eq _ _ Hsig).
  - apply Client_escrowConfirmPayment_Ok in H as (_ & H).
    apply confirm_payment_Ok in H as (r & _ & Hsig & _).
    symmetry. exact (elem_of_singleton_eq _ _ Hsig).
Qed.

Lemma client_calls_signed_by_provider_witness :
  Anchor.wallet (provider (Demo.api Demo.seller)) = publicKey Demo.seller.
Proof.
  refine (proj1 (client_calls_signed_by_provider Demo.base58 Demo.signature_of
                   (Demo.api Demo.seller) Demo.seller Demo.buyer (publicKey Demo.buyer)
                   Demo.tokenMint Demo.escrow 100000 (Some 42) 7 (genesis Demo.balances))
                Demo.create_result Demo.created _).
  apply pair_fst_snd. vm_compute. reflexivity.
Defined.

(** ** The checks before a confirmation is sent *)

(** X9. [escrowConfirmPayment] sends nothing for an address that holds no
    escrow account: it throws 'Escrow account not found' when no account is
    there, and 'owned by wrong program' when the address is a token account;
    the ledger stays as it was. *)
Theorem escrowConfirmPayment_checks_account
    (b58 : Pubkey -> string) (sig : Transaction -> string) (this : EscrowAPI)
    (buyerWallet : Keypair) (escrow tokenMint : Pubkey) (L : Ledger) :
  escrows L !! escrow = None ->
  (tokens L !! escrow = None ->
   Client.escrowConfirmPayment b58 sig this buyerWallet escrow tokenMint L
   = (Err (JsError "Escrow account not found. Please check the escrow address."), L))
  /\ (is_Some (tokens L !! escrow) ->
      b58 TOKEN_PROGRAM_ID <> b58 (Anchor.programId (program this)) ->
      Client.escrowConfirmPayment b58 sig this buyerWallet escrow tokenMint L
      = (Err (JsError ("Escrow account is owned by wrong program. Expected: "
                       +:+ b58 (Anchor.programId (program this))
                       +:+ ", Got: " +:+ b58 TOKEN_PROGRAM_ID)), L)).
Proof.
  intros Hesc. unfold Client.escrowConfirmPayment, Connection.getAccountInfo.
  unfold mbind, Chain_bind, in_use. rewrite Hesc. split.
  - intros ->. reflexivity.
  - intros [t ->] Hne. cbn [Connection.owner].
    apply String.eqb_neq in Hne. rewrite Hne. reflexivity.
Qed.

Lemma escrowConfirmPayment_checks_account_witness :
  escrows (genesis Demo.balances) !! Demo.escrow = None
  /\ Client.escrowConfirmPayment Demo.base58 Demo.signature_of (Demo.api Demo.buyer)
       Demo.buyer Demo.escrow Demo.tokenMint (genesis Demo.balances)
     = (Err (JsError "Escrow account not found. Please check the escrow address."),
        genesis Demo.balances).
Proof.
  assert (escrows (genesis Demo.balances) !! Demo.escrow = None) as H by reflexivity.
  split; [exact H|].
  apply (proj1 (escrowConfirmPayment_checks_account Demo.base58 Demo.signature_of
                  (Demo.api Demo.buyer) Demo.buyer Demo.escrow Demo.tokenMint
                  (genesis Demo.balances) H)).
  vm_compute. reflexivity.
Defined.

(** ** Creating an escrow and reading it back *)

Lemma initialize_record sigs seed0 dep req a L L' :
  initialize sigs seed0 dep req a L = Ok L' ->
  escrows L' !! FullAccounts.escrow a
  = Some {| seed := seed0; bump := snd (derive "state" seed0);
            initializer := FullAccounts.initializer a;
            taker := FullAccounts.taker a;
            mint_a := FullAccounts.mintA a;
            mint_b := FullAccounts.mintB a;
            initializer_amount := dep;
            taker_amount := req;
            payment_confirmed := false |}
  /\ tokens L' !! FullAccounts.vault a
     = Some {| mint := FullAccounts.mintA a; amount := dep |}
  /\ exists s, tokens L !! FullAccounts.initializerAtaA a = Some s
               /\ dep <= amount s
               /\ tokens L' !! FullAccounts.initializerAtaA a
                  = Some (set_amount (amount s - dep) s).
Proof.
  unfold initialize. intros H.
  destruct (derive "state" seed0) as [address nonce].
  inv_bind H. inv_bind H. inv_bind H. inv_bind H.
  apply bool_decide_eq_true in Hreq1 as (Hesc & Hvault & Hata).
  apply andb_true_iff in Hreq2 as [Hfree Hvfree].
  apply negb_true_iff in Hvfree. unfold in_use in Hvfree.
  destruct (tokens L !! FullAccounts.initializerAtaA a) as [s|] eqn:Hs; [|discriminate].
  inv_bind H. inv_bind H. apply N.leb_le in Hreq2.
  injection H as <-. cbn [escrows tokens snd].
  rewrite Hesc, Hvault. rewrite !lookup_insert_eq.
  split; [reflexivity|]. split; [reflexivity|].
  exists s. split; [reflexivity|]. split; [exact Hreq2|].
  rewrite lookup_insert_ne.
  - apply lookup_insert_eq.
  - intros Heq. rewrite <- Heq in Hs. rewrite Hs in Hvfree. discriminate.
Qed.

Lemma Client_escrowCreate_result b58 sig this seller buyer tokenMint amt seed0 rnd L res L' :
  Client.escrowCreate b58 sig this seller buyer tokenMint amt seed0 rnd L = (Ok res, L') ->
  let created :=
    ProgramAddress [JS.Buffer_from "state"; JS.le_bytes 8 (CreateResult.seed res)]
      (programId this) in
  CreateResult.vault res = b58 (getAssociatedTokenAddressSync tokenMint created)
  /\ CreateResult.amount res = amt
  /\ CreateResult.seed res < 2 ^ 53.
Proof.
  unfold Client.escrowCreate. intros H.
  apply Chain_bind_Ok in H as (sAta & L1 & Hs & H).
  apply lift_Ok in Hs as [Hs ->]. apply splToken_Ok in Hs as [-> _].
  apply Chain_bind_Ok in H as (bAta & L1 & Hb & H).
  apply lift_Ok in Hb as [Hb ->]. apply splToken_Ok in Hb as [-> _].
  apply Chain_bind_Ok in H as (pAta & L1 & Hp & H).
  apply lift_Ok in Hp as [Hp ->]. apply splToken_Ok in Hp as [-> _].
  apply Chain_bind_Ok in H as (sBN & L1 & HBN & H).
  apply lift_Ok in HBN as [HBN ->]. apply BN_Ok in HBN as [-> Hlt].
  apply Chain_bind_Ok in H as (bytes & L1 & Hbytes & H).
  apply lift_Ok in Hbytes as [Hbytes ->]. apply toArrayLike_le_Ok in Hbytes as ->.
  apply Chain_bind_Ok in H as (vault & L1 & Hv & H).
  apply lift_Ok in Hv as [Hv ->]. apply splToken_Ok in Hv as [-> _].
  apply Chain_bind_Ok in H as (a1 & L1 & H1 & H).
  apply lift_Ok in H1 as [H1 ->]. apply BN_Ok in H1 as [-> _].
  apply Chain_bind_Ok in H as (a2 & L1 & H2 & H).
  apply lift_Ok in H2 as [H2 ->]. apply BN_Ok in H2 as [-> _].
  apply Chain_bind_Ok in H as (a3 & L1 & H3 & H).
  apply lift_Ok in H3 as [H3 ->]. apply BN_Ok in H3 as [-> _].
  apply Chain_bind_Ok in H as (sg & L1 & Hrpc & H).
  apply Chain_bind_Ok in H as ([] & L2 & Hconf & H).
  injection Hconf as <-. injection H as <- <-.
  unfold CreateResult.seed, CreateResult.vault, CreateResult.amount. auto.
Qed.

(** X10. After a successful [escrowCreate], [getEscrowData] at the address
    the call derived returns what was asked for: the seed and the amount as
    decimal texts, the seller as initializer, the token mint on both sides, a
    requested amount of 0 and [paymentConfirmed = false]; the vault the result
    names holds exactly the amount, and the seller's token account holds that
    much less. *)
Theorem escrowCreate_then_read
    (b58 : Pubkey -> string) (sig : Transaction -> string) (this : EscrowAPI)
    (sellerWallet : Keypair) (buyerWallet tokenMint : Pubkey)
    (amount0 : N) (seed0 : option N) (random : N) (L L' : Ledger) (res : CreateResult.t) :
  Client.escrowCreate b58 sig this sellerWallet buyerWallet tokenMint amount0 seed0 random L
    = (Ok res, L') ->
  let created :=
    ProgramAddress [JS.Buffer_from "state"; JS.le_bytes 8 (CreateResult.seed res)]
      (programId this) in
  let vault := getAssociatedTokenAddressSync tokenMint created in
  let sellerAta := getAssociatedTokenAddressSync tokenMint (publicKey sellerWallet) in
  CreateResult.vault res = b58 vault
  /\ CreateResult.amount res = amount0
  /\ (exists data,
        Client.getEscrowData b58 this created L' = (Ok data, L')
        /\ EscrowData.seed data = JS.toString (CreateResult.seed res)
        /\ EscrowData.initializer data = b58 (publicKey sellerWallet)
        /\ EscrowData.mintA data = b58 tokenMint
        /\ EscrowData.mintB data = b58 tokenMint
        /\ EscrowData.initializerAmount data = JS.toString amount0
        /\ EscrowData.takerAmount data = JS.toString 0
        /\ EscrowData.paymentConfirmed data = false)
  /\ Connection.getTokenAccountBalance vault L' = (Ok (JS.toString amount0), L')
  /\ (exists before,
        tokens L !! sellerAta = Some before
        /\ amount0 <= amount before
        /\ Connection.getTokenAccountBalance sellerAta L'
           = (Ok (JS.toString (amount before - amount0)), L')).
Proof.
  intros H created vault sellerAta.
  pose proof H as Hres. apply Client_escrowCreate_Ok in H as (_ & _ & Hinit).
  fold created in Hinit.
  apply initialize_record in Hinit as (Hrec & Hvault & before & Hb & Hle & Hafter).
  cbn [Client.prepareAccounts FullAccounts.escrow FullAccounts.vault
       FullAccounts.initializerAtaA FullAccounts.mintA FullAccounts.mintB
       FullAccounts.initializer FullAccounts.taker] in Hrec, Hvault, Hb, Hafter.
  fold vault in Hvault. fold sellerAta in Hb, Hafter.
  apply Client_escrowCreate_result in Hres as (Hv & Ha & _).
  split; [exact Hv|]. split; [exact Ha|].
  split; [|split].
  - eexists. split; [apply getEscrowData_Some; exact Hrec|].
    cbn. repeat split; reflexivity.
  - unfold Connection.getTokenAccountBalance. rewrite Hvault. reflexivity.
  - exists before. split; [exact Hb|]. split; [exact Hle|].
    unfold Connection.getTokenAccountBalance. rewrite Hafter. reflexivity.
Qed.

Lemma escrowCreate_then_read_witness :
  Client.escrowCreate Demo.base58 Demo.signature_of (Demo.api Demo.seller) Demo.seller
    (publicKey Demo.buyer) Demo.tokenMint 100000 (Some 42) 7 (genesis Demo.balances)
  = (Ok Demo.create_result, Demo.created)
  /\ Connection.getTokenAccountBalance
       (getAssociatedTokenAddressSync Demo.tokenMint Demo.escrow) Demo.created
     = (Ok (JS.toString 100000), Demo.created).
Proof.
  assert (Client.escrowCreate Demo.base58 Demo.signature_of (Demo.api Demo.seller)
            Demo.seller (publicKey Demo.buyer) Demo.tokenMint 100000 (Some 42) 7
            (genesis Demo.balances)
          = (Ok Demo.create_result, Demo.created)) as H
    by (apply pair_fst_snd; vm_compute; reflexivity).
  split; [exact H|].
  exact (proj1 (proj2 (proj2 (proj2 (escrowCreate_then_read _ _ _ _ _ _ _ _ _ _ _ _ H))))).
Defined.

(** ** Seeds and addresses *)

Lemma le_bytes_inj (len : nat) (n1 n2 : N) :
  n1 < 256 ^ N.of_nat len -> n2 < 256 ^ N.of_nat len ->
  JS.le_bytes len n1 = JS.le_bytes len n2 -> n1 = n2.
Proof.
  revert n1 n2. induction len as [|len IH]; intros n1 n2 H1 H2 Heq.
  - simpl in H1, H2. lia.
  - rewrite Nat2N.inj_succ, N.pow_succ_r' in H1, H2.
    cbn [JS.le_bytes] in Heq. injection Heq as Hmod Hrest.
    apply IH in Hrest; [| apply N.Div0.div_lt_upper_bound; lia ..].
    rewrite (N.div_mod n1 256), (N.div_mod n2 256) by lia. congruence.
Qed.

(** X11. How [escrowCreate] takes its seed: a seed of 0 counts as no seed,
    so the random number is used; a seed of 2^53 or more makes the call throw
    before anything is sent, with the assertion error of bn.js when the
    library has accepted the seller and the buyer as owners and with
    [TokenOwnerOffCurveError] otherwise; and the address derivation keeps
    accepted seeds apart, two seeds that yield the same escrow address being
    equal. *)
Theorem escrowCreate_seed
    (b58 : Pubkey -> string) (sig : Transaction -> string) (this : EscrowAPI)
    (sellerWallet : Keypair) (buyerWallet tokenMint : Pubkey)
    (amount : N) (random : N) (L : Ledger) :
  Client.escrowCreate b58 sig this sellerWallet buyerWallet tokenMint amount (Some 0) random L
  = Client.escrowCreate b58 sig this sellerWallet buyerWallet tokenMint amount None random L
  /\ (forall seed, seed <> 0 -> 2 ^ 53 <= seed ->
        Client.escrowCreate b58 sig this sellerWallet buyerWallet tokenMint amount
          (Some seed) random L
        = (Err (if isOnCurve (publicKey sellerWallet) && isOnCurve buyerWallet
                then AssertionFailed "Assertion failed"
                else TokenOwnerOffCurveError), L))
  /\ (forall seed1 seed2 bytes1 bytes2,
        BN seed1 ≫= toArrayLike_le 8 = Ok bytes1 ->
        BN seed2 ≫= toArrayLike_le 8 = Ok bytes2 ->
        fst (findProgramAddressSync [JS.Buffer_from "state"; bytes1] (programId this))
        = fst (findProgramAddressSync [JS.Buffer_from "state"; bytes2] (programId this)) ->
        seed1 = seed2).
Proof.
  split; [reflexivity|]. split.
  - intros seed Hnz Hbig.
    unfold Client.escrowCreate, splToken.getAssociatedTokenAddressSync.
    apply N.eqb_neq in Hnz. rewrite Hnz.
    unfold BN. apply N.ltb_ge in Hbig. rewrite Hbig.
    destruct (isOnCurve (publicKey sellerWallet)), (isOnCurve buyerWallet); reflexivity.
  - intros seed1 seed2 bytes1 bytes2 H1 H2 Heq.
    apply bind_Ok in H1 as (b1 & HB1 & H1). apply bind_Ok in H2 as (b2 & HB2 & H2).
    apply BN_Ok in HB1 as [-> Hlt1]. apply BN_Ok in HB2 as [-> Hlt2].
    apply toArrayLike_le_Ok in H1, H2. subst bytes1 bytes2.
    unfold findProgramAddressSync in Heq. cbn [fst] in Heq.
    assert (JS.le_bytes 8 seed1 = JS.le_bytes 8 seed2) as Hbytes by congruence.
    apply (le_bytes_inj 8); [| | exact Hbytes].
    + eapply N.lt_trans; [exact Hlt1 | reflexivity].
    + eapply N.lt_trans; [exact Hlt2 | reflexivity].
Qed.

Lemma escrowCreate_seed_witness :
  Client.escrowCreate Demo.base58 Demo.signature_of (Demo.api Demo.seller) Demo.seller
    (publicKey Demo.buyer) Demo.tokenMint 100000 (Some 9007199254740992) 7
    (genesis Demo.balances)
  = (Err (AssertionFailed "Assertion failed"), genesis Demo.balances).
Proof.
  apply (proj1 (proj2 (escrowCreate_seed Demo.base58 Demo.signature_of
                         (Demo.api Demo.seller) Demo.seller (publicKey Demo.buyer)
                         Demo.tokenMint 100000 7 (genesis Demo.balances)))).
  - discriminate.
  - vm_compute. discriminate.
Defined.

(** ** The two revisions of the client *)

Lemma exchange_signers (signers1 signers2 : list Pubkey) (a : FullAccounts.t) (L : Ledger) :
  (FullAccounts.initializer a ∈ signers1 <-> FullAccounts.initializer a ∈ signers2) ->
  exchange signers1 a L = exchange signers2 a L.
Proof.
  intros Hiff. unfold exchange.
  destruct (escrows L !! FullAccounts.escrow a) as [r|]; [|reflexivity].
  rewrite (bool_decide_ext
             (FullAccounts.initializer a ∈ signers1
              ∧ FullAccounts.initializer a = initializer r)
             (FullAccounts.initializer a ∈ signers2
              ∧ FullAccounts.initializer a = initializer r)) by tauto.
  reflexivity.
Qed.

Lemma ClientSigners_release_eval sig this seller buyer tokenMint e L :
  ClientSigners.escrowRelease sig this seller buyer tokenMint e L
  = if bool_decide (Anchor.programId (program this) = PROGRAM_ID) then
      match exchange [Anchor.wallet (provider this); publicKey seller]
              (Client.prepareAccounts this seller buyer tokenMint e) L with
      | Ok L' =>
          (Ok (Client.txResult this
                 (sig {| signers := [Anchor.wallet (provider this); publicKey seller];
                         instruction :=
                           Exchange (Client.prepareAccounts this seller buyer tokenMint e) |})),
           L')
      | Err err => (Err err, L)
      end
    else (Err (AccountDoesNotExist (Anchor.programId (program this))), L).
Proof.
  unfold ClientSigners.escrowRelease, mbind, Chain_bind, ClientSigners.rpc.
  case_bool_decide; [|reflexivity].
  unfold process, instruction, signers.
  destruct (exchange _ _ L); reflexivity.
Qed.

Lemma Client_release_eval b58 sig this seller buyer tokenMint e L :
  Client.escrowRelease b58 sig this seller buyer tokenMint e L
  = match escrows L !! e with
    | None => (Err (AccountDoesNotExist e), L)
    | Some r =>
        if payment_confirmed r then
          if bool_decide (Anchor.programId (program this) = PROGRAM_ID) then
            match exchange [Anchor.wallet (provider this)]
                    (Client.prepareAccounts this seller buyer tokenMint e) L with
            | Ok L' =>
                (Ok (Client.txResult this
                       (sig {| signers := [Anchor.wallet (provider this)];
                               instruction :=
                                 Exchange (Client.prepareAccounts this seller buyer tokenMint e) |})),
                 L')
            | Err err => (Err err, L)
            end
          else (Err (AccountDoesNotExist (Anchor.programId (program this))), L)
        else (Err (JsError "Payment not confirmed yet. Buyer must confirm payment before releasing tokens."), L)
    end.
Proof.
  unfold Client.escrowRelease. unfold mbind at 1. unfold Chain_bind.
  destruct (escrows L !! e) as [r|] eqn:Hr.
  - rewrite (Client_check_Some _ _ _ _ _ Hr).
    destruct (payment_confirmed r); [|reflexivity].
    unfold Client.escrowRelease_submit, mbind, Chain_bind, Client.rpc.
    case_bool_decide; [|reflexivity].
    unfold process, instruction, signers.
    destruct (exchange _ _ L); reflexivity.
  - rewrite (Client_check_None _ _ _ _ Hr). reflexivity.
Qed.

(** X12. The two revisions of [escrowRelease] -- the first reads the escrow
    and signs with the provider's wallet, the second sends the instruction
    at once and also signs with the seller's keypair -- leave the same ledger
    and succeed on the same ledgers when the provider's wallet is the
    seller; in any case the second succeeds wherever the first does. *)
Theorem escrowRelease_revisions_agree
    (b58 : Pubkey -> string) (sig1 sig2 : Transaction -> string) (this : EscrowAPI)
    (sellerWallet : Keypair) (buyerWallet tokenMint escrow : Pubkey) (L : Ledger) :
  let first := Client.escrowRelease b58 sig1 this sellerWallet buyerWallet tokenMint escrow L in
  let second := ClientSigners.escrowRelease sig2 this sellerWallet buyerWallet tokenMint escrow L in
  (forall res L', first = (Ok res, L') -> exists res', second = (Ok res', L'))
  /\ (Anchor.wallet (provider this) = publicKey sellerWallet ->
      snd first = snd second
      /\ (forall res' L', second = (Ok res', L') -> exists res, first = (Ok res, L'))).
Proof.
  intros first second. subst first second.
  rewrite Client_release_eval, ClientSigners_release_eval.
  set (a := Client.prepareAccounts this sellerWallet buyerWallet tokenMint escrow).
  assert (Hesc : FullAccounts.escrow a = escrow) by reflexivity.
  assert (Hini : FullAccounts.initializer a = publicKey sellerWallet) by reflexivity.
  split.
  - intros res L' Hcall.
    destruct (escrows L !! escrow) as [r|]; [|discriminate].
    destruct (payment_confirmed r); [|discriminate].
    case_bool_decide; [|discriminate].
    destruct (exchange [Anchor.wallet (provider this)] a L) as [L1|err] eqn:Hex;
      [|discriminate].
    injection Hcall as _ <-.
    assert (Anchor.wallet (provider this) = publicKey sellerWallet) as Hw.
    { apply exchange_Ok in Hex as (r' & _ & Hsig & _).
      rewrite Hini in Hsig. symmetry. exact (elem_of_singleton_eq _ _ Hsig). }
    rewrite <- (exchange_signers [Anchor.wallet (provider this)]), Hex.
    + eexists. reflexivity.
    + rewrite Hini, Hw. split; intros _; repeat constructor.
  - intros Hw.
    assert (exchange [Anchor.wallet (provider this); publicKey sellerWallet] a L
            = exchange [Anchor.wallet (provider this)] a L) as Hsame.
    { apply exchange_signers. rewrite Hini, Hw. split; intros _; repeat constructor. }
    rewrite Hsame.
    destruct (escrows L !! escrow) as [r|] eqn:Hr.
    + destruct (payment_confirmed r) eqn:Hc.
      * case_bool_decide; [|split; [reflexivity | discriminate]].
        destruct (exchange [Anchor.wallet (provider this)] a L) as [L1|err].
        -- split; [reflexivity|]. intros res' L' Hcall. injection Hcall as _ <-.
           eexists. reflexivity.
        -- split; [reflexivity | discriminate].
      * rewrite <- Hesc in Hr.
        destruct (exchange_not_confirmed [Anchor.wallet (provider this)] a L r Hr Hc)
          as (code & -> & _).
        case_bool_decide; split; try reflexivity; discriminate.
    + rewrite <- Hesc in Hr. unfold exchange. rewrite Hr.
      case_bool_decide; split; try reflexivity; discriminate.
Qed.

Lemma escrowRelease_revisions_agree_witness :
  snd (Client.escrowRelease Demo.base58 Demo.signature_of (Demo.api Demo.seller)
         Demo.seller (publicKey Demo.buyer) Demo.tokenMint Demo.escrow Demo.confirmed)
  = snd (ClientSigners.escrowRelease Demo.signature_of (Demo.api Demo.seller)
           Demo.seller (publicKey Demo.buyer) Demo.tokenMint Demo.escrow Demo.confirmed).
Proof.
  exact (proj1 (proj2 (escrowRelease_revisions_agree Demo.base58 Demo.signature_of
                         Demo.signature_of (Demo.api Demo.seller) Demo.seller
                         (publicKey Demo.buyer) Demo.tokenMint Demo.escrow Demo.confirmed)
                 eq_refl)).
Defined.

(** ** Decimal texts *)

Lemma string_app_cons (c : ascii) (s1 s2 : string) :
  String c s1 +:+ s2 = String c (s1 +:+ s2).
Proof. reflexivity. Qed.

Lemma string_app_assoc (s1 s2 s3 : string) : (s1 +:+ s2) +:+ s3 = s1 +:+ (s2 +:+ s3).
Proof.
  induction s1 as [|c s1 IH]; [reflexivity|].
  rewrite !string_app_cons, IH. reflexivity.
Qed.

Lemma string_app_nil_r (s : string) : s +:+ "" = s.
Proof.
  induction s as [|c s IH]; [reflexivity|].
  rewrite string_app_cons, IH. reflexivity.
Qed.

Lemma string_app_length (s1 s2 : string) :
  String.length (s1 +:+ s2) = (String.length s1 + String.length s2)%nat.
Proof.
  induction s1 as [|c s1 IH]; [reflexivity|].
  rewrite string_app_cons. simpl. rewrite IH. reflexivity.
Qed.

Lemma pretty_N_go_app (x : N) (s : string) :
  pretty_N_go x s = pretty_N_go x "" +:+ s.
Proof.
  revert s. induction (N.lt_wf_0 x) as [x _ IH]; intros s.
  destruct (N.eq_dec x 0) as [->|Hx].
  - rewrite !pretty_N_go_0. reflexivity.
  - rewrite (pretty_N_go_step x s), (pretty_N_go_step x "") by lia.
    rewrite (IH (x / 10)) by (apply N.div_lt; lia).
    rewrite (IH (x / 10) ltac:(apply N.div_lt; lia) (String _ "")).
    rewrite string_app_assoc. reflexivity.
Qed.

Lemma pretty_N_go_snoc (x : N) :
  0 < x ->
  pretty_N_go x "" = pretty_N_go (x / 10) "" +:+ String (pretty_N_char (x mod 10)) "".
Proof.
  intros Hx. rewrite pretty_N_go_step by exact Hx. apply pretty_N_go_app.
Qed.

Lemma toString_pos (n : N) : 0 < n -> JS.toString n = pretty_N_go n "".
Proof.
  intros Hn. unfold JS.toString, pretty, pretty_N.
  destruct (decide (n = 0)); [lia | reflexivity].
Qed.

Lemma pretty_N_char_digit (d : N) :
  d < 10 -> N_of_ascii (pretty_N_char d) = 48 + d.
Proof.
  intros Hd.
  assert (forallb (fun k => N_of_ascii (pretty_N_char (N.of_nat k)) =? 48 + N.of_nat k)
                  (seq 0 10) = true) as Hall by (vm_compute; reflexivity).
  rewrite forallb_forall in Hall.
  specialize (Hall (N.to_nat d) ltac:(apply in_seq; lia)).
  rewrite N2Nat.id in Hall. apply N.eqb_eq. exact Hall.
Qed.


Lemma digits_value_app (s1 s2 : string) (acc : N) :
  Forall (fun c => (48 <=? N_of_ascii c) && (N_of_ascii c <=? 57) = true)
         (String.list_ascii_of_string s1) ->
  Number.digits_value acc (s1 +:+ s2) = Number.digits_value (Number.digits_value acc s1) s2.
Proof.
  revert acc. induction s1 as [|c s1 IH]; intros acc H; [reflexivity|].
  simpl in H. inversion H as [|? ? Hc Hrest]; subst.
  rewrite string_app_cons. cbn [Number.digits_value]. rewrite Hc.
  apply IH. exact Hrest.
Qed.

Lemma pretty_N_go_digits (x : N) :
  Forall (fun c => (48 <=? N_of_ascii c) && (N_of_ascii c <=? 57) = true)
         (String.list_ascii_of_string (pretty_N_go x ""))
  /\ Number.digits_value 0 (pretty_N_go x "") = x
  /\ (0 < x -> pretty_N_go x "" <> "").
Proof.
  induction (N.lt_wf_0 x) as [x _ IH].
  destruct (N.eq_dec x 0) as [->|Hx].
  - rewrite pretty_N_go_0. split; [constructor|]. split; [reflexivity | lia].
  - rewrite pretty_N_go_snoc by lia.
    destruct (IH (x / 10) ltac:(apply N.div_lt; lia)) as (Hall & Hval & _).
    assert (x mod 10 < 10) as Hd by (apply N.mod_lt; lia).
    pose proof (pretty_N_char_digit _ Hd) as Hc.
    assert ((48 <=? N_of_ascii (pretty_N_char (x mod 10)))
            && (N_of_ascii (pretty_N_char (x mod 10)) <=? 57) = true) as Hdig.
    { rewrite Hc. apply andb_true_iff. split; apply N.leb_le;
        clear -Hd; generalize dependent (x mod 10); intros; lia. }
    split; [|split].
    + clear -Hall Hdig. induction (pretty_N_go (x / 10) "") as [|c s IHs].
      * repeat constructor. exact Hdig.
      * rewrite string_app_cons. simpl in Hall |- *.
        inversion Hall; subst. constructor; [assumption | auto].
    + rewrite digits_value_app by exact Hall. rewrite Hval.
      cbn [Number.digits_value]. rewrite Hdig, Hc.
      pose proof (N.div_mod x 10 ltac:(lia)) as Hdm.
      clear -Hdm Hd. generalize dependent (x mod 10). generalize dependent (x / 10).
      intros; lia.
    + intros _. destruct (pretty_N_go (x / 10) ""); [discriminate|].
      rewrite string_app_cons. discriminate.
Qed.

Lemma parseInt_toString (n : N) : Number.parseInt (JS.toString n) = Number.of_N n.
Proof.
  destruct (N.eq_dec n 0) as [->|Hn]; [reflexivity|].
  rewrite toString_pos by lia.
  destruct (pretty_N_go_digits n) as (Hall & Hval & Hne).
  specialize (Hne ltac:(lia)).
  unfold Number.parseInt.
  destruct (pretty_N_go n "") as [|c s] eqn:Hs; [contradiction|].
  simpl in Hall. pose proof (Forall_inv Hall) as Hc. simpl in Hc.
  cbv zeta. rewrite Hc, Hval. reflexivity.
Qed.

(** X13. For a token account that exists and an owner on the curve,
    [getTokenBalance] returns the raw amount as a JavaScript number, that is
    the binary64 number nearest to it: [parseInt] reads the decimal text the
    node reports back to that number.  For an owner off the curve it returns
    0, the library refusing to derive the address.  The wallet's
    [getTokenBalance] reports the same balance with the decimals, mint, name
    and icon of the token and the amount formatted with its decimals, as long
    as the token has at most 100 decimals; with more, [toFixed] throws and the
    balance is reported as 0. *)
Theorem getTokenBalance_reads_amount
    (toFixed : Number.t -> N -> string)
    (this : EscrowAPI) (wallet tokenMint : Pubkey)
    (w : Wallet.WalletAPI) (tokenSymbol : string) (L : Ledger) :
  (forall t,
     tokens L !! getAssociatedTokenAddressSync tokenMint wallet = Some t ->
     Client.getTokenBalance this wallet tokenMint L
     = (Ok (if isOnCurve wallet then Number.of_N (amount t) else Number.zero), L))
  /\ (forall kp cfg mintKey t,
        Wallet.wallet w = Some kp -> Wallet.tokens w !! tokenSymbol = Some cfg ->
        PublicKey_new (Wallet.mint cfg) = Ok mintKey ->
        isOnCurve (publicKey kp) = true ->
        tokens L !! getAssociatedTokenAddressSync mintKey (publicKey kp) = Some t ->
        (Wallet.decimals cfg <= 100 ->
         Wallet.getTokenBalance toFixed w tokenSymbol L
         = (Ok {| Wallet.TokenBalance.symbol := tokenSymbol;
                  Wallet.TokenBalance.balance := Number.of_N (amount t);
                  Wallet.TokenBalance.decimals := Wallet.decimals cfg;
                  Wallet.TokenBalance.formattedBalance :=
                    toFixed (Number.div (Number.of_N (amount t))
                                        (Number.pow10 (Wallet.decimals cfg)))
                            (Wallet.decimals cfg);
                  Wallet.TokenBalance.mint := Wallet.mint cfg;
                  Wallet.TokenBalance.name := Wallet.name cfg;
                  Wallet.TokenBalance.icon := Wallet.icon cfg |}, L))
        /\ (100 < Wallet.decimals cfg ->
            exists b,
              Wallet.getTokenBalance toFixed w tokenSymbol L = (Ok b, L)
              /\ Wallet.TokenBalance.balance b = Number.zero
              /\ Wallet.TokenBalance.formattedBalance b = "0.000000")).
Proof.
  split.
  - intros t Ht.
    unfold Client.getTokenBalance, splToken.getAssociatedTokenAddressSync. wallet_unfold.
    destruct (isOnCurve wallet); cbn [negb andb]; [|reflexivity].
    rewrite Ht, parseInt_toString. reflexivity.
  - intros kp cfg mintKey t Hkp Hcfg Hmint Hcurve Ht.
    unfold Wallet.getTokenBalance, splToken.getAssociatedTokenAddressSync,
      Wallet.formatTokenAmount. wallet_unfold.
    rewrite Hkp, Hcfg, Hmint, Hcurve. cbn [negb andb].
    rewrite Ht, parseInt_toString. split.
    + intros Hle. apply N.leb_le in Hle. rewrite Hle. reflexivity.
    + intros Hgt. apply N.leb_gt in Hgt. rewrite Hgt.
      eexists. split; [reflexivity|]. split; reflexivity.
Qed.

Lemma getTokenBalance_reads_amount_witness :
  Client.getTokenBalance (Demo.api Demo.seller) (publicKey Demo.seller) Demo.tokenMint
    (genesis Demo.balances)
  = (Ok (Number.of_N 700000), genesis Demo.balances).
Proof.
  apply (proj1 (getTokenBalance_reads_amount (fun _ _ => "0") (Demo.api Demo.seller)
                  (publicKey Demo.seller) Demo.tokenMint
                  {| Wallet.wallet := None; Wallet.tokens := ∅ |} "USDT"
                  (genesis Demo.balances))
          {| mint := Demo.tokenMint; amount := 700000 |}).
  vm_compute. reflexivity.
Defined.

(** ** [deriveEscrowAddress] and the decimal digits of the seed *)

Lemma drop_chars_all (s : string) : JS.drop_chars (String.length s) s = "".
Proof. induction s as [|c s IH]; [reflexivity | exact IH]. Qed.

Lemma drop_chars_app (j : nat) (t u : string) :
  (j <= String.length t)%nat -> JS.drop_chars j (t +:+ u) = JS.drop_chars j t +:+ u.
Proof.
  revert t. induction j as [|j IH]; intros t Hj; [reflexivity|].
  destruct t as [|c t]; [simpl in Hj; lia|].
  rewrite string_app_cons. cbn [JS.drop_chars]. apply IH. simpl in Hj. lia.
Qed.

Lemma slice_last_snoc (k : nat) (t : string) (c : ascii) :
  JS.slice_last (S k) (t +:+ String c "") = JS.slice_last k t +:+ String c "".
Proof.
  unfold JS.slice_last. rewrite string_app_length. simpl String.length.
  replace (String.length t + 1 - S k)%nat with (String.length t - k)%nat by lia.
  apply drop_chars_app. lia.
Qed.

Lemma padStart_snoc (k : nat) (z : ascii) (s : string) (c : ascii) :
  JS.padStart (S k) z (s +:+ String c "") = JS.padStart k z s +:+ String c "".
Proof.
  unfold JS.padStart. rewrite string_app_length. simpl String.length.
  replace (S k - (String.length s + 1))%nat with (k - String.length s)%nat by lia.
  rewrite string_app_assoc. reflexivity.
Qed.

Lemma repeat_char_length (c : ascii) (n : nat) : String.length (JS.repeat_char c n) = n.
Proof. induction n as [|n IH]; simpl; [reflexivity | by rewrite IH]. Qed.

Lemma repeat_char_snoc (c : ascii) (n : nat) :
  JS.repeat_char c (S n) = JS.repeat_char c n +:+ String c "".
Proof.
  induction n as [|n IH]; [reflexivity|].
  transitivity (String c (JS.repeat_char c (S n))); [reflexivity|].
  rewrite IH at 1. reflexivity.
Qed.

Lemma padded_zero (k : nat) :
  JS.slice_last k (JS.padStart k "0" "") = JS.repeat_char "0" k.
Proof.
  unfold JS.padStart, JS.slice_last. simpl String.length.
  rewrite Nat.sub_0_r, string_app_nil_r, repeat_char_length, Nat.sub_diag.
  reflexivity.
Qed.

Lemma padded_digits (k : nat) (n : N) :
  JS.slice_last k (JS.padStart k "0" (pretty_N_go n "")) = dec_digits k n.
Proof.
  revert n. induction k as [|k IH]; intros n.
  - unfold JS.slice_last, JS.padStart. simpl JS.repeat_char.
    change ("" +:+ pretty_N_go n "") with (pretty_N_go n "").
    rewrite Nat.sub_0_r. apply drop_chars_all.
  - destruct (N.eq_dec n 0) as [->|Hn].
    + rewrite pretty_N_go_0, padded_zero. cbn [dec_digits].
      change (0 / 10) with 0. change (0 mod 10) with 0.
      rewrite <- IH, pretty_N_go_0, padded_zero. apply repeat_char_snoc.
    + rewrite pretty_N_go_snoc by lia.
      rewrite padStart_snoc, slice_last_snoc, IH. reflexivity.
Qed.

Lemma dec_digits_mod (k : nat) (n : N) :
  dec_digits k (n mod 10 ^ N.of_nat k) = dec_digits k n.
Proof.
  revert n. induction k as [|k IH]; intros n; [reflexivity|].
  cbn [dec_digits]. rewrite Nat2N.inj_succ, N.pow_succ_r'.
  rewrite N.Div0.mod_mul_r.
  replace ((n mod 10 + 10 * ((n / 10) mod 10 ^ N.of_nat k)) / 10)
    with ((n / 10) mod 10 ^ N.of_nat k).
  - replace ((n mod 10 + 10 * ((n / 10) mod 10 ^ N.of_nat k)) mod 10) with (n mod 10).
    + rewrite IH. reflexivity.
    + apply N.mod_unique with ((n / 10) mod 10 ^ N.of_nat k);
        [apply N.mod_lt; lia | lia].
  - apply N.div_unique with (n mod 10); [apply N.mod_lt; lia | lia].
Qed.

Lemma deriveEscrowAddress_digits (this : EscrowAPI) (seed : N) :
  Client.deriveEscrowAddress this seed
  = fst (findProgramAddressSync
           [JS.Buffer_from "state"; JS.Buffer_from_hex (dec_digits 8 seed)]
           (Anchor.programId (program this))).
Proof.
  unfold Client.deriveEscrowAddress.
  destruct (N.eq_dec seed 0) as [->|Hn]; [reflexivity|].
  rewrite toString_pos by lia. rewrite (padded_digits 8). reflexivity.
Qed.

(** X14. [deriveEscrowAddress] reads only the last eight decimal digits of
    the seed: two seeds below 2^53 (the integers whose text is their exact
    decimal expansion) that agree modulo 10^8 get the same address. *)
Theorem deriveEscrowAddress_last_digits (this : EscrowAPI) (seed1 seed2 : N) :
  seed1 < 2 ^ 53 -> seed2 < 2 ^ 53 ->
  seed1 mod 10 ^ 8 = seed2 mod 10 ^ 8 ->
  Client.deriveEscrowAddress this seed1 = Client.deriveEscrowAddress this seed2.
Proof.
  intros _ _ Hmod. rewrite !deriveEscrowAddress_digits.
  rewrite <- (dec_digits_mod 8 seed1), <- (dec_digits_mod 8 seed2).
  change (N.of_nat 8) with 8. rewrite Hmod. reflexivity.
Qed.

Lemma deriveEscrowAddress_last_digits_witness :
  (42 < 2 ^ 53 /\ 100000042 < 2 ^ 53 /\ 42 mod 10 ^ 8 = 100000042 mod 10 ^ 8) /\
  Client.deriveEscrowAddress (Demo.api Demo.seller) 42
  = Client.deriveEscrowAddress (Demo.api Demo.seller) 100000042.
Proof.
  assert (42 < 2 ^ 53) as H1 by reflexivity.
  assert (100000042 < 2 ^ 53) as H2 by reflexivity.
  assert (42 mod 10 ^ 8 = 100000042 mod 10 ^ 8) as H by reflexivity.
  split; [auto|].
  exact (deriveEscrowAddress_last_digits _ 42 100000042 H1 H2 H).
Defined.

(** ** Registering a token and reading its balance *)

Lemma or_string_same (s : string) : Wallet.or_string (Some s) "" = s.
Proof. destruct s; reflexivity. Qed.

(** X15. After [addToken], [getTokenBalance] of that symbol never throws
    and answers with the symbol, mint and name that were registered, whether
    the balance could be read or not.  The decimals are the registered ones,
    except that a failed read of a token with 0 decimals reports 6, and an
    empty icon is reported as the default icon by a failed read. *)
Theorem addToken_getTokenBalance
    (toFixed : Number.t -> N -> string) (this : Wallet.WalletAPI)
    (symbol mint : string) (decimals : N) (name : string) (icon : option string)
    (L : Ledger) :
  exists b,
    Wallet.getTokenBalance toFixed
      (WalletTokens.addToken this symbol mint decimals name icon) symbol L = (Ok b, L)
    /\ Wallet.TokenBalance.symbol b = symbol
    /\ Wallet.TokenBalance.mint b = mint
    /\ Wallet.TokenBalance.name b = name
    /\ (Wallet.TokenBalance.decimals b = decimals
        \/ decimals = 0 /\ Wallet.TokenBalance.decimals b = 6
           /\ Wallet.TokenBalance.balance b = Number.zero)
    /\ (Wallet.TokenBalance.icon b = default "💰" icon
        \/ icon = Some "" /\ Wallet.TokenBalance.icon b = "💰"
           /\ Wallet.TokenBalance.balance b = Number.zero).
Proof.
  unfold Wallet.getTokenBalance, WalletTokens.addToken.
  cbn [Wallet.wallet Wallet.tokens]. rewrite lookup_insert_eq.
  assert (exists b,
    {| Wallet.TokenBalance.symbol := symbol;
       Wallet.TokenBalance.balance := Number.zero;
       Wallet.TokenBalance.decimals := Wallet.or_number (Some decimals) 6;
       Wallet.TokenBalance.formattedBalance := "0.000000";
       Wallet.TokenBalance.mint := Wallet.or_string (Some mint) "";
       Wallet.TokenBalance.name := Wallet.or_string (Some name) "";
       Wallet.TokenBalance.icon := Wallet.or_string (Some (default "💰" icon)) "💰" |} = b
    /\ Wallet.TokenBalance.symbol b = symbol
    /\ Wallet.TokenBalance.mint b = mint
    /\ Wallet.TokenBalance.name b = name
    /\ (Wallet.TokenBalance.decimals b = decimals
        \/ decimals = 0 /\ Wallet.TokenBalance.decimals b = 6
           /\ Wallet.TokenBalance.balance b = Number.zero)
    /\ (Wallet.TokenBalance.icon b = default "💰" icon
        \/ icon = Some "" /\ Wallet.TokenBalance.icon b = "💰"
           /\ Wallet.TokenBalance.balance b = Number.zero)) as (bf & Hbf & Hfallback).
  { eexists. split; [reflexivity|].
    cbn [Wallet.TokenBalance.symbol Wallet.TokenBalance.mint Wallet.TokenBalance.name
         Wallet.TokenBalance.decimals Wallet.TokenBalance.icon
         Wallet.TokenBalance.balance].
    rewrite !or_string_same. unfold Wallet.or_number. split; [reflexivity|]. split; [reflexivity|].
    split; [reflexivity|]. split.
    - destruct (decimals =? 0) eqn:Hd; [right | left; reflexivity].
      apply N.eqb_eq in Hd. auto.
    - destruct icon as [[|c s]|]; [right; auto | left; reflexivity | left; reflexivity]. }
  cbn [fmap option_fmap option_map Wallet.mint Wallet.decimals Wallet.name Wallet.icon].
  rewrite Hbf. unfold try_catch, mbind, Chain_bind, mret, Chain_ret, throw, lift.
  destruct (Wallet.wallet this) as [kp|]; [|exists bf; split; [reflexivity | exact Hfallback]].
  cbn [Wallet.mint].
  destruct (PublicKey_new mint) as [mintKey|err];
    [|exists bf; split; [reflexivity | exact Hfallback]].
  unfold splToken.getAssociatedTokenAddressSync.
  destruct (isOnCurve (publicKey kp)); cbn [negb andb];
    [|exists bf; split; [reflexivity | exact Hfallback]].
  unfold Connection.getTokenAccountBalance.
  destruct (tokens L !! getAssociatedTokenAddressSync mintKey (publicKey kp)) as [t|];
    [|exists bf; split; [reflexivity | exact Hfallback]].
  unfold Wallet.formatTokenAmount. cbn [Wallet.decimals].
  destruct (decimals <=? 100);
    [|exists bf; split; [reflexivity | exact Hfallback]].
  eexists. split; [reflexivity|]. cbn. auto 10.
Qed.

Lemma addToken_getTokenBalance_witness :
  exists b,
    Wallet.getTokenBalance (fun _ _ => "0")
      (WalletTokens.addToken {| Wallet.wallet := None; Wallet.tokens := ∅ |}
         "PTS" "J1UjsVLRwGcpoCjexjDaHWVoj9F3TbdCpwVYNUYkww6y" 0 "Points" None)
      "PTS" (genesis Demo.balances) = (Ok b, genesis Demo.balances)
    /\ Wallet.TokenBalance.symbol b = "PTS"
    /\ Wallet.TokenBalance.mint b = "J1UjsVLRwGcpoCjexjDaHWVoj9F3TbdCpwVYNUYkww6y"
    /\ Wallet.TokenBalance.name b = "Points"
    /\ (Wallet.TokenBalance.decimals b = 0
        \/ 0 = 0 /\ Wallet.TokenBalance.decimals b = 6
           /\ Wallet.TokenBalance.balance b = Number.zero)
    /\ (Wallet.TokenBalance.icon b = default "💰" None
        \/ None = Some "" /\ Wallet.TokenBalance.icon b = "💰"
           /\ Wallet.TokenBalance.balance b = Number.zero).
Proof.
  exact (addToken_getTokenBalance (fun _ _ => "0")
           {| Wallet.wallet := None; Wallet.tokens := ∅ |}
           "PTS" "J1UjsVLRwGcpoCjexjDaHWVoj9F3TbdCpwVYNUYkww6y" 0 "Points" None
           (genesis Demo.balances)).
Defined.

(** ** The sign of a parsed amount *)

Lemma shr_1_nonneg (mrs : shr_record) : (0 <= shr_m mrs)%Z -> (0 <= shr_m (shr_1 mrs))%Z.
Proof.
  destruct mrs as [m r s]. simpl.
  destruct m as [|p|p]; [simpl; lia | | simpl; lia].
  intros _. destruct p; simpl; lia.
Qed.

Lemma iter_shr_1_nonneg (p : positive) (mrs : shr_record) :
  (0 <= shr_m mrs)%Z -> (0 <= shr_m (SpecFloat.iter_pos shr_1 p mrs))%Z.
Proof.
  revert mrs. induction p as [p IH|p IH|]; intros mrs H; simpl.
  - apply IH, IH, shr_1_nonneg, H.
  - apply IH, IH, H.
  - apply shr_1_nonneg, H.
Qed.

Lemma shr_fexp_nonneg (prec emax m e : Z) (l : location) :
  (0 <= m)%Z -> (0 <= shr_m (fst (shr_fexp prec emax m e l)))%Z.
Proof.
  intros H. unfold shr_fexp, shr.
  assert (0 <= shr_m (shr_record_of_loc m l))%Z as H0
    by (destruct l as [|[]]; exact H).
  destruct (fexp prec emax (Zdigits2 m + e) - e)%Z; simpl; try exact H0.
  apply iter_shr_1_nonneg, H0.
Qed.

Lemma round_nearest_even_nonneg (m : Z) (l : location) :
  (0 <= m)%Z -> (0 <= round_nearest_even m l)%Z.
Proof.
  intros H. destruct l as [|[]]; simpl; try lia.
  destruct (Z.even m); lia.
Qed.

(** Rounding a non-negative mantissa keeps the sign it is given. *)
Lemma binary_round_aux_sign (prec emax : Z) (sx : bool) (mx ex : Z) (lx : location) :
  (0 <= mx)%Z ->
  match binary_round_aux prec emax sx mx ex lx with
  | S754_zero s | S754_infinity s | S754_finite s _ _ => s = sx
  | S754_nan => False
  end.
Proof.
  intros H. unfold binary_round_aux.
  pose proof (shr_fexp_nonneg prec emax mx ex lx H) as H1.
  destruct (shr_fexp prec emax mx ex lx) as [mrs' e']. simpl in H1.
  pose proof (shr_fexp_nonneg prec emax _ e' loc_Exact
                (round_nearest_even_nonneg _ (loc_of_shr_record mrs') H1)) as H2.
  destruct (shr_fexp prec emax _ e' loc_Exact) as [mrs'' e'']. simpl in H2.
  destruct (shr_m mrs'') as [|m|m]; [reflexivity | | lia].
  destruct (e'' <=? emax - prec)%Z; reflexivity.
Qed.

Lemma of_Z_sign (z : Z) :
  (0 <= z)%Z ->
  match Number.of_Z z with
  | S754_zero s | S754_infinity s | S754_finite s _ _ => s = false
  | S754_nan => False
  end.
Proof.
  intros H. unfold Number.of_Z, binary_normalize.
  destruct z as [|p|p]; [reflexivity | | lia].
  unfold binary_round.
  destruct (shl_align p 0 _) as [mz ez].
  apply binary_round_aux_sign. lia.
Qed.

(** X16. [parseTokenAmount] never returns a negative amount: what it does
    not reject is a number that is zero or more, and it is no NaN when the
    parsed input is finite.  (It may be 0, for an input below the smallest
    unit.) *)
Theorem parseTokenAmount_not_negative
    (parseFloat : string -> Number.t) (input : string) (decimals : N) (result : Number.t) :
  Client.parseTokenAmount parseFloat input decimals = Ok result ->
  SFltb result Number.zero = false
  /\ (forall s m e, parseFloat input = S754_finite s m e -> Number.isNaN result = false).
Proof.
  unfold Client.parseTokenAmount. intros H.
  destruct (Number.isNaN (parseFloat input)) eqn:Hnan; [discriminate|].
  destruct (Number.leb (parseFloat input) Number.zero) eqn:Hle; [discriminate|].
  simpl in H. injection H as <-.
  pose proof (of_Z_sign (Z.of_N (10 ^ decimals)) ltac:(lia)) as Hpow.
  fold (Number.of_N (10 ^ decimals)) in Hpow. fold (Number.pow10 decimals) in Hpow.
  assert (match Number.mul (parseFloat input) (Number.pow10 decimals) with
          | S754_zero s | S754_infinity s | S754_finite s _ _ => s = false
          | S754_nan => forall s m e, parseFloat input <> S754_finite s m e
          end) as Hmul.
  { destruct (parseFloat input) as [s|s| |s m e]; try discriminate;
      destruct s; try discriminate;
      destruct (Number.pow10 decimals) as [s'|s'| |s' m' e']; try contradiction;
      subst; try reflexivity; try discriminate.
    unfold Number.mul, SFmul.
    pose proof (binary_round_aux_sign Number.prec Number.emax (xorb false false)
                  (Z.pos (m * m')) (e + e') loc_Exact ltac:(lia)) as Hr.
    destruct (binary_round_aux _ _ _ _ _ _); try exact Hr. contradiction. }
  assert (match Number.floor (Number.mul (parseFloat input) (Number.pow10 decimals)) with
          | S754_zero s | S754_infinity s | S754_finite s _ _ => s = false
          | S754_nan => forall s m e, parseFloat input <> S754_finite s m e
          end) as Hfloor.
  { destruct (Number.mul (parseFloat input) (Number.pow10 decimals)) as [s|s| |s m e];
      try exact Hmul.
    subst s. unfold Number.floor. destruct (0 <=? e)%Z; [reflexivity|].
    pose proof (of_Z_sign (Z.pos m / 2 ^ (- e))
                  ltac:(apply Z_div_nonneg_nonneg; [lia | apply Z.pow_nonneg; lia])) as Hz.
    cbn [cond_Zopp].
    destruct (Number.of_Z _); try exact Hz. contradiction. }
  destruct (Number.floor _) as [s|s| |s m e]; try subst s; split; try reflexivity;
    try (intros; reflexivity).
  intros s m e Hfin. exfalso. exact (Hfloor s m e Hfin).
Qed.

Lemma parseTokenAmount_not_negative_witness :
  Client.parseTokenAmount (fun _ => Number.of_N 3) "3" 6 = Ok (Number.of_N 3000000)
  /\ SFltb (Number.of_N 3000000) Number.zero = false.
Proof.
  assert (Client.parseTokenAmount (fun _ => Number.of_N 3) "3" 6
          = Ok (Number.of_N 3000000)) as H by (vm_compute; reflexivity).
  split; [exact H|].
  exact (proj1 (parseTokenAmount_not_negative _ _ _ _ H)).
Defined.

(** ** The end of an escrow *)

Lemma canReleaseEscrow_eval b58 this e L :
  Client.canReleaseEscrow b58 this e L
  = match escrows L !! e with
    | Some r =>
        (Ok {| ReleaseStatus.canRelease := payment_confirmed r;
               ReleaseStatus.escrowData :=
                 Some {| EscrowData.seed := JS.toString (seed r);
                         EscrowData.bump := bump r;
                         EscrowData.initializer := b58 (initializer r);
                         EscrowData.mintA := b58 (mint_a r);
                         EscrowData.mintB := b58 (mint_b r);
                         EscrowData.initializerAmount := JS.toString (initializer_amount r);
                         EscrowData.takerAmount := JS.toString (taker_amount r);
                         EscrowData.paymentConfirmed := payment_confirmed r |};
               ReleaseStatus.message :=
                 if payment_confirmed r
                 then "Ready to release - payment confirmed"
                 else "Cannot release - payment not confirmed yet" |}, L)
    | None =>
        (Ok {| ReleaseStatus.canRelease := false;
               ReleaseStatus.escrowData := None;
               ReleaseStatus.message := "Failed to load escrow data" |}, L)
    end.
Proof.
  unfold Client.canReleaseEscrow, try_catch, mbind, Chain_bind.
  destruct (escrows L !! e) as [r|] eqn:Hr.
  - rewrite (getEscrowData_Some _ _ _ _ _ Hr). reflexivity.
  - rewrite (getEscrowData_None _ _ _ _ Hr). reflexivity.
Qed.

(** X17. A release or a cancel that succeeds ends the escrow.  Before a
    successful [escrowRelease], [canReleaseEscrow] reported [canRelease =
    true]; after a successful [escrowRelease] or [escrowCancel] the record is
    gone: [getEscrowData] throws, [canReleaseEscrow] reports 'Failed to load
    escrow data', and a further [escrowRelease], [escrowCancel] or
    [escrowConfirmPayment] on that address throws and changes nothing. *)
Theorem settled_escrow_is_gone
    (b58 : Pubkey -> string) (sig : Transaction -> string) (this : EscrowAPI)
    (sellerWallet buyerKeypair : Keypair) (buyerWallet tokenMint escrow : Pubkey)
    (L L' : Ledger) (res : TxResult.t) :
  Client.escrowRelease b58 sig this sellerWallet buyerWallet tokenMint escrow L = (Ok res, L')
  \/ Client.escrowCancel sig this sellerWallet tokenMint escrow L = (Ok res, L') ->
  (Client.escrowRelease b58 sig this sellerWallet buyerWallet tokenMint escrow L = (Ok res, L') ->
   exists status,
     Client.canReleaseEscrow b58 this escrow L = (Ok status, L)
     /\ ReleaseStatus.canRelease status = true)
  /\ Client.getEscrowData b58 this escrow L' = (Err (AccountDoesNotExist escrow), L')
  /\ Client.canReleaseEscrow b58 this escrow L'
     = (Ok {| ReleaseStatus.canRelease := false;
              ReleaseStatus.escrowData := None;
              ReleaseStatus.message := "Failed to load escrow data" |}, L')
  /\ Client.escrowRelease b58 sig this sellerWallet buyerWallet tokenMint escrow L'
     = (Err (AccountDoesNotExist escrow), L')
  /\ (exists err,
        Client.escrowCancel sig this sellerWallet tokenMint escrow L' = (Err err, L'))
  /\ (exists err,
        Client.escrowConfirmPayment b58 sig this buyerKeypair escrow tokenMint L'
        = (Err err, L')).
Proof.
  intros Hdone.
  assert (escrows L' !! escrow = None /\
          tokens L' !! getAssociatedTokenAddressSync tokenMint escrow = None) as [Hgone Hvault].
  { destruct Hdone as [H|H].
    - apply Client_escrowRelease_Ok, exchange_Ok in H
        as (r & _ & _ & _ & _ & Hesc & Hv & _).
      split; [rewrite Hesc; apply lookup_delete_eq | exact Hv].
    - apply Client_escrowCancel_Ok, cancel_Ok in H
        as (r & _ & _ & _ & _ & Hesc & Hv & _).
      split; [rewrite Hesc; apply lookup_delete_eq | exact Hv]. }
  split; [|split; [|split; [|split; [|split]]]].
  - intros H. rewrite Client_release_eval in H. rewrite canReleaseEscrow_eval.
    destruct (escrows L !! escrow) as [r|]; [|discriminate].
    destruct (payment_confirmed r); [|discriminate].
    eexists. split; reflexivity.
  - apply getEscrowData_None. exact Hgone.
  - rewrite canReleaseEscrow_eval, Hgone. reflexivity.
  - rewrite Client_release_eval, Hgone. reflexivity.
  - unfold Client.escrowCancel, mbind, Chain_bind, Client.rpc.
    case_bool_decide; [|eexists; reflexivity].
    unfold process, instruction, signers.
    rewrite (cancel_not_found [Anchor.wallet (provider this)]
               (Client.prepareCancelAccounts this sellerWallet tokenMint escrow) L' Hgone).
    eexists. reflexivity.
  - unfold Client.escrowConfirmPayment, Connection.getAccountInfo, mbind, Chain_bind, in_use.
    rewrite Hgone.
    destruct (tokens L' !! escrow) as [t|]; [|eexists; reflexivity].
    cbn [Connection.owner].
    destruct (negb _); [eexists; reflexivity|].
    unfold Client.rpc. case_bool_decide; [|eexists; reflexivity].
    unfold process, instruction, signers, confirm_payment.
    cbn [Client.prepareConfirmAccounts ConfirmAccounts.escrow]. rewrite Hgone.
    eexists. reflexivity.
Qed.

Lemma settled_escrow_is_gone_witness :
  Client.canReleaseEscrow Demo.base58 (Demo.api Demo.seller) Demo.escrow
    (snd (Client.escrowRelease Demo.base58 Demo.signature_of (Demo.api Demo.seller)
            Demo.seller (publicKey Demo.buyer) Demo.tokenMint Demo.escrow Demo.confirmed))
  = (Ok {| ReleaseStatus.canRelease := false;
           ReleaseStatus.escrowData := None;
           ReleaseStatus.message := "Failed to load escrow data" |},
     snd (Client.escrowRelease Demo.base58 Demo.signature_of (Demo.api Demo.seller)
            Demo.seller (publicKey Demo.buyer) Demo.tokenMint Demo.escrow Demo.confirmed)).
Proof.
  refine (proj1 (proj2 (proj2 (settled_escrow_is_gone Demo.base58 Demo.signature_of
            (Demo.api Demo.seller) Demo.seller Demo.buyer (publicKey Demo.buyer)
            Demo.tokenMint Demo.escrow Demo.confirmed _
            (Client.txResult (Demo.api Demo.seller) "signature") (or_introl _))))).
  apply pair_fst_snd. vm_compute. reflexivity.
Defined.
